(** * Billing system: invoice assembly, numbering and master data

    A shallow embedding of the billing application's handlers
    ([generateInvoicePrefix], [handleGenerateBill], [handleSaveInvoice],
    the customer handlers of the [App] component and the prefix input
    handler of [FirmSetup]) together with the properties of its
    specification.

    Modelling conventions.
    - A JavaScript string is the list of its UTF-16 code units
      ([jsstring]); the regular expressions of the source have no [u]
      flag, so they work on code units as well.
    - A JavaScript number that holds a price, a quantity, a rate or a
      total is an exact rational ([Q]); the rounding of IEEE doubles is
      not modelled.  Counters and clock readings are integers ([Z]).
    - An optional property ([x?: T], possibly [undefined]) is an [option].
    - The remote document store is explicit state; whether a store call
      succeeds is decided by the environment and is an argument of the
      handler that issues the call. *)

From Stdlib Require Import ZArith QArith Lia Lqa String Ascii DecimalString.
From Stdlib Require Import DecimalZ DecimalPos.
From Corelib Require PrimFloat.
From stdpp Require Import gmap list strings sorting.

Local Open Scope Z_scope.

(** ** JavaScript strings *)

Abbreviation jsstring := (list N).

(** A literal of the source, as code units. *)
Definition lit (s : string) : jsstring :=
  List.map N_of_ascii (list_ascii_of_string s).

Module Js.

Local Open Scope N_scope.

(** The character class [[a-zA-Z0-9]]. *)
Definition isAlnum (c : N) : bool :=
  ((48 <=? c) && (c <=? 57)) || ((65 <=? c) && (c <=? 90))
  || ((97 <=? c) && (c <=? 122)).

(** The class [[A-Z0-9]]. *)
Definition isUpperAlnum (c : N) : bool :=
  ((48 <=? c) && (c <=? 57)) || ((65 <=? c) && (c <=? 90)).

(** [\s] of a regular expression, which is also what [trim] removes:
    the WhiteSpace and LineTerminator code points of ECMAScript. *)
Definition isSpace (c : N) : bool :=
  ((9 <=? c) && (c <=? 13)) || (c =? 32) || (c =? 160) || (c =? 5760)
  || ((8192 <=? c) && (c <=? 8202)) || (c =? 8232) || (c =? 8233)
  || (c =? 8239) || (c =? 8287) || (c =? 12288) || (c =? 65279).

(** [s.replace(/[^a-zA-Z0-9]/g, '')]. *)
Definition stripNonAlnum (s : jsstring) : jsstring := List.filter isAlnum s.

Definition upperChar (c : N) : N :=
  if (97 <=? c) && (c <=? 122) then c - 32 else c.

(** [s.toUpperCase()], on the ASCII letters.  Every call of the source
    applies it to text that [stripNonAlnum] has already reduced to
    [[a-zA-Z0-9]], where this is the whole of its effect. *)
Definition toUpperCase (s : jsstring) : jsstring := List.map upperChar s.

Fixpoint dropWhile (p : N -> bool) (s : jsstring) : jsstring :=
  match s with
  | [] => []
  | c :: s' => if p c then dropWhile p s' else s
  end.

(** [s.trim()]. *)
Definition trim (s : jsstring) : jsstring :=
  rev (dropWhile isSpace (rev (dropWhile isSpace s))).

(** [s.split(/\s+/)]: the pieces between maximal runs of white space,
    an empty piece in front when the string starts with white space
    and at the end when it ends with it; one empty piece for the empty
    string.
    [inSep] tells that the run of white space being read has already
    closed a piece. *)
Fixpoint split_go (inSep : bool) (cur s : jsstring) : list jsstring :=
  match s with
  | [] => [cur]
  | c :: s' =>
      if isSpace c
      then (if inSep then split_go true cur s' else cur :: split_go true [] s')
      else split_go false (cur ++ [c]) s'
  end.

Definition splitWs (s : jsstring) : list jsstring := split_go false [] s.

(** [a || b] on strings: the empty string is falsy. *)
Definition strOr (a b : jsstring) : jsstring :=
  match a with [] => b | _ => a end.

(** Truthiness of an optional string ([undefined] and [''] are falsy). *)
Definition truthy (o : option jsstring) : bool :=
  match o with Some (_ :: _) => true | _ => false end.

(** [xs.filter(c => c).join('')] on an array of characters, some of
    them [undefined]. *)
Definition joinDefined (xs : list (option N)) : jsstring :=
  flat_map (fun o => match o with Some c => [c] | None => [] end) xs.

(** The template literal [`${n}`] of an integer. *)
Definition numToString (n : Z) : jsstring :=
  lit (NilZero.string_of_int (Z.to_int n)).

End Js.

Definition INV : jsstring := Eval cbv in lit "INV".
Definition dash : jsstring := Eval cbv in lit "-".

(** ** Invoice prefix (generateInvoicePrefix) *)

Definition generateInvoicePrefix (firmName : option jsstring) : jsstring :=
  match firmName with
  | None => INV
  | Some [] => INV
  | Some firmName =>
      match Js.trim firmName with
      | [] => INV
      | trimmed =>
          let cleanName := Js.toUpperCase (Js.stripNonAlnum firmName) in
          let words := Js.splitWs trimmed in
          match words with
          | [_] =>
              Js.strOr (take (Nat.min 4 (length cleanName)) cleanName) INV
          | [w0; w1] =>
              let word1 := Js.toUpperCase (Js.stripNonAlnum w0) in
              let word2 := Js.toUpperCase (Js.stripNonAlnum w1) in
              Js.strOr (take 2 word1 ++ take 2 word2) INV
          | _ =>
              Js.strOr
                (Js.toUpperCase
                   (Js.joinDefined
                      (List.map (fun w => head (Js.stripNonAlnum w))
                         (take (Nat.min 5 (length words)) words))))
                INV
          end
      end
  end.

(** ** Data model (types.ts)

    Each interface is a record in a module of its name, so that the
    fields keep the names of the source. *)

Module Product.
Record t := mk {
  id : Z;                      (* numeric product code *)
  name : jsstring;
  price : Q;
  docId : option jsstring      (* Firestore document id *)
}.
End Product.

Module BillItem.
Record t := mk {
  product : Product.t;
  quantity : Q;
  lineId : option jsstring;
  gstRate : option Q           (* percentage, 0 to 100 *)
}.
End BillItem.

Module InvoiceData.
Record t := mk {
  id : option jsstring;        (* document id, assigned by the store *)
  invoiceNumber : jsstring;
  date : Z;                    (* a Date, as milliseconds *)
  customerName : jsstring;
  customerPhone : jsstring;
  items : list BillItem.t;
  subtotal : Q;
  gstAmount : Q;
  grandTotal : Q;
  userId : jsstring;
  createdAt : option Z
}.

Definition with_id (i : option jsstring) (d : t) : t :=
  mk i (invoiceNumber d) (date d) (customerName d) (customerPhone d)
     (items d) (subtotal d) (gstAmount d) (grandTotal d) (userId d)
     (createdAt d).
End InvoiceData.

(** The display preferences.  Of these the handlers modelled here read
    the custom prefix only; the boolean toggles and the two free texts
    are used by the views. *)
Module DisplaySettings.
Record t := mk {
  customInvoicePrefix : option jsstring;
  customHeaderText : option jsstring;
  customInvoiceText : option jsstring
}.
End DisplaySettings.

(** [invoiceFormat] of the firm document, as the handlers use it:
    [{ type, startNumber, currentNumber }].  A document of the store is
    untyped, so each property may be missing. *)
Module InvoiceFormat.
Record t := mk {
  type : option jsstring;
  startNumber : option Z;
  currentNumber : option Z
}.

Definition with_currentNumber (n : Z) (f : t) : t :=
  mk (type f) (startNumber f) (Some n).
End InvoiceFormat.

Module FirmDetails.
Record t := mk {
  id : option jsstring;
  userId : jsstring;
  firmName : jsstring;
  address : jsstring;
  displaySettings : option DisplaySettings.t;
  invoiceFormat : option InvoiceFormat.t
}.

Definition with_invoiceFormat (f : option InvoiceFormat.t) (d : t) : t :=
  mk (id d) (userId d) (firmName d) (address d) (displaySettings d) f.
End FirmDetails.

Module Customer.
Record t := mk {
  id : jsstring;
  name : jsstring;
  phone : option jsstring;
  address : option jsstring;
  gstNumber : option jsstring;
  userId : jsstring
}.

(** [Omit<Customer, 'id' | 'userId'>]. *)
Record input := mkInput {
  in_name : jsstring;
  in_phone : option jsstring;
  in_address : option jsstring;
  in_gstNumber : option jsstring
}.

(** [Partial<Omit<Customer, 'id' | 'userId'>>]: [None] is a property
    that the object does not have. *)
Record patch := mkPatch {
  p_name : option jsstring;
  p_phone : option jsstring;
  p_address : option jsstring;
  p_gstNumber : option jsstring
}.

(** [{ id, userId, ...customer }]. *)
Definition ofInput (i u : jsstring) (c : input) : t :=
  mk i (in_name c) (in_phone c) (in_address c) (in_gstNumber c) u.

(** [{ ...c, ...data }]. *)
Definition merge (c : t) (data : patch) : t :=
  mk (id c)
     (default (name c) (p_name data))
     (match p_phone data with Some x => Some x | None => phone c end)
     (match p_address data with Some x => Some x | None => address c end)
     (match p_gstNumber data with Some x => Some x | None => gstNumber c end)
     (userId c).
End Customer.

(** ** The document store

    The collections [invoices], [customers] and [firmDetails] of the
    remote store; the last one is keyed by the owner's account id. *)

Module InvoiceDoc.
Record t := mk {
  invoiceNumber : jsstring;
  date : Z;
  customerName : jsstring;
  customerPhone : jsstring;
  items : list BillItem.t;
  subtotal : Q;
  gstAmount : Q;
  grandTotal : Q;
  userId : jsstring;
  createdAt : option Z;
  updatedAt : option Z
}.
End InvoiceDoc.

Module Store.
Record t := mk {
  invoices : gmap jsstring InvoiceDoc.t;
  customers : gmap jsstring Customer.t;
  firmDetails : gmap jsstring FirmDetails.t;
  serverTime : Z               (* what serverTimestamp() resolves to *)
}.

Definition with_invoices (m : gmap jsstring InvoiceDoc.t) (s : t) : t :=
  mk m (customers s) (firmDetails s) (serverTime s).
Definition with_customers (m : gmap jsstring Customer.t) (s : t) : t :=
  mk (invoices s) m (firmDetails s) (serverTime s).
Definition with_firmDetails (m : gmap jsstring FirmDetails.t) (s : t) : t :=
  mk (invoices s) (customers s) m (serverTime s).
End Store.

(** ** The state of the App component

    The state variables that the handlers below read or write.  The
    product list and the two loading flags belong to other handlers and
    to the views. *)

Inductive View := ViewForm | ViewHistory | ViewManage | ViewSettings.

Inductive Alert :=
| AlertLoginToGenerate
| AlertLoginToSave
| AlertSaveFailed
| AlertAddCustomerFailed
| AlertUpdateCustomerFailed
| AlertDeleteCustomerFailed.

Module AppState.
Record t := mk {
  user : option jsstring;      (* the uid of the signed-in user *)
  view : View;
  currentInvoice : option InvoiceData.t;
  editingInvoice : option InvoiceData.t;
  customers : list Customer.t;
  firmDetails : option FirmDetails.t
}.

Definition setView (v : View) (s : t) : t :=
  mk (user s) v (currentInvoice s) (editingInvoice s) (customers s)
     (firmDetails s).
Definition setCurrentInvoice (i : option InvoiceData.t) (s : t) : t :=
  mk (user s) (view s) i (editingInvoice s) (customers s) (firmDetails s).
Definition setEditingInvoice (i : option InvoiceData.t) (s : t) : t :=
  mk (user s) (view s) (currentInvoice s) i (customers s) (firmDetails s).
Definition setCustomers (f : list Customer.t -> list Customer.t) (s : t) : t :=
  mk (user s) (view s) (currentInvoice s) (editingInvoice s)
     (f (customers s)) (firmDetails s).
Definition setFirmDetails
    (f : option FirmDetails.t -> option FirmDetails.t) (s : t) : t :=
  mk (user s) (view s) (currentInvoice s) (editingInvoice s) (customers s)
     (f (firmDetails s)).
End AppState.

(** ** Handlers as computations

    A handler reads and writes the component state and the store, may
    raise an alert, and a store call may throw. *)

Record World := mkWorld {
  app : AppState.t;
  db : Store.t;
  alerts : list Alert
}.

Inductive Res (A : Type) : Type :=
| Returned (a : A)
| Thrown.
Arguments Returned {A} a.
Arguments Thrown {A}.

Definition M (A : Type) : Type := World -> Res A * World.

#[global] Instance M_ret : MRet M := fun A a w => (Returned a, w).

#[global] Instance M_bind : MBind M := fun A B f m w =>
  match m w with
  | (Returned a, w') => f a w'
  | (Thrown, w') => (Thrown, w')
  end.

Definition throw {A} : M A := fun w => (Thrown, w).

(** [try { body } catch { handler }]. *)
Definition tryCatch {A} (body handler : M A) : M A := fun w =>
  match body w with
  | (Returned a, w') => (Returned a, w')
  | (Thrown, w') => handler w'
  end.

Definition getApp : M AppState.t := fun w => (Returned (app w), w).
Definition getDb : M Store.t := fun w => (Returned (db w), w).
Definition setState (f : AppState.t -> AppState.t) : M unit := fun w =>
  (Returned tt, mkWorld (f (app w)) (db w) (alerts w)).
Definition putDb (f : Store.t -> Store.t) : M unit := fun w =>
  (Returned tt, mkWorld (app w) (f (db w)) (alerts w)).
Definition alert (a : Alert) : M unit := fun w =>
  (Returned tt, mkWorld (app w) (db w) (alerts w ++ [a])).

(** *** Calls to the store

    The first argument of each call is what the environment makes of
    it: the call goes through, or it throws. *)

(** [addDoc(collection(db, 'invoices'), { ...data, createdAt:
    serverTimestamp() })]; [result] is the id the store assigns. *)
Definition addInvoiceDoc (result : option jsstring) (data : InvoiceDoc.t)
    : M jsstring :=
  match result with
  | None => throw
  | Some newId =>
      _ ← putDb (fun s =>
             Store.with_invoices (<[newId := data]> (Store.invoices s)) s);
      mret newId
  end.

(** The fields of an update replace those of the stored document;
    [createdAt] is among them only when the invoice carries one. *)
Definition mergeInvoiceDoc (old new : InvoiceDoc.t) : InvoiceDoc.t :=
  InvoiceDoc.mk
    (InvoiceDoc.invoiceNumber new) (InvoiceDoc.date new)
    (InvoiceDoc.customerName new) (InvoiceDoc.customerPhone new)
    (InvoiceDoc.items new) (InvoiceDoc.subtotal new)
    (InvoiceDoc.gstAmount new) (InvoiceDoc.grandTotal new)
    (InvoiceDoc.userId new)
    (match InvoiceDoc.createdAt new with
     | Some c => Some c
     | None => InvoiceDoc.createdAt old
     end)
    (InvoiceDoc.updatedAt new).

(** [updateDoc(doc(db, 'invoices', id), data)]; the store refuses the
    update of a document that does not exist. *)
Definition updateInvoiceDoc (ok : bool) (id : jsstring) (data : InvoiceDoc.t)
    : M unit :=
  s ← getDb;
  match ok, Store.invoices s !! id with
  | true, Some old =>
      putDb (Store.with_invoices
               (<[id := mergeInvoiceDoc old data]> (Store.invoices s)))
  | _, _ => throw
  end.

(** The effect of [{ 'invoiceFormat.currentNumber': n }] on a firm
    document: the nested field is set, the rest of the map is kept. *)
Definition setCurrentNumber (n : Z) (d : FirmDetails.t) : FirmDetails.t :=
  FirmDetails.with_invoiceFormat
    (Some (match FirmDetails.invoiceFormat d with
           | Some f => InvoiceFormat.with_currentNumber n f
           | None => InvoiceFormat.mk None None (Some n)
           end)) d.

(** [updateDoc(doc(db, 'firmDetails', uid),
    { 'invoiceFormat.currentNumber': n })]. *)
Definition updateFirmCounter (ok : bool) (uid : jsstring) (n : Z) : M unit :=
  s ← getDb;
  match ok, Store.firmDetails s !! uid with
  | true, Some old =>
      putDb (Store.with_firmDetails
               (<[uid := setCurrentNumber n old]> (Store.firmDetails s)))
  | _, _ => throw
  end.

(** [addDoc(collection(db, 'customers'), ...)]. *)
Definition addCustomerDoc (result : option jsstring) (c : jsstring -> Customer.t)
    : M jsstring :=
  match result with
  | None => throw
  | Some newId =>
      _ ← putDb (fun s =>
             Store.with_customers (<[newId := c newId]> (Store.customers s)) s);
      mret newId
  end.

Definition updateCustomerDoc (ok : bool) (id : jsstring) (data : Customer.patch)
    : M unit :=
  s ← getDb;
  match ok, Store.customers s !! id with
  | true, Some old =>
      putDb (Store.with_customers
               (<[id := Customer.merge old data]> (Store.customers s)))
  | _, _ => throw
  end.

(** [deleteDoc]; deleting a document that does not exist is no error. *)
Definition deleteCustomerDoc (ok : bool) (id : jsstring) : M unit :=
  if ok
  then putDb (fun s => Store.with_customers (delete id (Store.customers s)) s)
  else throw.

(** *** Array.prototype.sort

    The sort of the language is stable; with the elements taken from
    left to right, each goes before the first element that the
    comparator puts strictly after it. *)
Fixpoint insertSorted {A} (cmp : A -> A -> Z) (x : A) (l : list A) : list A :=
  match l with
  | [] => [x]
  | y :: l' => if cmp x y <? 0 then x :: y :: l' else y :: insertSorted cmp x l'
  end.

Definition jsSort {A} (cmp : A -> A -> Z) (l : list A) : list A :=
  fold_left (fun acc x => insertSorted cmp x acc) l [].

(** *** Invoice numbering *)

Definition sequential : jsstring := Eval cbv in lit "sequential".

(** [firmDetails?.invoiceFormat?.type === 'sequential']. *)
Definition sequentialFormat (firm : option FirmDetails.t) : option InvoiceFormat.t :=
  match firm with
  | Some d =>
      match FirmDetails.invoiceFormat d with
      | Some f =>
          match InvoiceFormat.type f with
          | Some ty => if decide (ty = sequential) then Some f else None
          | None => None
          end
      | None => None
      end
  | None => None
  end.

(** [startNumber || 1]: a missing start and the start 0 are falsy. *)
Definition startOrOne (startNumber : option Z) : Z :=
  match startNumber with
  | Some 0 | None => 1
  | Some n => n
  end.

(** [(currentNumber ?? (startNumber || 1) - 1) + 1]. *)
Definition nextNumber (f : InvoiceFormat.t) : Z :=
  match InvoiceFormat.currentNumber f with
  | Some c => c
  | None => startOrOne (InvoiceFormat.startNumber f) - 1
  end + 1.

(** [firmDetails?.displaySettings?.customInvoicePrefix]. *)
Definition customPrefix (firm : option FirmDetails.t) : option jsstring :=
  match firm with
  | Some d =>
      match FirmDetails.displaySettings d with
      | Some ds => DisplaySettings.customInvoicePrefix ds
      | None => None
      end
  | None => None
  end.

(** [prefix ? `${prefix}-${nextNum}` : `${nextNum}`]. *)
Definition sequentialNumber (prefix : option jsstring) (nextNum : Z) : jsstring :=
  match prefix with
  | Some (c :: p) => (c :: p) ++ dash ++ Js.numToString nextNum
  | _ => Js.numToString nextNum
  end.

(** [customInvoicePrefix || generateInvoicePrefix(firmDetails?.firmName)]. *)
Definition freeformPrefix (firm : option FirmDetails.t) : jsstring :=
  match customPrefix firm with
  | Some (c :: p) => c :: p
  | _ => generateInvoicePrefix (FirmDetails.firmName <$> firm)
  end.

(** ** The handlers of the App component *)

(** What the environment decides in one call of [handleSaveInvoice]:
    the outcome of the write of the invoice (the id assigned on a
    create, or a failure), and of the update of the firm's counter. *)
Record SaveEnv := mkSaveEnv {
  invoiceCreate : option jsstring;
  invoiceUpdate : bool;
  counterUpdate : bool
}.

Section App.

(** [GST_RATE] of the constants module: the global default rate, as a
    fraction. *)
Variable GST_RATE : Q.

(** [String.prototype.localeCompare] of the host. *)
Variable localeCompare : jsstring -> jsstring -> Z.

Local Open Scope Q_scope.

(** The two [reduce] calls of [handleGenerateBill]. *)
Definition billSubtotal (billItems : list BillItem.t) : Q :=
  fold_left
    (fun acc item =>
       acc + Product.price (BillItem.product item) * BillItem.quantity item)
    billItems 0.

Definition billGstAmount (billItems : list BillItem.t) : Q :=
  fold_left
    (fun acc item =>
       let itemTotal :=
         Product.price (BillItem.product item) * BillItem.quantity item in
       let itemGstRate :=
         match BillItem.gstRate item with
         | Some r => r
         | None => GST_RATE * 100
         end / 100 in
       acc + itemTotal * itemGstRate)
    billItems 0.

Local Close Scope Q_scope.

(** The invoice number of a preview; [now] is [Date.now()]. *)
Definition previewNumber (s : AppState.t) (now : Z) : jsstring :=
  match AppState.editingInvoice s with
  | Some editing => InvoiceData.invoiceNumber editing
  | None =>
      match sequentialFormat (AppState.firmDetails s) with
      | Some f =>
          let nextNum := nextNumber f in
          let prefix := customPrefix (AppState.firmDetails s) in
          sequentialNumber prefix nextNum
      | None =>
          let invoicePrefix := freeformPrefix (AppState.firmDetails s) in
          invoicePrefix ++ dash ++ Js.numToString now
      end
  end.

(** Generate the preview of an invoice, without saving it. *)
Definition handleGenerateBill (now : Z)
    (customerName customerPhone : jsstring) (billItems : list BillItem.t)
    (billDate : Z) : M unit :=
  s ← getApp;
  match AppState.user s with
  | None => alert AlertLoginToGenerate
  | Some uid =>
      let subtotal := billSubtotal billItems in
      let gstAmount := billGstAmount billItems in
      let grandTotal := (subtotal + gstAmount)%Q in
      let invoiceNumber := previewNumber s now in
      let invoiceBaseData :=
        InvoiceData.mk
          (match AppState.editingInvoice s with
           | Some editing =>
               if Js.truthy (InvoiceData.id editing)
               then InvoiceData.id editing else None
           | None => None
           end)
          invoiceNumber billDate customerName customerPhone billItems
          subtotal gstAmount grandTotal uid None in
      setState (AppState.setCurrentInvoice (Some invoiceBaseData))
  end.

(** The items as they are written: [docId] and [lineId] are kept when
    truthy, [gstRate] when it is not [undefined]. *)
Definition sanitizeItem (item : BillItem.t) : BillItem.t :=
  let product := BillItem.product item in
  let cleanProduct :=
    Product.mk (Product.id product) (Product.name product)
      (Product.price product)
      (if Js.truthy (Product.docId product) then Product.docId product
       else None) in
  BillItem.mk cleanProduct (BillItem.quantity item)
    (if Js.truthy (BillItem.lineId item) then BillItem.lineId item else None)
    (BillItem.gstRate item).

(** [finalDataToSave]: the invoice without its [id], the items
    sanitized, the date kept. *)
Definition finalDataToSave (invoiceData : InvoiceData.t) : InvoiceDoc.t :=
  InvoiceDoc.mk
    (InvoiceData.invoiceNumber invoiceData) (InvoiceData.date invoiceData)
    (InvoiceData.customerName invoiceData)
    (InvoiceData.customerPhone invoiceData)
    (List.map sanitizeItem (InvoiceData.items invoiceData))
    (InvoiceData.subtotal invoiceData) (InvoiceData.gstAmount invoiceData)
    (InvoiceData.grandTotal invoiceData) (InvoiceData.userId invoiceData)
    (InvoiceData.createdAt invoiceData) None.

Definition withCreatedAt (ts : Z) (d : InvoiceDoc.t) : InvoiceDoc.t :=
  InvoiceDoc.mk
    (InvoiceDoc.invoiceNumber d) (InvoiceDoc.date d)
    (InvoiceDoc.customerName d) (InvoiceDoc.customerPhone d)
    (InvoiceDoc.items d) (InvoiceDoc.subtotal d) (InvoiceDoc.gstAmount d)
    (InvoiceDoc.grandTotal d) (InvoiceDoc.userId d) (Some ts)
    (InvoiceDoc.updatedAt d).

Definition withUpdatedAt (ts : Z) (d : InvoiceDoc.t) : InvoiceDoc.t :=
  InvoiceDoc.mk
    (InvoiceDoc.invoiceNumber d) (InvoiceDoc.date d)
    (InvoiceDoc.customerName d) (InvoiceDoc.customerPhone d)
    (InvoiceDoc.items d) (InvoiceDoc.subtotal d) (InvoiceDoc.gstAmount d)
    (InvoiceDoc.grandTotal d) (InvoiceDoc.userId d) (InvoiceDoc.createdAt d)
    (Some ts).

(** [setFirmDetails(prev => prev ? { ...prev, invoiceFormat:
    { ...prev.invoiceFormat!, currentNumber } } : null)]. *)
Definition advanceLocalCounter (newCurrentNumber : Z)
    (prev : option FirmDetails.t) : option FirmDetails.t :=
  setCurrentNumber newCurrentNumber <$> prev.

(** Save the invoice when the user prints it.  The result is [true],
    [false], or nothing when no user is signed in. *)
Definition handleSaveInvoice (env : SaveEnv) (invoiceData : InvoiceData.t)
    : M (option bool) :=
  s ← getApp;
  match AppState.user s with
  | None => _ ← alert AlertLoginToSave; mret None
  | Some uid =>
      tryCatch
        (let id := InvoiceData.id invoiceData in
         let final := finalDataToSave invoiceData in
         store ← getDb;
         savedId ←
           (if Js.truthy id
            then
              (* update of the existing invoice *)
              _ ← updateInvoiceDoc (invoiceUpdate env) (default [] id)
                    (withUpdatedAt (Store.serverTime store) final);
              mret id
            else
              (* a new invoice *)
              docRef ← addInvoiceDoc (invoiceCreate env)
                         (withCreatedAt (Store.serverTime store) final);
              _ ← match sequentialFormat (AppState.firmDetails s) with
                  | Some f =>
                      let newCurrentNumber := nextNumber f in
                      _ ← setState (AppState.setFirmDetails
                                      (advanceLocalCounter newCurrentNumber));
                      updateFirmCounter (counterUpdate env) uid newCurrentNumber
                  | None => mret tt
                  end;
              mret (Some docRef));
         _ ← setState (AppState.setCurrentInvoice
                         (Some (InvoiceData.with_id savedId invoiceData)));
         _ ← setState (AppState.setEditingInvoice None);
         _ ← setState (AppState.setView ViewHistory);
         mret (Some true))
        (_ ← alert AlertSaveFailed; mret (Some false))
  end.

Definition handleEditInvoice (invoice : InvoiceData.t) : M unit :=
  _ ← setState (AppState.setEditingInvoice (Some invoice));
  _ ← setState (AppState.setView ViewForm);
  setState (AppState.setCurrentInvoice None).

Definition switchView (newView : View) : M unit :=
  _ ← setState (AppState.setView newView);
  _ ← setState (AppState.setCurrentInvoice None);
  setState (AppState.setEditingInvoice None).

(** *** Customers *)

(** [(a, b) => a.name.localeCompare(b.name)]. *)
Definition byName (a b : Customer.t) : Z :=
  localeCompare (Customer.name a) (Customer.name b).

Definition handleAddCustomer (result : option jsstring)
    (customer : Customer.input) : M unit :=
  s ← getApp;
  match AppState.user s with
  | None => mret tt
  | Some uid =>
      tryCatch
        (docRef ← addCustomerDoc result
                    (fun i => Customer.ofInput i uid customer);
         let newCustomer := Customer.ofInput docRef uid customer in
         setState (AppState.setCustomers
                     (fun prev => jsSort byName (prev ++ [newCustomer]))))
        (alert AlertAddCustomerFailed)
  end.

Definition handleUpdateCustomer (ok : bool) (id : jsstring)
    (data : Customer.patch) : M unit :=
  tryCatch
    (_ ← updateCustomerDoc ok id data;
     setState (AppState.setCustomers
                 (fun prev =>
                    jsSort byName
                      (List.map
                         (fun c =>
                            if decide (Customer.id c = id)
                            then Customer.merge c data else c)
                         prev))))
    (alert AlertUpdateCustomerFailed).

(** [confirmed] is the answer to the confirmation dialog. *)
Definition handleDeleteCustomer (confirmed ok : bool) (id : jsstring)
    : M unit :=
  if negb confirmed then mret tt
  else
    tryCatch
      (_ ← deleteCustomerDoc ok id;
       setState (AppState.setCustomers
                   (List.filter
                      (fun c => negb (bool_decide (Customer.id c = id))))))
      (alert AlertDeleteCustomerFailed).

End App.

(** ** The firm setup form (components/FirmSetup.tsx)

    The two state objects of the form are JavaScript objects updated
    under a computed property name ([{ ...prev, [name]: value }]); they
    are maps from property names to values. *)

Module FirmSetup.

Local Open Scope string_scope.

Inductive JsVal :=
| VBool (b : bool)
| VStr (s : jsstring).

(** The firm document as the form reads and writes it. *)
Record FirmDoc := mkFirmDoc {
  userId : jsstring;
  fields : gmap string jsstring;     (* firmName, address, city, ... *)
  logoUrl : option jsstring;
  displaySettings : gmap string JsVal;
  createdAt : Z;
  updatedAt : Z
}.

Record State := mkState {
  formData : gmap string jsstring;
  displaySettingsState : gmap string JsVal
}.

(** The inputs of the form, by the handler they are bound to. *)
Inductive TextInput :=
| firmName | firmNameLocal | address | city | state | pincode | phone
| email | gstNumber | tagline | taglineLocal.

Inductive Checkbox :=
| showLogoOnHeader | showFirmNameOnHeader | showFirmNameLocalOnHeader
| showTaglineOnHeader | showTaglineLocalOnHeader | showLogoOnInvoice
| showFirmNameOnInvoice | showFirmNameLocalOnInvoice | showTaglineOnInvoice
| showTaglineLocalOnInvoice | showAddressOnInvoice | showPhoneOnInvoice
| showEmailOnInvoice | showGstOnInvoice.

Inductive DisplayText :=
| customInvoicePrefix | customHeaderText | customInvoiceText.

Definition textInputName (i : TextInput) : string :=
  match i with
  | firmName => "firmName" | firmNameLocal => "firmNameLocal"
  | address => "address" | city => "city" | state => "state"
  | pincode => "pincode" | phone => "phone" | email => "email"
  | gstNumber => "gstNumber" | tagline => "tagline"
  | taglineLocal => "taglineLocal"
  end.

Definition checkboxName (c : Checkbox) : string :=
  match c with
  | showLogoOnHeader => "showLogoOnHeader"
  | showFirmNameOnHeader => "showFirmNameOnHeader"
  | showFirmNameLocalOnHeader => "showFirmNameLocalOnHeader"
  | showTaglineOnHeader => "showTaglineOnHeader"
  | showTaglineLocalOnHeader => "showTaglineLocalOnHeader"
  | showLogoOnInvoice => "showLogoOnInvoice"
  | showFirmNameOnInvoice => "showFirmNameOnInvoice"
  | showFirmNameLocalOnInvoice => "showFirmNameLocalOnInvoice"
  | showTaglineOnInvoice => "showTaglineOnInvoice"
  | showTaglineLocalOnInvoice => "showTaglineLocalOnInvoice"
  | showAddressOnInvoice => "showAddressOnInvoice"
  | showPhoneOnInvoice => "showPhoneOnInvoice"
  | showEmailOnInvoice => "showEmailOnInvoice"
  | showGstOnInvoice => "showGstOnInvoice"
  end.

Definition displayTextName (t : DisplayText) : string :=
  match t with
  | customInvoicePrefix => "customInvoicePrefix"
  | customHeaderText => "customHeaderText"
  | customInvoiceText => "customInvoiceText"
  end.

Definition allTextInputs : list TextInput :=
  [firmName; firmNameLocal; address; city; state; pincode; phone; email;
   gstNumber; tagline; taglineLocal].

Definition allCheckboxes : list Checkbox :=
  [showLogoOnHeader; showLogoOnInvoice; showFirmNameOnHeader;
   showFirmNameLocalOnHeader; showFirmNameOnInvoice;
   showFirmNameLocalOnInvoice; showTaglineOnHeader; showTaglineLocalOnHeader;
   showTaglineOnInvoice; showTaglineLocalOnInvoice; showPhoneOnInvoice;
   showEmailOnInvoice; showGstOnInvoice; showAddressOnInvoice].

Definition allDisplayTexts : list DisplayText :=
  [customInvoicePrefix; customHeaderText; customInvoiceText].

(** [existing ?? true]. *)
Definition orTrue (v : option JsVal) : JsVal :=
  match v with Some x => x | None => VBool true end.

(** [existing || '']. *)
Definition orEmpty (v : option JsVal) : JsVal :=
  match v with
  | Some (VStr (c :: s)) => VStr (c :: s)
  | Some (VBool true) => VBool true
  | _ => VStr []
  end.

(** The initial state of the form, from the details that exist. *)
Definition initialState (existingDetails : option FirmDoc) : State :=
  let field (n : string) : jsstring :=
    default [] (existingDetails ≫= fun d => fields d !! n) in
  let setting (n : string) : option JsVal :=
    existingDetails ≫= fun d => displaySettings d !! n in
  mkState
    (fold_right
       (fun i m => <[textInputName i := field (textInputName i)]> m)
       ∅ allTextInputs)
    (fold_right
       (fun t m =>
          <[displayTextName t := orEmpty (setting (displayTextName t))]> m)
       (fold_right
          (fun c m => <[checkboxName c := orTrue (setting (checkboxName c))]> m)
          ∅ allCheckboxes)
       allDisplayTexts).

Definition handleInputChange (name : string) (value : jsstring)
    (s : State) : State :=
  mkState (<[name := value]> (formData s)) (displaySettingsState s).

Definition handleCheckboxChange (name : string) (checked : bool)
    (s : State) : State :=
  mkState (formData s) (<[name := VBool checked]> (displaySettingsState s)).

(** Only alphanumeric characters are let into the invoice prefix. *)
Definition handleDisplaySettingTextChange (name : string) (value : jsstring)
    (s : State) : State :=
  if decide (name = "customInvoicePrefix")
  then
    let sanitized :=
      take 10 (Js.toUpperCase (Js.stripNonAlnum value)) in
    mkState (formData s) (<[name := VStr sanitized]> (displaySettingsState s))
  else
    mkState (formData s) (<[name := VStr value]> (displaySettingsState s)).

(** The object that [handleSubmit] hands to [setDoc]: the required
    fields, the optional ones that have a value, and the display
    settings as they stand.  [logoBase64] is the encoded logo, or the
    empty string. *)
Definition firmDetailsToSave (uid : jsstring) (logoBase64 : jsstring)
    (serverTime : Z) (s : State) : FirmDoc :=
  let get (n : string) : jsstring := default [] (formData s !! n) in
  let optional (n : string) (m : gmap string jsstring) :=
    match get n with [] => m | v => <[n := v]> m end in
  mkFirmDoc uid
    (optional "taglineLocal" (optional "tagline" (optional "gstNumber"
      (optional "email" (optional "phone" (optional "pincode"
        (optional "state" (optional "city" (optional "firmNameLocal"
          (<["address" := get "address"]>
             (<["firmName" := get "firmName"]> ∅)))))))))))
    (match logoBase64 with [] => None | l => Some l end)
    (displaySettingsState s)
    serverTime serverTime.

(** What the user does with the form. *)
Inductive Event :=
| InputChange (i : TextInput) (value : jsstring)
| CheckboxChange (c : Checkbox) (checked : bool)
| DisplayTextChange (t : DisplayText) (value : jsstring).

Definition step (s : State) (e : Event) : State :=
  match e with
  | InputChange i v => handleInputChange (textInputName i) v s
  | CheckboxChange c b => handleCheckboxChange (checkboxName c) b s
  | DisplayTextChange t v =>
      handleDisplaySettingTextChange (displayTextName t) v s
  end.

(** One visit of the form: the events, then the submission, with the
    logo chosen, the server's clock and the outcome of [setDoc]. *)
Record Session := mkSession {
  events : list Event;
  logo : jsstring;
  clock : Z;
  setDocOk : bool
}.

(** The firm document after a visit.  The form starts from the
    details that exist; a [setDoc] that fails leaves them as they are;
    the logo of the existing details is kept when none is chosen. *)
Definition session (uid : jsstring) (existing : option FirmDoc)
    (v : Session) : option FirmDoc :=
  let s := fold_left step (events v) (initialState existing) in
  let logoBase64 :=
    match logo v with
    | [] => default [] (existing ≫= logoUrl)
    | l => l
    end in
  if setDocOk v
  then Some (firmDetailsToSave uid logoBase64 (clock v) s)
  else existing.

(** The firm document after a series of visits, none existing before. *)
Definition sessions (uid : jsstring) (vs : list Session) : option FirmDoc :=
  fold_left (session uid) vs None.

(** A stored prefix is well formed: characters of [[A-Z0-9]] only, at
    most ten of them. *)
Definition validPrefix (s : jsstring) : Prop :=
  forallb Js.isUpperAlnum s = true /\ (length s <= 10)%nat.

Definition storedPrefix (d : FirmDoc) : option JsVal :=
  displaySettings d !! "customInvoicePrefix".

(** The state of the form holds a well-formed prefix. *)
Definition prefixOk (m : gmap string JsVal) : Prop :=
  exists p, m !! "customInvoicePrefix" = Some (VStr p) /\ validPrefix p.

(** The firm document, when there is one, holds a well-formed prefix. *)
Definition docOk (o : option FirmDoc) : Prop :=
  match o with
  | Some d => prefixOk (displaySettings d)
  | None => True
  end.

End FirmSetup.

(** ** The specification's formulas

    These definitions follow the words of the specification and are
    compared with the handlers above. *)

Module Spec.

Section Calculator.
Variable defaultRatePercent : Q.
Local Open Scope Q_scope.

(** [lineAmount = product.price * quantity]. *)
Definition lineAmount (item : BillItem.t) : Q :=
  Product.price (BillItem.product item) * BillItem.quantity item.

(** The item's rate if present, else the global default percentage. *)
Definition effectiveTaxRate (item : BillItem.t) : Q :=
  match BillItem.gstRate item with
  | Some r => r
  | None => defaultRatePercent
  end.

(** [lineTax = lineAmount * (effectiveTaxRate / 100)]. *)
Definition lineTax (item : BillItem.t) : Q :=
  lineAmount item * (effectiveTaxRate item / 100).

Fixpoint sum (l : list Q) : Q :=
  match l with
  | [] => 0
  | x :: l' => x + sum l'
  end.
End Calculator.

(** [next = (currentNumber ?? (startNumber - 1)) + 1], for a start
    number that is there. *)
Definition nextNumber (currentNumber : option Z) (startNumber : Z) : Z :=
  match currentNumber with
  | Some c => c
  | None => startNumber - 1
  end + 1.

(** [{prefix}-{next}] with a custom prefix, else the bare number. *)
Definition formatNumber (prefix : option jsstring) (next : Z) : jsstring :=
  match prefix with
  | Some (c :: p) => (c :: p) ++ dash ++ Js.numToString next
  | _ => Js.numToString next
  end.

(** The custom prefix that the firm has configured in its display
    settings, when it has configured one. *)
Definition configuredPrefix (firm : option FirmDetails.t)
    : option jsstring :=
  d ← firm; ds ← FirmDetails.displaySettings d;
  DisplaySettings.customInvoicePrefix ds.

(** The words of a name: its maximal runs of characters that are not
    white space. *)
Fixpoint words_go (cur s : jsstring) : list jsstring :=
  match s with
  | [] => match cur with [] => [] | _ => [cur] end
  | c :: s' =>
      if Js.isSpace c
      then match cur with
           | [] => words_go [] s'
           | _ => cur :: words_go [] s'
           end
      else words_go (cur ++ [c]) s'
  end.

Definition words (name : jsstring) : list jsstring := words_go [] name.

(** A word with its non-alphanumeric characters stripped, uppercased. *)
Definition cleanWord (w : jsstring) : jsstring :=
  Js.toUpperCase (Js.stripNonAlnum w).

(** The prefix derived from the firm name: first 4 characters of one
    word, first 2 of each of two words, first letters of up to the
    first 5 of three words or more; [INV] when that is empty. *)
Definition derivedPrefix (name : jsstring) : jsstring :=
  let ws := List.map cleanWord (words name) in
  let p :=
    match ws with
    | [] => []
    | [w] => take 4 w
    | [w1; w2] => take 2 w1 ++ take 2 w2
    | _ => concat (List.map (take 1) (take 5 ws))
    end in
  match p with [] => INV | _ => p end.

(** The prefix in freeform mode: the configured custom prefix if one
    is set (the empty string is none), else the prefix derived from
    the firm name. *)
Definition invoicePrefix (firm : option FirmDetails.t) : jsstring :=
  match configuredPrefix firm with
  | Some (c :: p) => c :: p
  | _ =>
      match firm with
      | Some d => derivedPrefix (FirmDetails.firmName d)
      | None => INV
      end
  end.

End Spec.

(** The last character of a string is not white space; [b] answers for
    the empty string. *)
Fixpoint endsOk (b : bool) (s : jsstring) : bool :=
  match s with
  | [] => b
  | c :: s' => endsOk (negb (Js.isSpace c)) s'
  end.

(** ** Sessions of the user *)

Section Scenarios.

Variable GST_RATE : Q.

(** What the user enters for one bill, the clock at that moment, and
    what the store makes of the save. *)
Record Bill := mkBill {
  billCustomerName : jsstring;
  billCustomerPhone : jsstring;
  billItems : list BillItem.t;
  billDate : Z;
  billNow : Z;
  billEnv : SaveEnv
}.

(** Generate the preview of a bill and print it from the preview,
    which saves it; the result of the save and the number on the
    preview are returned. *)
Definition generateAndSave (b : Bill) : M (option bool * jsstring) :=
  _ ← handleGenerateBill GST_RATE (billNow b) (billCustomerName b)
        (billCustomerPhone b) (billItems b) (billDate b);
  s ← getApp;
  match AppState.currentInvoice s with
  | Some preview =>
      r ← handleSaveInvoice (billEnv b) preview;
      mret (r, InvoiceData.invoiceNumber preview)
  | None => mret (None, [])
  end.

(** A new bill: the user opens the form, which clears the invoice on
    display and the invoice being edited. *)
Definition newBill (b : Bill) : M (option bool * jsstring) :=
  _ ← switchView ViewForm;
  generateAndSave b.

(** An existing invoice is opened for editing, changed and resaved. *)
Definition editAndResave (invoice : InvoiceData.t) (b : Bill)
    : M (option bool * jsstring) :=
  _ ← handleEditInvoice invoice;
  generateAndSave b.

(** New bills one after the other. *)
Fixpoint newBills (bs : list Bill) : M (list (option bool * jsstring)) :=
  match bs with
  | [] => mret []
  | b :: bs' =>
      r ← newBill b;
      rs ← newBills bs';
      mret (r :: rs)
  end.

End Scenarios.

(** The firm's counter, in the component state and in the store. *)
Definition counterOf (firm : option FirmDetails.t) : option Z :=
  match firm with
  | Some d =>
      match FirmDetails.invoiceFormat d with
      | Some f => InvoiceFormat.currentNumber f
      | None => None
      end
  | None => None
  end.

Definition localCounter (w : World) : option Z :=
  counterOf (AppState.firmDetails (app w)).

Definition storedCounter (uid : jsstring) (w : World) : option Z :=
  counterOf (Store.firmDetails (db w) !! uid).

(** What the sort asks of its comparator: when [a] does not go before
    [b] then [b] goes before or with [a], and going before or with is
    transitive. *)
Record ConsistentComparator {A} (cmp : A -> A -> Z) : Prop := {
  cmp_flip : forall a b, 0 <= cmp a b -> cmp b a <= 0;
  cmp_trans : forall a b c, cmp a b <= 0 -> cmp b c <= 0 -> cmp a c <= 0
}.

(** Sortedness of the customer list by name: for the collation
    [localeCompare], the name of a customer does not come after the
    name of any customer further down the list. *)
Definition sortedByName (localeCompare : jsstring -> jsstring -> Z)
    (l : list Customer.t) : Prop :=
  StronglySorted
    (fun a b => localeCompare (Customer.name a) (Customer.name b) <= 0) l.

(** ** Running a handler *)

Definition result {A} (m : M A) (w : World) : Res A := fst (m w).
Definition after {A} (m : M A) (w : World) : World := snd (m w).

(** The component state after a save that went through. *)
Definition savedState (savedId : option jsstring) (invoiceData : InvoiceData.t)
    (a : AppState.t) : AppState.t :=
  AppState.setView ViewHistory
    (AppState.setEditingInvoice None
       (AppState.setCurrentInvoice
          (Some (InvoiceData.with_id savedId invoiceData)) a)).

(** The store with a new invoice in it. *)
Definition withNewInvoice (invoiceData : InvoiceData.t) (w : World)
    (newId : jsstring) : Store.t :=
  Store.with_invoices
    (<[newId := withCreatedAt (Store.serverTime (db w))
                  (finalDataToSave invoiceData)]>
       (Store.invoices (db w)))
    (db w).

(** The preview that [handleGenerateBill] builds for the user [uid]. *)
Definition previewOf (GST_RATE : Q) (s : AppState.t) (uid : jsstring)
    (b : Bill) : InvoiceData.t :=
  InvoiceData.mk
    (match AppState.editingInvoice s with
     | Some editing =>
         if Js.truthy (InvoiceData.id editing)
         then InvoiceData.id editing else None
     | None => None
     end)
    (previewNumber s (billNow b)) (billDate b) (billCustomerName b)
    (billCustomerPhone b) (billItems b) (billSubtotal (billItems b))
    (billGstAmount GST_RATE (billItems b))
    (billSubtotal (billItems b) + billGstAmount GST_RATE (billItems b))%Q
    uid None.

(** The world with a preview on display. *)
Definition displaying (p : InvoiceData.t) (w : World) : World :=
  mkWorld (AppState.setCurrentInvoice (Some p) (app w)) (db w) (alerts w).

(** The world once the user has opened the form for a new bill. *)
Definition onForm (w : World) : World :=
  mkWorld
    (AppState.setEditingInvoice None
       (AppState.setCurrentInvoice None (AppState.setView ViewForm (app w))))
    (db w) (alerts w).

(** The ids that the store assigns to a series of new bills. *)
Definition assignedIds (bs : list Bill) : list jsstring :=
  omap (fun b => invoiceCreate (billEnv b)) bs.

(** Every store call of a series of bills goes through. *)
Definition allSucceed (bs : list Bill) : Prop :=
  Forall (fun b => is_Some (invoiceCreate (billEnv b))
                   /\ counterUpdate (billEnv b) = true) bs.

(** A line item and its stored copy: product code, name, price,
    quantity and rate are the same; the line id and the document id are
    the same when they are present and not empty, and are not stored
    when they are absent or empty. *)
Definition sameOrDropped (o stored : option jsstring) : Prop :=
  match o with
  | Some (c :: s) => stored = Some (c :: s)
  | Some [] | None => stored = None
  end.

Definition storedAs (item stored : BillItem.t) : Prop :=
  Product.id (BillItem.product stored) = Product.id (BillItem.product item)
  /\ Product.name (BillItem.product stored)
     = Product.name (BillItem.product item)
  /\ Product.price (BillItem.product stored)
     = Product.price (BillItem.product item)
  /\ BillItem.quantity stored = BillItem.quantity item
  /\ BillItem.gstRate stored = BillItem.gstRate item
  /\ sameOrDropped (BillItem.lineId item) (BillItem.lineId stored)
  /\ sameOrDropped (Product.docId (BillItem.product item))
       (Product.docId (BillItem.product stored)).

(** No line id and no document id of the items is the empty string. *)
Definition noEmptyIds (items : list BillItem.t) : Prop :=
  Forall (fun item => BillItem.lineId item <> Some []
                      /\ Product.docId (BillItem.product item) <> Some [])
    items.

(** ** Sample data *)

Definition exampleItems : list BillItem.t :=
  [ BillItem.mk (Product.mk 1 (lit "Oil") 100%Q None) 2%Q None (Some 5%Q);
    BillItem.mk (Product.mk 2 (lit "Cake") 50%Q None) 1%Q None (Some 18%Q) ].

(** A line whose line id is the empty string. *)
Definition emptyLineIdItem : BillItem.t :=
  BillItem.mk (Product.mk 1 (lit "Oil") 100%Q None) 2%Q (Some []) (Some 5%Q).

(** A comparison of strings by code units, as a sample collation. *)
Fixpoint codeUnitCompare (a b : jsstring) : Z :=
  match a, b with
  | [], [] => 0
  | [], _ :: _ => -1
  | _ :: _, [] => 1
  | x :: a', y :: b' =>
      if (x <? y)%N then -1
      else if (y <? x)%N then 1
      else codeUnitCompare a' b'
  end.

Definition sampleUid : jsstring := Eval cbv in lit "owner-1".

Definition sampleCustomer (i n : string) : Customer.t :=
  Customer.mk (lit i) (lit n) None None None sampleUid.

Definition sampleFirm (prefix : option jsstring) (fmt : option InvoiceFormat.t)
    : FirmDetails.t :=
  FirmDetails.mk (Some sampleUid) sampleUid (lit "Shree Oil Mill")
    (lit "Main Road")
    (Some (DisplaySettings.mk prefix None None)) fmt.

(** A signed-in owner on the form, the firm document in the store. *)
Definition sampleWorld (firm : FirmDetails.t) : World :=
  mkWorld
    (AppState.mk (Some sampleUid) ViewForm None None [] (Some firm))
    (Store.mk ∅ ∅ {[ sampleUid := firm ]} 1700000000000)
    [].

Definition sequentialFrom (start current : option Z) : InvoiceFormat.t :=
  InvoiceFormat.mk (Some sequential) start current.

(** The sample firm without a custom prefix, on freeform numbering. *)
Definition freeformWorld : World := sampleWorld (sampleFirm None None).

(** On sequential numbering from 5, with the custom prefix SOM. *)
Definition sequentialWorld : World :=
  sampleWorld
    (sampleFirm (Some (lit "SOM")) (Some (sequentialFrom (Some 5) None))).


(** On sequential numbering from 1, no prefix. *)
Definition startOneWorld : World :=
  sampleWorld (sampleFirm None (Some (sequentialFrom (Some 1) None))).

Definition acceptAll (newId : string) : SaveEnv :=
  mkSaveEnv (Some (lit newId)) true true.
Definition createFails : SaveEnv := mkSaveEnv None true true.
Definition counterFails : SaveEnv := mkSaveEnv (Some (lit "inv-1")) true false.

Definition sampleBill (env : SaveEnv) : Bill :=
  mkBill (lit "Asha") (lit "98250") exampleItems 1699990000000 1700000000000
    env.

(** An invoice of the store, and the world in which it is stored. *)
Definition storedInvoice : InvoiceData.t :=
  InvoiceData.mk (Some (lit "inv-7")) (lit "SOM-3") 1690000000000
    (lit "Asha") (lit "98250") exampleItems 250%Q 19%Q 269%Q sampleUid
    (Some 1690000000001).

Definition editingWorld : World :=
  mkWorld (app sequentialWorld)
    (Store.with_invoices
       {[ lit "inv-7" :=
            withCreatedAt 1690000000001 (finalDataToSave storedInvoice) ]}
       (db sequentialWorld))
    [].

(** A preview with a line whose line id is the empty string. *)
Definition emptyLineIdPreview : InvoiceData.t :=
  InvoiceData.mk None (lit "SOM-1") 0 (lit "Asha") (lit "98250")
    [emptyLineIdItem] 200%Q 10%Q 210%Q sampleUid None.

Definition sampleCustomers : list Customer.t :=
  [sampleCustomer "c1" "Asha"; sampleCustomer "c3" "Chitra"].

Definition customersWorld : World :=
  mkWorld
    (AppState.mk (Some sampleUid) ViewManage None None sampleCustomers None)
    (Store.mk ∅ {[ lit "c1" := sampleCustomer "c1" "Asha";
                   lit "c3" := sampleCustomer "c3" "Chitra" ]} ∅ 0)
    [].

(** A visit of the setup form in which a prefix is typed. *)
Definition sampleVisit : FirmSetup.Session :=
  FirmSetup.mkSession
    [FirmSetup.InputChange FirmSetup.firmName (lit "Shree Oil Mill");
     FirmSetup.DisplayTextChange FirmSetup.customInvoicePrefix
       (lit "som-2024 / billing");
     FirmSetup.CheckboxChange FirmSetup.showGstOnInvoice false]
    [] 1700000000000 true.

(** * Further parts of the code *)

(** ** The first version of the App component (src/App.tsx)

    One flat rate on the subtotal, a fixed prefix, and a save that
    always creates.  [today] is [new Date()]. *)

Module LegacyApp.

Definition BSMOM : jsstring := Eval cbv in lit "BSMOM".

Definition handleGenerateBill (GST_RATE : Q) (now today : Z)
    (customerName customerPhone : jsstring) (billItems : list BillItem.t)
    : M unit :=
  s ← getApp;
  match AppState.user s with
  | None => alert AlertLoginToGenerate
  | Some uid =>
      let subtotal :=
        fold_left
          (fun acc item =>
             (acc + Product.price (BillItem.product item)
                    * BillItem.quantity item)%Q)
          billItems 0%Q in
      let gstAmount := (subtotal * GST_RATE)%Q in
      let grandTotal := (subtotal + gstAmount)%Q in
      let invoiceBaseData :=
        InvoiceData.mk None (BSMOM ++ dash ++ Js.numToString now) today
          customerName customerPhone billItems subtotal gstAmount grandTotal
          uid None in
      setState (AppState.setCurrentInvoice (Some invoiceBaseData))
  end.

End LegacyApp.

(** ** The invoice view (components/Invoice.tsx)

    The tax of a line as the view computes it, before it is cut to two
    decimals for display:
    [(price * quantity * (gstRate ?? GST_RATE * 100)) / 100].
    This is the exact value of the expression; [Doubles] below has
    the expression as the host evaluates it. *)

Definition shownLineTax (GST_RATE : Q) (item : BillItem.t) : Q :=
  (Product.price (BillItem.product item) * BillItem.quantity item
   * match BillItem.gstRate item with
     | Some r => r
     | None => GST_RATE * 100
     end / 100)%Q.

(** The tax of a line in the binary64 arithmetic of the host, on the
    price, the quantity and the rate in percent of the line, as the
    view and as the calculator of [handleGenerateBill] compute it. *)
Module Doubles.
Import PrimFloat.
Local Open Scope float_scope.

(** [(price * quantity * rate) / 100]. *)
Definition shownLineTax (price quantity rate : float) : float :=
  (price * quantity * rate) / 100.

(** [itemTotal * itemGstRate], with [itemTotal = price * quantity] and
    [itemGstRate = rate / 100]. *)
Definition lineTax (price quantity rate : float) : float :=
  let itemTotal := price * quantity in
  let itemGstRate := rate / 100 in
  itemTotal * itemGstRate.

End Doubles.

(** The rate that applies to a line, in percent. *)
Definition ratePercent (GST_RATE : Q) (item : BillItem.t) : Q :=
  match BillItem.gstRate item with
  | Some r => r
  | None => (GST_RATE * 100)%Q
  end.

(** A line that a bill can hold: price and quantity not negative, the
    rate between 0 and 100. *)
Definition plausibleItem (GST_RATE : Q) (item : BillItem.t) : Prop :=
  (0 <= Product.price (BillItem.product item))%Q
  /\ (0 <= BillItem.quantity item)%Q
  /\ (0 <= ratePercent GST_RATE item)%Q
  /\ (ratePercent GST_RATE item <= 100)%Q.

(** ** More handlers of the App component *)

Definition handleViewInvoice (invoice : InvoiceData.t) : M unit :=
  setState (AppState.setCurrentInvoice (Some invoice)).

Definition handleBack : M unit :=
  setState (AppState.setCurrentInvoice None).

Definition setUser (u : option jsstring) (s : AppState.t) : AppState.t :=
  AppState.mk u (AppState.view s) (AppState.currentInvoice s)
    (AppState.editingInvoice s) (AppState.customers s)
    (AppState.firmDetails s).

(** [{ id: firmDoc.id, ...firmDoc.data() }]: the id of the document,
    unless the data has an [id] of its own. *)
Definition loadedFirm (uid : jsstring) (data : FirmDetails.t) : FirmDetails.t :=
  FirmDetails.mk
    (match FirmDetails.id data with Some i => Some i | None => Some uid end)
    (FirmDetails.userId data) (FirmDetails.firmName data)
    (FirmDetails.address data) (FirmDetails.displaySettings data)
    (FirmDetails.invoiceFormat data).

(** The listener of the authentication state: the user is set, the
    firm details are read for a signed-in user and cleared otherwise,
    the view goes to the form and no invoice is on display.  [readOk]
    tells whether the read of the firm document goes through. *)
Definition onAuthStateChanged (readOk : bool) (user : option jsstring)
    : M unit :=
  _ ← setState (setUser user);
  _ ← match user with
      | Some uid =>
          tryCatch
            (s ← getDb;
             if readOk
             then
               match Store.firmDetails s !! uid with
               | Some data =>
                   setState (AppState.setFirmDetails
                               (fun _ => Some (loadedFirm uid data)))
               | None => setState (AppState.setFirmDetails (fun _ => None))
               end
             else throw)
            (setState (AppState.setFirmDetails (fun _ => None)))
      | None => setState (AppState.setFirmDetails (fun _ => None))
      end;
  _ ← setState (AppState.setView ViewForm);
  setState (AppState.setCurrentInvoice None).

(** The firm details on display are the stored document as it is read. *)
Definition mirrorsFirm (uid : jsstring) (w : World) : Prop :=
  exists data,
    Store.firmDetails (db w) !! uid = Some data
    /\ AppState.firmDetails (app w) = Some (loadedFirm uid data).

(** ** Printing (components/Invoice.tsx)

    [handlePrint] of the invoice view, with [handleSaveInvoice] as its
    [onSave]: a click while a save is going on is ignored; a preview,
    and an invoice without id, is saved first and printed only when the
    save returns true. *)

Inductive PrintOutcome := PrintIgnored | PrintWithheld | PrintDone.

Definition handlePrint (isSaving isPreview : bool) (env : SaveEnv)
    (invoiceData : InvoiceData.t) : M PrintOutcome :=
  if isSaving then mret PrintIgnored
  else if isPreview || negb (Js.truthy (InvoiceData.id invoiceData))
  then
    tryCatch
      (saved ← handleSaveInvoice env invoiceData;
       match saved with
       | Some true => mret PrintDone
       | _ => mret PrintWithheld
       end)
      (mret PrintWithheld)
  else mret PrintDone.

(** The print button of the invoice that the App component displays:
    [invoiceData] is [currentInvoice], [isPreview] is [view === 'form'].
    Without an invoice on display there is no button. *)
Definition printCurrent (isSaving : bool) (env : SaveEnv) : M PrintOutcome :=
  s ← getApp;
  match AppState.currentInvoice s with
  | Some invoiceData =>
      handlePrint isSaving
        (match AppState.view s with ViewForm => true | _ => false end)
        env invoiceData
  | None => mret PrintIgnored
  end.

(** ** Customers and the store *)

(** Every customer of the list is the document that the store holds
    under the customer's id. *)
Definition mirrorsCustomers (w : World) : Prop :=
  Forall (fun c => Store.customers (db w) !! Customer.id c = Some c)
    (AppState.customers (app w)).

(** A comparator that answers the two orders of a pair consistently. *)
Definition reversingComparator {A} (cmp : A -> A -> Z) : Prop :=
  forall a b, cmp a b < 0 -> 0 < cmp b a.

(** [s.startsWith(p)] and [s.includes(term)]. *)
Fixpoint startsWith (p s : jsstring) : bool :=
  match p, s with
  | [], _ => true
  | _ :: _, [] => false
  | c :: p', d :: s' => (c =? d)%N && startsWith p' s'
  end.

Fixpoint includes (s term : jsstring) : bool :=
  startsWith term s
  || match s with
     | [] => false
     | _ :: s' => includes s' term
     end.

(** ** The customer manager (components/CustomerManager.tsx) *)

Module CustomerManager.

Record State := mk {
  newCustomerName : jsstring;
  newCustomerPhone : jsstring;
  newCustomerAddress : jsstring;
  error : option jsstring;
  searchTerm : jsstring;
  editingId : option jsstring;
  editName : jsstring;
  editPhone : jsstring;
  editAddress : jsstring;
  alerted : list jsstring        (* the alerts of the manager, as a log *)
}.

Definition nameRequired : jsstring := Eval cbv in lit "Customer name is required.".
Definition nameEmpty : jsstring := Eval cbv in lit "Customer name cannot be empty.".

Section Handlers.

Variable localeCompare : jsstring -> jsstring -> Z.

(** The props that the App component passes. *)
Definition onAddCustomer := handleAddCustomer localeCompare.
Definition onDeleteCustomer := handleDeleteCustomer.
Definition onUpdateCustomer := handleUpdateCustomer localeCompare.

(** The form of a new customer is submitted; [result] is what the
    store makes of the [addDoc] of the App component.  The form is
    cleared without waiting for the store. *)
Definition handleAddCustomer (result : option jsstring) (st : State)
    (w : World) : State * World :=
  let name := Js.trim (newCustomerName st) in
  match name with
  | [] =>
      (mk (newCustomerName st) (newCustomerPhone st) (newCustomerAddress st)
          (Some nameRequired) (searchTerm st) (editingId st) (editName st)
          (editPhone st) (editAddress st) (alerted st),
       w)
  | _ =>
      let w' :=
        after
          (onAddCustomer result
             (Customer.mkInput name (Some (Js.trim (newCustomerPhone st)))
                (Some (Js.trim (newCustomerAddress st))) None))
          w in
      (mk [] [] [] None (searchTerm st) (editingId st) (editName st)
          (editPhone st) (editAddress st) (alerted st),
       w')
  end.

(** The manager asks for confirmation, and so does the App component. *)
Definition handleDeleteCustomer (confirmedHere confirmedApp ok : bool)
    (id : jsstring) (st : State) (w : World) : State * World :=
  if confirmedHere
  then (st, after (onDeleteCustomer confirmedApp ok id) w)
  else (st, w).

Definition handleEditClick (customer : Customer.t) (st : State) : State :=
  mk (newCustomerName st) (newCustomerPhone st) (newCustomerAddress st)
     (error st) (searchTerm st) (Some (Customer.id customer))
     (Customer.name customer)
     (match Customer.phone customer with Some (c :: p) => c :: p | _ => [] end)
     (match Customer.address customer with Some (c :: a) => c :: a | _ => [] end)
     (alerted st).


Definition handleSaveEdit (ok : bool) (id : jsstring) (st : State)
    (w : World) : State * World :=
  let name := Js.trim (editName st) in
  match name with
  | [] =>
      (mk (newCustomerName st) (newCustomerPhone st) (newCustomerAddress st)
          (error st) (searchTerm st) (editingId st) (editName st)
          (editPhone st) (editAddress st) (alerted st ++ [nameEmpty]),
       w)
  | _ =>
      let w' :=
        after
          (onUpdateCustomer ok id
             (Customer.mkPatch (Some name) (Some (Js.trim (editPhone st)))
                (Some (Js.trim (editAddress st))) None))
          w in
      (mk (newCustomerName st) (newCustomerPhone st) (newCustomerAddress st)
          (error st) (searchTerm st) None (editName st) (editPhone st)
          (editAddress st) (alerted st),
       w')
  end.

End Handlers.

(** The customers that the list shows for a search term.
    [toLowerCase] is [String.prototype.toLowerCase] of the host. *)
Definition filteredCustomers (toLowerCase : jsstring -> jsstring)
    (customers : list Customer.t) (searchTerm : jsstring) : list Customer.t :=
  List.filter
    (fun c =>
       includes (toLowerCase (Customer.name c)) (toLowerCase searchTerm)
       || (Js.truthy (Customer.phone c)
           && includes (default [] (Customer.phone c)) searchTerm))
    customers.

(** What the user does in the manager. *)
Inductive Event :=
| AddCustomer (name phone address : jsstring) (result : option jsstring)
| SaveEdit (customer : Customer.t) (name phone address : jsstring) (ok : bool)
| DeleteCustomer (id : jsstring) (confirmedHere confirmedApp ok : bool).

Definition typed (name phone address : jsstring) (st : State) : State :=
  mk name phone address (error st) (searchTerm st) (editingId st)
     (editName st) (editPhone st) (editAddress st) (alerted st).

Definition edited (name phone address : jsstring) (st : State) : State :=
  mk (newCustomerName st) (newCustomerPhone st) (newCustomerAddress st)
     (error st) (searchTerm st) (editingId st) name phone address (alerted st).

Definition step (localeCompare : jsstring -> jsstring -> Z)
    (sw : State * World) (e : Event) : State * World :=
  match e with
  | AddCustomer name phone address result =>
      handleAddCustomer localeCompare result (typed name phone address sw.1)
        sw.2
  | SaveEdit customer name phone address ok =>
      handleSaveEdit localeCompare ok (Customer.id customer)
        (edited name phone address (handleEditClick customer sw.1)) sw.2
  | DeleteCustomer id confirmedHere confirmedApp ok =>
      handleDeleteCustomer confirmedHere confirmedApp ok id sw.1 sw.2
  end.

End CustomerManager.

(** The names of the list are not empty and have no white space in
    front or behind. *)
Definition namesTrimmed (l : list Customer.t) : Prop :=
  Forall (fun c => Customer.name c <> []
                   /\ Js.trim (Customer.name c) = Customer.name c) l.

(** [toLowerCase] on the ASCII letters, as a sample of the host's. *)
Definition asciiLower (s : jsstring) : jsstring :=
  List.map (fun c => if (65 <=? c)%N && (c <=? 90)%N then (c + 32)%N else c) s.

(** ** Products (handleAddProduct, handleDeleteProduct,
    handleUpdateProduct, loadData)

    The product list is a state variable of the App component next to
    those of [AppState.t]; the [products] collection is a collection of
    the store next to those of [Store.t]. *)

Module ProductDoc.
Record t := mk {
  id : Z;
  name : jsstring;
  price : Q;
  userId : jsstring
}.
End ProductDoc.

Inductive ProductAlert :=
| AlertLoginToAddProduct
| AlertAddProductFailed
| AlertDeleteProductFailed
| AlertUpdateProductFailed.

Record Shop := mkShop {
  world : World;
  products : list Product.t;
  productDocs : gmap jsstring ProductDoc.t;
  productAlerts : list ProductAlert
}.

Definition shopUser (s : Shop) : option jsstring :=
  AppState.user (app (world s)).

(** [products.reduce((m, p) => Math.max(m, p.id), 0)]. *)
Definition maxId (ps : list Product.t) : Z :=
  fold_left (fun m p => Z.max m (Product.id p)) ps 0.

(** [result] is the id that the store assigns to the new document. *)
Definition handleAddProduct (result : option jsstring) (name : jsstring)
    (price : Q) (s : Shop) : Shop :=
  match shopUser s with
  | None =>
      mkShop (world s) (products s) (productDocs s)
        (productAlerts s ++ [AlertLoginToAddProduct])
  | Some uid =>
      let nextId := maxId (products s) + 1 in
      match result with
      | Some docRef =>
          let newProd := Product.mk nextId name price (Some docRef) in
          mkShop (world s) (products s ++ [newProd])
            (<[docRef := ProductDoc.mk nextId name price uid]> (productDocs s))
            (productAlerts s)
      | None =>
          mkShop (world s) (products s) (productDocs s)
            (productAlerts s ++ [AlertAddProductFailed])
      end
  end.

(** The document that a delete or an update of the product [id]
    addresses: the one given when it is truthy, else the one of the
    first product of the list with this code and a document id; none
    when there is no such product. *)
Definition targetDoc (id : Z) (docId : option jsstring) (ps : list Product.t)
    : option jsstring :=
  if Js.truthy docId then docId
  else
    match List.find
            (fun p => (Product.id p =? id) && Js.truthy (Product.docId p)) ps
    with
    | Some toDelete => Product.docId toDelete
    | None => None
    end.

(** [ok] is the outcome of the [deleteDoc], when one is issued. *)
Definition handleDeleteProduct (ok : bool) (id : Z) (docId : option jsstring)
    (s : Shop) : Shop :=
  let removed := List.filter (fun p => negb (Product.id p =? id)) (products s) in
  match targetDoc id docId (products s) with
  | Some d =>
      if ok
      then mkShop (world s) removed (delete d (productDocs s)) (productAlerts s)
      else mkShop (world s) (products s) (productDocs s)
             (productAlerts s ++ [AlertDeleteProductFailed])
  | None => mkShop (world s) removed (productDocs s) (productAlerts s)
  end.

(** [updateDoc(doc(db, 'products', d), { name, price })]. *)
Definition renamed (name : jsstring) (price : Q) (d : ProductDoc.t)
    : ProductDoc.t :=
  ProductDoc.mk (ProductDoc.id d) name price (ProductDoc.userId d).

Definition handleUpdateProduct (ok : bool) (id : Z) (name : jsstring)
    (price : Q) (docId : option jsstring) (s : Shop) : Shop :=
  let updated :=
    List.map
      (fun p =>
         if Product.id p =? id
         then Product.mk (Product.id p) name price (Product.docId p)
         else p)
      (products s) in
  let failed :=
    mkShop (world s) (products s) (productDocs s)
      (productAlerts s ++ [AlertUpdateProductFailed]) in
  match targetDoc id docId (products s) with
  | Some d =>
      match ok, productDocs s !! d with
      | true, Some old =>
          mkShop (world s) updated
            (<[d := renamed name price old]> (productDocs s)) (productAlerts s)
      | _, _ => failed
      end
  | None => mkShop (world s) updated (productDocs s) (productAlerts s)
  end.

(** A customer as [loadData] builds it from a document of the store. *)
Definition loadedCustomer (docId : jsstring) (data : Customer.t) : Customer.t :=
  Customer.mk docId (Customer.name data) (Customer.phone data)
    (Customer.address data) (Customer.gstNumber data) (Customer.userId data).

Definition loadedProduct (docId : jsstring) (data : ProductDoc.t) : Product.t :=
  Product.mk (ProductDoc.id data) (ProductDoc.name data) (ProductDoc.price data)
    (Some docId).

Definition setCustomersOf (l : list Customer.t) (s : Shop) : Shop :=
  mkShop
    (mkWorld (AppState.setCustomers (fun _ => l) (app (world s)))
       (db (world s)) (alerts (world s)))
    (products s) (productDocs s) (productAlerts s).

Definition setProductsOf (l : list Product.t) (s : Shop) : Shop :=
  mkShop (world s) l (productDocs s) (productAlerts s).

(** Products and customers are loaded when the user changes.  The two
    snapshots are the answers of the store to the two queries (the
    documents and their ids), or a failure; a failure leaves the state
    as it is at that point. *)
Definition loadData (localeCompare : jsstring -> jsstring -> Z)
    (productsSnap : option (list (jsstring * ProductDoc.t)))
    (customersSnap : option (list (jsstring * Customer.t)))
    (s : Shop) : Shop :=
  match shopUser s with
  | None => setCustomersOf [] (setProductsOf [] s)
  | Some uid =>
      match productsSnap with
      | None => s
      | Some docs =>
          let s1 :=
            setProductsOf
              (List.map (fun d => loadedProduct d.1 d.2) docs) s in
          match customersSnap with
          | None => s1
          | Some cdocs =>
              let loadedCustomers :=
                List.map (fun d => loadedCustomer d.1 d.2) cdocs in
              setCustomersOf (jsSort (byName localeCompare) loadedCustomers) s1
          end
      end
  end.

(** The documents of a collection that belong to a user, as a query
    with [where('userId', '==', uid)] asks for them. *)
Definition customersOf (uid : jsstring) (m : gmap jsstring Customer.t)
    : list (jsstring * Customer.t) :=
  List.filter (fun d => bool_decide (Customer.userId d.2 = uid))
    (map_to_list m).

(** ** The logo of the firm setup form (handleLogoChange) *)

Module Logo.

Record File := mkFile {
  type : jsstring;              (* the MIME type *)
  size : Z                      (* in bytes *)
}.

Record State := mkState {
  logoFile : option File;
  error : option jsstring
}.

Definition image : jsstring := Eval cbv in lit "image/".
Definition invalidImage : jsstring :=
  Eval cbv in lit "Please select a valid image file".
Definition tooLarge : jsstring :=
  Eval cbv in lit "Logo file size should be less than 500KB".

(** [file] is [e.target.files?.[0]]. *)
Definition handleLogoChange (file : option File) (s : State) : State :=
  match file with
  | Some f =>
      if negb (startsWith image (type f))
      then mkState (logoFile s) (Some invalidImage)
      else if size f >? 500 * 1024
      then mkState (logoFile s) (Some tooLarge)
      else mkState (Some f) None
  | None => s
  end.

(** A logo that the form accepts. *)
Definition acceptable (f : File) : Prop :=
  startsWith image (type f) = true /\ size f <= 512000.

End Logo.


(** ** The written firm document *)

(** Only the two required fields are written when empty. *)
Definition noEmptyOptional (m : gmap string jsstring) : Prop :=
  forall n v, m !! n = Some v
              -> n = "firmName"%string \/ n = "address"%string \/ v <> [].

(** ** Sample data for the further parts *)

(** Lines without a rate of their own. *)
Definition flatItems : list BillItem.t :=
  [ BillItem.mk (Product.mk 1 (lit "Oil") 100%Q None) 2%Q None None;
    BillItem.mk (Product.mk 2 (lit "Cake") 50%Q None) 1%Q None None ].

Definition sampleProducts : list Product.t :=
  [ Product.mk 1 (lit "Oil") 100%Q (Some (lit "p1"));
    Product.mk 2 (lit "Cake") 50%Q (Some (lit "p2")) ].

(** The owner's shop: two products and two customers, all stored. *)
Definition sampleShop : Shop :=
  mkShop customersWorld sampleProducts
    {[ lit "p1" := ProductDoc.mk 1 (lit "Oil") 100%Q sampleUid;
       lit "p2" := ProductDoc.mk 2 (lit "Cake") 50%Q sampleUid ]}
    [].

Definition sampleLogo : Logo.File := Logo.mkFile (lit "image/png") 20000.
Definition largeLogo : Logo.File := Logo.mkFile (lit "image/jpeg") 600000.
Definition textFile : Logo.File := Logo.mkFile (lit "text/plain") 10.

(** The form of a new firm after the events of the sample visit. *)
Definition filledForm : FirmSetup.State :=
  fold_left FirmSetup.step (FirmSetup.events sampleVisit)
    (FirmSetup.initialState None).

(** The customer manager as it opens. *)
Definition managerStart : CustomerManager.State :=
  CustomerManager.mk [] [] [] None [] None [] [] [] [].

(** A preview of a new bill on display in the sequential world. *)
Definition previewWorld : World := displaying emptyLineIdPreview sequentialWorld.

(** The history of the owner, with the stored invoice in the store. *)
Definition historyWorld : World :=
  mkWorld (AppState.setView ViewHistory (app editingWorld)) (db editingWorld) [].


(** On sequential numbering with the prefix SOM, four invoices numbered
    so far. *)
Definition countingWorld : World :=
  sampleWorld
    (sampleFirm (Some (lit "SOM")) (Some (sequentialFrom (Some 1) (Some 4)))).

(** A shop whose store holds three customers of the owner and one of
    someone else, and whose list has not been loaded yet. *)
Definition unloadedShop : Shop :=
  mkShop
    (mkWorld
       (AppState.mk (Some sampleUid) ViewManage None None [] None)
       (Store.mk ∅
          {[ lit "c1" := sampleCustomer "c1" "Chitra";
             lit "c2" := sampleCustomer "c2" "Asha";
             lit "c3" := sampleCustomer "c3" "Bina";
             lit "c4" := Customer.mk (lit "c4") (lit "Aarav") None None None
                           (lit "owner-2") ]}
          ∅ 0)
       [])
    [] ∅ [].
(** * Properties *)

(** ** The bill calculator *)

Section CalculatorFacts.

Variable GST_RATE : Q.
Local Open Scope Q_scope.

(** A left fold that adds [f x] for each element is the start value
    plus the sum of the [f x]. *)
Lemma fold_left_add_sum {A} (f : A -> Q) (l : list A) (a : Q) :
  fold_left (fun acc x => acc + f x) l a == a + Spec.sum (List.map f l).
Proof.
  revert a. induction l as [|x l IH]; intros a; simpl.
  - symmetry. apply Qplus_0_r.
  - rewrite IH. symmetry. apply Qplus_assoc.
Qed.

Lemma billSubtotal_sum (items : list BillItem.t) :
  billSubtotal items == Spec.sum (List.map Spec.lineAmount items).
Proof.
  unfold billSubtotal.
  rewrite (fold_left_add_sum Spec.lineAmount items 0). apply Qplus_0_l.
Qed.

Lemma billGstAmount_sum (items : list BillItem.t) :
  billGstAmount GST_RATE items
  == Spec.sum (List.map (Spec.lineTax (GST_RATE * 100)) items).
Proof.
  unfold billGstAmount.
  rewrite (fold_left_add_sum (Spec.lineTax (GST_RATE * 100)) items 0).
  apply Qplus_0_l.
Qed.

(** What [handleGenerateBill] leaves on display for a signed-in user. *)
Lemma handleGenerateBill_signed_in (w : World) (uid : jsstring) (now : Z)
    (customerName customerPhone : jsstring) (items : list BillItem.t)
    (billDate : Z) :
  AppState.user (app w) = Some uid ->
  handleGenerateBill GST_RATE now customerName customerPhone items billDate w
  = (Returned tt,
     mkWorld
       (AppState.setCurrentInvoice
          (Some
             (InvoiceData.mk
                (match AppState.editingInvoice (app w) with
                 | Some editing =>
                     if Js.truthy (InvoiceData.id editing)
                     then InvoiceData.id editing else None
                 | None => None
                 end)
                (previewNumber (app w) now) billDate customerName
                customerPhone items (billSubtotal items)
                (billGstAmount GST_RATE items)
                (billSubtotal items + billGstAmount GST_RATE items)
                uid None))
          (app w))
       (db w) (alerts w)).
Proof.
  intros Hu. unfold handleGenerateBill, mbind, M_bind, getApp. simpl.
  rewrite Hu. reflexivity.
Qed.

End CalculatorFacts.

(** C1. For every list of line items the preview that the bill
    calculator produces has subtotal = sum of price * quantity,
    taxAmount = sum of price * quantity * (rate / 100), the rate being
    the item's own if present and the global default percentage
    otherwise, and grandTotal = subtotal + taxAmount; the empty list is
    accepted and gives zero three times; for the items
    [{100, 2, 5%}, {50, 1, 18%}] the values are 250, 19 and 269. *)
Theorem bill_totals (GST_RATE : Q) (w : World) (uid : jsstring) (now : Z)
    (customerName customerPhone : jsstring) (items : list BillItem.t)
    (billDate : Z) :
  AppState.user (app w) = Some uid ->
  exists preview,
    AppState.currentInvoice
      (app (after (handleGenerateBill GST_RATE now customerName customerPhone
                     items billDate) w)) = Some preview
    /\ InvoiceData.items preview = items
    /\ (InvoiceData.subtotal preview
        == Spec.sum (List.map Spec.lineAmount items))%Q
    /\ (InvoiceData.gstAmount preview
        == Spec.sum (List.map (Spec.lineTax (GST_RATE * 100)) items))%Q
    /\ (InvoiceData.grandTotal preview
        == InvoiceData.subtotal preview + InvoiceData.gstAmount preview)%Q
    /\ (items = [] ->
        (InvoiceData.subtotal preview == 0)%Q
        /\ (InvoiceData.gstAmount preview == 0)%Q
        /\ (InvoiceData.grandTotal preview == 0)%Q)
    /\ (items = exampleItems ->
        (InvoiceData.subtotal preview == 250)%Q
        /\ (InvoiceData.gstAmount preview == 19)%Q
        /\ (InvoiceData.grandTotal preview == 269)%Q).
Proof.
  intros Hu. unfold after.
  rewrite (handleGenerateBill_signed_in GST_RATE w uid) by exact Hu.
  eexists. split; [reflexivity|]. simpl.
  split; [reflexivity|].
  split; [apply billSubtotal_sum|].
  split; [apply billGstAmount_sum|].
  split; [reflexivity|].
  split; intros ->; repeat split; vm_compute; reflexivity.
Qed.

(** ** The equations of [handleSaveInvoice] *)

Ltac run_handler :=
  unfold handleSaveInvoice, handleGenerateBill, handleEditInvoice, switchView,
    tryCatch, updateInvoiceDoc, addInvoiceDoc, updateFirmCounter,
    mbind, M_bind, mret, M_ret, getApp, getDb, setState, putDb, alert, throw;
  simpl.

Lemma truthy_Some (i : jsstring) : i <> [] -> Js.truthy (Some i) = true.
Proof. destruct i; [congruence | reflexivity]. Qed.

Lemma truthy_inv (o : option jsstring) :
  Js.truthy o = true -> exists i, o = Some i /\ i <> [].
Proof. destruct o as [[|c i]|]; simpl; try discriminate. eauto. Qed.

Section SaveEquations.

Variables (env : SaveEnv) (invoiceData : InvoiceData.t) (w : World).
Variable uid : jsstring.
Hypothesis signed_in : AppState.user (app w) = Some uid.

(** Update of an existing invoice that the store accepts. *)
Lemma save_existing_ok (i : jsstring) (old : InvoiceDoc.t) :
  InvoiceData.id invoiceData = Some i -> i <> [] ->
  invoiceUpdate env = true ->
  Store.invoices (db w) !! i = Some old ->
  handleSaveInvoice env invoiceData w
  = (Returned (Some true),
     mkWorld
       (savedState (Some i) invoiceData (app w))
       (Store.with_invoices
          (<[i := mergeInvoiceDoc old
                    (withUpdatedAt (Store.serverTime (db w))
                       (finalDataToSave invoiceData))]>
             (Store.invoices (db w)))
          (db w))
       (alerts w)).
Proof.
  intros Hid Hne Hok Hold. run_handler.
  rewrite signed_in, Hid, (truthy_Some i Hne), Hok. simpl.
  rewrite Hold. reflexivity.
Qed.

(** Update of an existing invoice that the store refuses. *)
Lemma save_existing_fail (i : jsstring) :
  InvoiceData.id invoiceData = Some i -> i <> [] ->
  invoiceUpdate env = false \/ Store.invoices (db w) !! i = None ->
  handleSaveInvoice env invoiceData w
  = (Returned (Some false),
     mkWorld (app w) (db w) (alerts w ++ [AlertSaveFailed])).
Proof.
  intros Hid Hne Hfail. run_handler.
  rewrite signed_in, Hid, (truthy_Some i Hne). simpl.
  destruct Hfail as [-> | ->]; [reflexivity|].
  destruct (invoiceUpdate env); reflexivity.
Qed.

(** A new invoice whose create call fails. *)
Lemma save_new_create_fail :
  Js.truthy (InvoiceData.id invoiceData) = false ->
  invoiceCreate env = None ->
  handleSaveInvoice env invoiceData w
  = (Returned (Some false),
     mkWorld (app w) (db w) (alerts w ++ [AlertSaveFailed])).
Proof.
  intros Hid Hc. run_handler. rewrite signed_in, Hid, Hc. reflexivity.
Qed.

(** A new invoice, the firm not on sequential numbering. *)
Lemma save_new_freeform (newId : jsstring) :
  Js.truthy (InvoiceData.id invoiceData) = false ->
  invoiceCreate env = Some newId ->
  sequentialFormat (AppState.firmDetails (app w)) = None ->
  handleSaveInvoice env invoiceData w
  = (Returned (Some true),
     mkWorld (savedState (Some newId) invoiceData (app w))
       (withNewInvoice invoiceData w newId) (alerts w)).
Proof.
  intros Hid Hc Hseq. run_handler.
  rewrite signed_in, Hid, Hc. simpl. rewrite Hseq. reflexivity.
Qed.

(** A new invoice on sequential numbering, both writes accepted. *)
Lemma save_new_sequential_ok (newId : jsstring) (f : InvoiceFormat.t)
    (stored : FirmDetails.t) :
  Js.truthy (InvoiceData.id invoiceData) = false ->
  invoiceCreate env = Some newId ->
  sequentialFormat (AppState.firmDetails (app w)) = Some f ->
  counterUpdate env = true ->
  Store.firmDetails (db w) !! uid = Some stored ->
  handleSaveInvoice env invoiceData w
  = (Returned (Some true),
     mkWorld
       (savedState (Some newId) invoiceData
          (AppState.setFirmDetails (advanceLocalCounter (nextNumber f))
             (app w)))
       (Store.with_firmDetails
          (<[uid := setCurrentNumber (nextNumber f) stored]>
             (Store.firmDetails (db w)))
          (withNewInvoice invoiceData w newId))
       (alerts w)).
Proof.
  intros Hid Hc Hseq Hok Hst. run_handler.
  rewrite signed_in, Hid, Hc. simpl. rewrite Hseq. simpl.
  rewrite Hok. simpl. rewrite Hst. reflexivity.
Qed.

(** A new invoice on sequential numbering: the invoice is written,
    the update of the counter fails. *)
Lemma save_new_counter_fail (newId : jsstring) (f : InvoiceFormat.t) :
  Js.truthy (InvoiceData.id invoiceData) = false ->
  invoiceCreate env = Some newId ->
  sequentialFormat (AppState.firmDetails (app w)) = Some f ->
  counterUpdate env = false \/ Store.firmDetails (db w) !! uid = None ->
  handleSaveInvoice env invoiceData w
  = (Returned (Some false),
     mkWorld
       (AppState.setFirmDetails (advanceLocalCounter (nextNumber f)) (app w))
       (withNewInvoice invoiceData w newId)
       (alerts w ++ [AlertSaveFailed])).
Proof.
  intros Hid Hc Hseq Hfail. run_handler.
  rewrite signed_in, Hid, Hc. simpl. rewrite Hseq. simpl.
  destruct Hfail as [-> | ->]; [reflexivity|].
  destruct (counterUpdate env); reflexivity.
Qed.

End SaveEquations.

(** ** Invoice numbers *)

Lemma previewNumber_sequential (s : AppState.t) (now : Z) (f : InvoiceFormat.t) :
  AppState.editingInvoice s = None ->
  sequentialFormat (AppState.firmDetails s) = Some f ->
  previewNumber s now
  = sequentialNumber (customPrefix (AppState.firmDetails s)) (nextNumber f).
Proof. intros He Hf. unfold previewNumber. rewrite He, Hf. reflexivity. Qed.

Lemma previewNumber_freeform (s : AppState.t) (now : Z) :
  AppState.editingInvoice s = None ->
  sequentialFormat (AppState.firmDetails s) = None ->
  previewNumber s now
  = freeformPrefix (AppState.firmDetails s) ++ dash ++ Js.numToString now.
Proof. intros He Hf. unfold previewNumber. rewrite He, Hf. reflexivity. Qed.


Lemma sequentialNumber_spec (prefix : option jsstring) (n : Z) :
  sequentialNumber prefix n = Spec.formatNumber prefix n.
Proof. destruct prefix as [[|]|]; reflexivity. Qed.



(** ** Editing an invoice *)

Section Editing.

Variables (GST_RATE : Q) (w : World) (uid : jsstring).
Variables (invoice : InvoiceData.t) (i : jsstring) (b : Bill).
Hypothesis signed_in : AppState.user (app w) = Some uid.
Hypothesis has_id : InvoiceData.id invoice = Some i.
Hypothesis id_not_empty : i <> [].

(** The preview of the edited invoice. *)
Let preview : InvoiceData.t :=
  InvoiceData.mk (Some i) (InvoiceData.invoiceNumber invoice) (billDate b)
    (billCustomerName b) (billCustomerPhone b) (billItems b)
    (billSubtotal (billItems b)) (billGstAmount GST_RATE (billItems b))
    (billSubtotal (billItems b) + billGstAmount GST_RATE (billItems b))%Q
    uid None.

(** The world when the preview is on display. *)
Let previewing : World :=
  mkWorld
    (AppState.mk (Some uid) ViewForm (Some preview) (Some invoice)
       (AppState.customers (app w)) (AppState.firmDetails (app w)))
    (db w) (alerts w).

Lemma editAndResave_eq :
  editAndResave GST_RATE invoice b w
  = match handleSaveInvoice (billEnv b) preview previewing with
    | (Returned r, w') =>
        (Returned (r, InvoiceData.invoiceNumber invoice), w')
    | (Thrown, w') => (Thrown, w')
    end.
Proof.
  unfold editAndResave, generateAndSave.
  unfold mbind at 1, M_bind at 1.
  unfold handleEditInvoice, mbind at 1, M_bind at 1, mbind at 1, M_bind at 1,
    setState at 1 2 3.
  cbn [fst snd app db alerts].
  unfold mbind at 1, M_bind at 1.
  rewrite (handleGenerateBill_signed_in GST_RATE _ uid)
    by (simpl; exact signed_in).
  cbn -[handleSaveInvoice billSubtotal billGstAmount previewNumber].
  rewrite has_id, (truthy_Some i id_not_empty).
  unfold previewNumber. cbn -[handleSaveInvoice billSubtotal billGstAmount].
  unfold mbind, M_bind, getApp.
  cbn -[handleSaveInvoice billSubtotal billGstAmount].
  fold preview.
  assert (Hw : mkWorld
                 (AppState.setCurrentInvoice (Some preview)
                    (AppState.setCurrentInvoice None
                       (AppState.setView ViewForm
                          (AppState.setEditingInvoice (Some invoice) (app w)))))
                 (db w) (alerts w) = previewing).
  { unfold previewing, AppState.setCurrentInvoice, AppState.setView,
      AppState.setEditingInvoice.
    simpl. rewrite signed_in. reflexivity. }
  rewrite Hw.
  destruct (handleSaveInvoice (billEnv b) preview previewing) as [[r|] w'];
    reflexivity.
Qed.

End Editing.

(** C3. For every existing invoice (one that has an id), whatever the
    firm's numbering mode: generating a bill while editing it gives the
    stored invoice number verbatim, and resaving updates the record of
    that id and no other; the invoice on display afterwards has the
    same id and the same number, no record is created and the firm's
    counter is not touched. *)
Theorem edit_resave_keeps_number_and_id (GST_RATE : Q) (w : World)
    (uid : jsstring) (invoice : InvoiceData.t) (i : jsstring) (b : Bill) :
  AppState.user (app w) = Some uid ->
  InvoiceData.id invoice = Some i ->
  i <> [] ->
  let run := editAndResave GST_RATE invoice b w in
  let w' := snd run in
  exists saved : bool,
    fst run = Returned (Some saved, InvoiceData.invoiceNumber invoice)
    /\ (saved = true <->
        invoiceUpdate (billEnv b) = true
        /\ is_Some (Store.invoices (db w) !! i))
    /\ dom (Store.invoices (db w')) = dom (Store.invoices (db w))
    /\ (forall j, j <> i ->
        Store.invoices (db w') !! j = Store.invoices (db w) !! j)
    /\ Store.firmDetails (db w') = Store.firmDetails (db w)
    /\ AppState.firmDetails (app w') = AppState.firmDetails (app w)
    /\ (saved = true ->
        (exists doc, Store.invoices (db w') !! i = Some doc
                     /\ InvoiceDoc.invoiceNumber doc
                        = InvoiceData.invoiceNumber invoice)
        /\ (exists shown, AppState.currentInvoice (app w') = Some shown
                          /\ InvoiceData.id shown = Some i
                          /\ InvoiceData.invoiceNumber shown
                             = InvoiceData.invoiceNumber invoice))
    /\ (saved = false -> db w' = db w).
Proof.
  intros Hu Hid Hne run w'. subst w' run.
  rewrite (editAndResave_eq GST_RATE w uid invoice i b Hu Hid Hne).
  destruct (invoiceUpdate (billEnv b)) eqn:Hok;
    [destruct (Store.invoices (db w) !! i) as [old|] eqn:Hold|].
  - erewrite (save_existing_ok _ _ _ uid) by (simpl; eauto).
    exists true. cbn [fst snd db app].
    split; [reflexivity|].
    split; [split; [eauto|reflexivity]|].
    split; [simpl; apply dom_insert_lookup_L; rewrite Hold; eauto|].
    split; [intros j Hj; simpl; apply lookup_insert_ne; congruence|].
    split; [reflexivity|]. split; [reflexivity|].
    split; [|discriminate]. intros _. split.
    + eexists. split; [simpl; apply lookup_insert_eq|reflexivity].
    + eexists. split; [reflexivity|]. split; reflexivity.
  - erewrite (save_existing_fail _ _ _ uid) by (simpl; eauto).
    exists false. cbn [fst snd db app].
    split; [reflexivity|].
    split; [split; [discriminate|intros [_ [? ?]]; discriminate]|].
    repeat split; try reflexivity; discriminate.
  - erewrite (save_existing_fail _ _ _ uid) by (simpl; eauto).
    exists false. cbn [fst snd db app].
    split; [reflexivity|].
    split; [split; [discriminate|intros [? _]; discriminate]|].
    repeat split; try reflexivity; discriminate.
Qed.

(** ** Generating and saving *)

Lemma generateAndSave_eq (GST_RATE : Q) (w : World) (uid : jsstring) (b : Bill) :
  AppState.user (app w) = Some uid ->
  generateAndSave GST_RATE b w
  = match handleSaveInvoice (billEnv b) (previewOf GST_RATE (app w) uid b)
            (displaying (previewOf GST_RATE (app w) uid b) w) with
    | (Returned r, w') =>
        (Returned
           (r, InvoiceData.invoiceNumber (previewOf GST_RATE (app w) uid b)),
         w')
    | (Thrown, w') => (Thrown, w')
    end.
Proof.
  intros Hu. unfold generateAndSave.
  unfold mbind at 1, M_bind at 1.
  rewrite (handleGenerateBill_signed_in GST_RATE w uid) by exact Hu.
  fold (previewOf GST_RATE (app w) uid b).
  fold (displaying (previewOf GST_RATE (app w) uid b) w).
  unfold mbind at 1, M_bind at 1, getApp at 1.
  cbn [fst snd app displaying AppState.currentInvoice AppState.setCurrentInvoice].
  unfold mbind, M_bind.
  destruct (handleSaveInvoice _ _ _) as [[r|] w']; reflexivity.
Qed.

Lemma newBill_eq (GST_RATE : Q) (w : World) (b : Bill) :
  newBill GST_RATE b w = generateAndSave GST_RATE b (onForm w).
Proof. reflexivity. Qed.

Lemma counterOf_advance (n : Z) (firm : FirmDetails.t) :
  counterOf (Some (setCurrentNumber n firm)) = Some n.
Proof. unfold setCurrentNumber. simpl. destruct (FirmDetails.invoiceFormat firm); reflexivity. Qed.

Lemma sequentialFormat_Some (firm : option FirmDetails.t) (f : InvoiceFormat.t) :
  sequentialFormat firm = Some f ->
  exists d, firm = Some d /\ FirmDetails.invoiceFormat d = Some f
            /\ InvoiceFormat.type f = Some sequential.
Proof.
  unfold sequentialFormat. intros H.
  destruct firm as [d|]; [|discriminate].
  destruct (FirmDetails.invoiceFormat d) as [f'|] eqn:Hf; [|discriminate].
  destruct (InvoiceFormat.type f') as [ty|] eqn:Hty; [|discriminate].
  destruct (decide (ty = sequential)) as [->|]; [|discriminate].
  injection H as <-. exists d. repeat split; assumption || reflexivity.
Qed.

(** After the counter has advanced locally the firm is still on
    sequential numbering, with the next number one higher and the same
    custom prefix. *)
Lemma sequentialFormat_advance (firm : option FirmDetails.t) (f : InvoiceFormat.t) :
  sequentialFormat firm = Some f ->
  sequentialFormat (advanceLocalCounter (nextNumber f) firm)
  = Some (InvoiceFormat.with_currentNumber (nextNumber f) f)
  /\ nextNumber (InvoiceFormat.with_currentNumber (nextNumber f) f)
     = nextNumber f + 1
  /\ customPrefix (advanceLocalCounter (nextNumber f) firm) = customPrefix firm
  /\ counterOf (advanceLocalCounter (nextNumber f) firm) = Some (nextNumber f).
Proof.
  intros H. destruct (sequentialFormat_Some _ _ H) as (d & -> & Hf & Hty).
  unfold advanceLocalCounter, sequentialFormat, setCurrentNumber. simpl.
  rewrite Hf. simpl. rewrite Hty.
  destruct (decide (sequential = sequential)); [|congruence].
  repeat split; reflexivity.
Qed.

(** ** New invoices on sequential numbering *)

Section SequentialCreate.

Variables (GST_RATE : Q) (uid : jsstring).

(** One new bill, every store call accepted. *)
Lemma newBill_sequential_ok (w : World) (b : Bill) (f : InvoiceFormat.t)
    (newId : jsstring) (stored : FirmDetails.t) :
  AppState.user (app w) = Some uid ->
  sequentialFormat (AppState.firmDetails (app w)) = Some f ->
  invoiceCreate (billEnv b) = Some newId ->
  counterUpdate (billEnv b) = true ->
  Store.firmDetails (db w) !! uid = Some stored ->
  let number :=
    sequentialNumber (customPrefix (AppState.firmDetails (app w)))
      (nextNumber f) in
  let w' := after (newBill GST_RATE b) w in
  result (newBill GST_RATE b) w = Returned (Some true, number)
  /\ AppState.user (app w') = Some uid
  /\ AppState.firmDetails (app w')
     = advanceLocalCounter (nextNumber f) (AppState.firmDetails (app w))
  /\ Store.firmDetails (db w')
     = <[uid := setCurrentNumber (nextNumber f) stored]>
         (Store.firmDetails (db w))
  /\ (exists doc,
        Store.invoices (db w') = <[newId := doc]> (Store.invoices (db w))
        /\ InvoiceDoc.invoiceNumber doc = number)
  /\ (exists shown,
        AppState.currentInvoice (app w') = Some shown
        /\ InvoiceData.id shown = Some newId
        /\ InvoiceData.invoiceNumber shown = number).
Proof.
  intros Hu Hf Hc Hk Hst number w'. subst number w'.
  unfold result, after. rewrite newBill_eq.
  rewrite (generateAndSave_eq GST_RATE (onForm w) uid b) by (simpl; exact Hu).
  set (p := previewOf GST_RATE (app (onForm w)) uid b).
  assert (Hu' : AppState.user (app (displaying p (onForm w))) = Some uid)
    by (simpl; exact Hu).
  assert (Hf' : sequentialFormat
                  (AppState.firmDetails (app (displaying p (onForm w))))
                = Some f) by (simpl; exact Hf).
  assert (Hst' : Store.firmDetails (db (displaying p (onForm w))) !! uid
                 = Some stored) by (simpl; exact Hst).
  assert (Hp : InvoiceData.invoiceNumber p
               = sequentialNumber (customPrefix (AppState.firmDetails (app w)))
                   (nextNumber f)).
  { exact (previewNumber_sequential (app (onForm w)) (billNow b) f
             eq_refl Hf). }
  rewrite (save_new_sequential_ok (billEnv b) p (displaying p (onForm w)) uid
             Hu' newId f stored eq_refl Hc Hf' Hk Hst').
  cbn [fst snd app db].
  split; [rewrite Hp; reflexivity|].
  split; [exact Hu|]. split; [reflexivity|]. split; [reflexivity|].
  split.
  - eexists. split; [reflexivity|]. exact Hp.
  - eexists. split; [reflexivity|]. split; [reflexivity|exact Hp].
Qed.

Lemma newBills_cons (b : Bill) (bs : list Bill) (w : World) :
  newBills GST_RATE (b :: bs) w
  = match newBill GST_RATE b w with
    | (Returned r, w1) =>
        match newBills GST_RATE bs w1 with
        | (Returned rs, w2) => (Returned (r :: rs), w2)
        | (Thrown, w2) => (Thrown, w2)
        end
    | (Thrown, w1) => (Thrown, w1)
    end.
Proof.
  simpl. unfold mbind, M_bind.
  destruct (newBill GST_RATE b w) as [[r|] w1]; [|reflexivity].
  destruct (newBills GST_RATE bs w1) as [[rs|] w2]; reflexivity.
Qed.

(** A series of new bills, every store call accepted: the numbers
    handed out, the two copies of the counter, and the records. *)
Lemma newBills_sequential (bs : list Bill) :
  forall (w : World) (f : InvoiceFormat.t),
  allSucceed bs ->
  AppState.user (app w) = Some uid ->
  sequentialFormat (AppState.firmDetails (app w)) = Some f ->
  is_Some (Store.firmDetails (db w) !! uid) ->
  let prefix := customPrefix (AppState.firmDetails (app w)) in
  let w' := after (newBills GST_RATE bs) w in
  result (newBills GST_RATE bs) w
  = Returned
      (imap (fun k _ =>
               (Some true, sequentialNumber prefix (nextNumber f + Z.of_nat k)))
         bs)
  /\ localCounter w'
     = match bs with
       | [] => localCounter w
       | _ => Some (nextNumber f + Z.of_nat (length bs) - 1)
       end
  /\ storedCounter uid w'
     = match bs with
       | [] => storedCounter uid w
       | _ => Some (nextNumber f + Z.of_nat (length bs) - 1)
       end
  /\ (forall j, j ∉ assignedIds bs ->
      Store.invoices (db w') !! j = Store.invoices (db w) !! j)
  /\ (NoDup (assignedIds bs) ->
      forall (k : nat) (b : Bill) (newId : jsstring),
      bs !! k = Some b ->
      invoiceCreate (billEnv b) = Some newId ->
      exists doc,
        Store.invoices (db w') !! newId = Some doc
        /\ InvoiceDoc.invoiceNumber doc
           = sequentialNumber prefix (nextNumber f + Z.of_nat k)).
Proof.
  induction bs as [|b bs IH]; intros w f Hall Hu Hf [stored Hst] prefix w'.
  - subst w'. unfold result, after. simpl.
    repeat split; try reflexivity.
    intros _ k b newId Hk. rewrite lookup_nil in Hk. discriminate.
  - apply Forall_cons in Hall as [[[newId Hc] Hk] Hall].
    destruct (newBill_sequential_ok w b f newId stored Hu Hf Hc Hk Hst)
      as (Hr & Hu1 & Hfirm1 & Hst1 & (doc & Hinv1 & Hdoc) & _).
    destruct (sequentialFormat_advance _ f Hf) as (Hf1 & Hnext & Hpre & Hcnt).
    rewrite <- Hfirm1 in Hf1, Hpre, Hcnt.
    unfold result, after in Hr, Hu1, Hfirm1, Hst1, Hinv1, Hf1, Hpre, Hcnt.
    assert (Hst1' : is_Some (Store.firmDetails
                               (db (snd (newBill GST_RATE b w))) !! uid)).
    { rewrite Hst1, lookup_insert_eq. eauto. }
    specialize (IH _ _ Hall Hu1 Hf1 Hst1').
    cbv zeta in IH. destruct IH as (IHr & IHl & IHs & IHframe & IHrec).
    subst w'. unfold result, after in *.
    rewrite newBills_cons.
    destruct (newBill GST_RATE b w) as [r1 w1]. simpl in Hr. subst r1.
    cbn [snd] in *.
    destruct (newBills GST_RATE bs w1) as [rs w2]. simpl in IHr. subst rs.
    cbn [fst snd] in *.
    rewrite Hpre, Hnext in *.
    split; [|split; [|split; [|split]]].
    + f_equal. simpl. f_equal.
      * unfold prefix. rewrite Z.add_0_r. reflexivity.
      * apply imap_ext. intros k x _. simpl. unfold prefix.
        do 2 f_equal. lia.
    + rewrite IHl. destruct bs as [|b' bs'].
      * unfold localCounter. rewrite Hcnt. simpl. f_equal. lia.
      * f_equal. simpl length. lia.
    + rewrite IHs. destruct bs as [|b' bs'].
      * unfold storedCounter. rewrite Hst1, lookup_insert_eq.
        rewrite counterOf_advance. simpl. f_equal. lia.
      * f_equal. simpl length. lia.
    + intros j Hj. unfold assignedIds in Hj. simpl in Hj. rewrite Hc in Hj.
      apply not_elem_of_cons in Hj as [Hne Hj].
      rewrite (IHframe j Hj), Hinv1. apply lookup_insert_ne. congruence.
    + intros Hnd k b0 id0 Hk0 Hc0.
      unfold assignedIds in Hnd. simpl in Hnd. rewrite Hc in Hnd.
      apply NoDup_cons in Hnd as [Hnotin Hnd].
      destruct k as [|k]; simpl in Hk0.
      * injection Hk0 as <-. rewrite Hc in Hc0. injection Hc0 as <-.
        exists doc. rewrite (IHframe newId Hnotin), Hinv1, lookup_insert_eq.
        split; [reflexivity|]. rewrite Hdoc, Z.add_0_r. reflexivity.
      * destruct (IHrec Hnd k b0 id0 Hk0 Hc0) as (doc0 & Hl & Hn).
        exists doc0. split; [exact Hl|]. rewrite Hn. unfold prefix.
        f_equal. lia.
Qed.

End SequentialCreate.

(** ** The counter and the save *)

(** A save by a signed-in user changes a copy of the counter only when
    it has written a new invoice for a firm on sequential numbering; the
    local copy is then the number that this invoice consumed. *)
Lemma save_counter_change (env : SaveEnv) (invoiceData : InvoiceData.t)
    (w : World) (uid : jsstring) :
  AppState.user (app w) = Some uid ->
  let w' := after (handleSaveInvoice env invoiceData) w in
  localCounter w' <> localCounter w
  \/ (exists key, storedCounter key w' <> storedCounter key w) ->
  Js.truthy (InvoiceData.id invoiceData) = false
  /\ exists newId f,
       invoiceCreate env = Some newId
       /\ is_Some (Store.invoices (db w') !! newId)
       /\ sequentialFormat (AppState.firmDetails (app w)) = Some f
       /\ localCounter w' = Some (nextNumber f).
Proof.
  intros Hu w' Hchg. subst w'. unfold after in *.
  destruct (Js.truthy (InvoiceData.id invoiceData)) eqn:Hid.
  - exfalso. destruct (truthy_inv _ Hid) as (i & Hi & Hne).
    destruct (invoiceUpdate env) eqn:Hok;
      [destruct (Store.invoices (db w) !! i) as [old|] eqn:Hold|].
    + rewrite (save_existing_ok env invoiceData w uid Hu i old Hi Hne Hok Hold)
        in Hchg.
      destruct Hchg as [H|[key H]]; apply H; reflexivity.
    + rewrite (save_existing_fail env invoiceData w uid Hu i Hi Hne) in Hchg
        by (right; assumption).
      destruct Hchg as [H|[key H]]; apply H; reflexivity.
    + rewrite (save_existing_fail env invoiceData w uid Hu i Hi Hne) in Hchg
        by (left; assumption).
      destruct Hchg as [H|[key H]]; apply H; reflexivity.
  - split; [reflexivity|].
    destruct (invoiceCreate env) as [newId|] eqn:Hc.
    + destruct (sequentialFormat (AppState.firmDetails (app w))) as [f|] eqn:Hf.
      * exists newId, f.
        destruct (sequentialFormat_advance _ f Hf) as (_ & _ & _ & Hcnt).
        destruct (counterUpdate env) eqn:Hk;
          [destruct (Store.firmDetails (db w) !! uid) as [stored|] eqn:Hst|].
        -- rewrite (save_new_sequential_ok env invoiceData w uid Hu newId f
                      stored Hid Hc Hf Hk Hst).
           repeat split; try reflexivity; [|exact Hcnt].
           simpl. rewrite lookup_insert_eq. eauto.
        -- rewrite (save_new_counter_fail env invoiceData w uid Hu newId f
                      Hid Hc Hf) by (right; assumption).
           repeat split; try reflexivity; [|exact Hcnt].
           simpl. rewrite lookup_insert_eq. eauto.
        -- rewrite (save_new_counter_fail env invoiceData w uid Hu newId f
                      Hid Hc Hf) by (left; assumption).
           repeat split; try reflexivity; [|exact Hcnt].
           simpl. rewrite lookup_insert_eq. eauto.
      * exfalso.
        rewrite (save_new_freeform env invoiceData w uid Hu newId Hid Hc Hf)
          in Hchg.
        destruct Hchg as [H|[key H]]; apply H; reflexivity.
    + exfalso.
      rewrite (save_new_create_fail env invoiceData w uid Hu Hid Hc) in Hchg.
      destruct Hchg as [H|[key H]]; apply H; reflexivity.
Qed.

(** Generating a preview touches neither copy of the counter. *)
Lemma generate_keeps_counter (GST_RATE : Q) (w : World) (now : Z)
    (customerName customerPhone : jsstring) (items : list BillItem.t)
    (billDate : Z) :
  let w' := after (handleGenerateBill GST_RATE now customerName customerPhone
                     items billDate) w in
  AppState.firmDetails (app w') = AppState.firmDetails (app w)
  /\ db w' = db w.
Proof.
  unfold after, handleGenerateBill, mbind, M_bind, getApp. simpl.
  destruct (AppState.user (app w)); split; reflexivity.
Qed.

(** X28. What moves the firm's counter.  For a signed-in user:
    generating a preview leaves both copies of the counter alone; a save
    of an invoice that has an id leaves them alone; a save that changes
    one of them has written a new invoice of a firm on sequential
    numbering, and the local copy is then the next number of the counter
    that the save found, whatever number the invoice carries.  N new
    bills generated and saved one after the other, every store call
    accepted, are numbered start, start+1, ..., start+N-1 in save
    order, each record stored under its number, and the counter (from c
    to c+N locally; both copies at start+N-1 once N > 0) has grown by
    exactly N. *)
Theorem counter_advances_only_on_create (GST_RATE : Q) (uid : jsstring) :
  (forall (w : World) (env : SaveEnv) (invoiceData : InvoiceData.t),
     AppState.user (app w) = Some uid ->
     let w' := after (handleSaveInvoice env invoiceData) w in
     (Js.truthy (InvoiceData.id invoiceData) = true ->
      localCounter w' = localCounter w
      /\ forall key, storedCounter key w' = storedCounter key w)
     /\ (localCounter w' <> localCounter w
         \/ (exists key, storedCounter key w' <> storedCounter key w) ->
         Js.truthy (InvoiceData.id invoiceData) = false
         /\ exists newId f,
              invoiceCreate env = Some newId
              /\ is_Some (Store.invoices (db w') !! newId)
              /\ sequentialFormat (AppState.firmDetails (app w)) = Some f
              /\ localCounter w' = Some (nextNumber f)))
  /\ (forall (w : World) (b : Bill),
        let w' := after (handleGenerateBill GST_RATE (billNow b)
                           (billCustomerName b) (billCustomerPhone b)
                           (billItems b) (billDate b)) w in
        localCounter w' = localCounter w
        /\ forall key, storedCounter key w' = storedCounter key w)
  /\ (forall (w : World) (f : InvoiceFormat.t) (bs : list Bill),
        AppState.user (app w) = Some uid ->
        sequentialFormat (AppState.firmDetails (app w)) = Some f ->
        is_Some (Store.firmDetails (db w) !! uid) ->
        allSucceed bs ->
        let prefix := customPrefix (AppState.firmDetails (app w)) in
        let start := nextNumber f in
        let N := Z.of_nat (length bs) in
        let w' := after (newBills GST_RATE bs) w in
        result (newBills GST_RATE bs) w
        = Returned
            (imap (fun k _ =>
                     (Some true, Spec.formatNumber prefix (start + Z.of_nat k)))
               bs)
        /\ (forall c, localCounter w = Some c ->
            start = c + 1 /\ localCounter w' = Some (c + N))
        /\ (bs <> [] ->
            localCounter w' = Some (start + N - 1)
            /\ storedCounter uid w' = Some (start + N - 1))
        /\ (NoDup (assignedIds bs) ->
            forall (k : nat) (b : Bill) (newId : jsstring),
            bs !! k = Some b ->
            invoiceCreate (billEnv b) = Some newId ->
            exists doc,
              Store.invoices (db w') !! newId = Some doc
              /\ InvoiceDoc.invoiceNumber doc
                 = Spec.formatNumber prefix (start + Z.of_nat k))).
Proof.
  split; [|split].
  - intros w env invoiceData Hu w'. split.
    + intros Hid.
      destruct (decide (localCounter w' = localCounter w)) as [Hl|Hl].
      * split; [exact Hl|]. intros key.
        destruct (decide (storedCounter key w' = storedCounter key w))
          as [Hs|Hs]; [exact Hs|].
        destruct (save_counter_change env invoiceData w uid Hu) as [Hnew _];
          [right; exists key; exact Hs|congruence].
      * destruct (save_counter_change env invoiceData w uid Hu) as [Hnew _];
          [left; exact Hl|congruence].
    + exact (save_counter_change env invoiceData w uid Hu).
  - intros w b w'.
    destruct (generate_keeps_counter GST_RATE w (billNow b) (billCustomerName b)
                (billCustomerPhone b) (billItems b) (billDate b)) as [Hf Hd].
    fold w' in Hf, Hd. unfold localCounter, storedCounter.
    rewrite Hf, Hd. split; [reflexivity|]. intros key. reflexivity.
  - intros w f bs Hu Hf Hst Hall prefix start N w'.
    destruct (newBills_sequential GST_RATE uid bs w f Hall Hu Hf Hst)
      as (Hr & Hl & Hs & _ & Hrec).
    fold w' in Hl, Hs, Hrec. fold prefix in Hr, Hrec.
    split; [|split; [|split]].
    + rewrite Hr. reflexivity.
    + intros c Hc.
      assert (Hcur : InvoiceFormat.currentNumber f = Some c).
      { destruct (sequentialFormat_Some _ _ Hf) as (d & Hd & Hfd & _).
        unfold localCounter, counterOf in Hc. rewrite Hd, Hfd in Hc. exact Hc. }
      assert (Hstart : start = c + 1).
      { unfold start, nextNumber. rewrite Hcur. reflexivity. }
      split; [exact Hstart|]. rewrite Hl. destruct bs as [|b0 bs0].
      * rewrite Hc. unfold N. simpl. f_equal. lia.
      * f_equal. unfold N. fold start. lia.
    + intros Hne. destruct bs as [|b0 bs0]; [congruence|].
      rewrite Hl, Hs. split; reflexivity.
    + intros Hnd k b newId Hk Hc.
      destruct (Hrec Hnd k b newId Hk Hc) as (doc & Hd & Hn).
      exists doc. split; [exact Hd|]. rewrite Hn.
      apply sequentialNumber_spec.
Qed.

(** C5. The code at the failing input: a firm on sequential numbering
    with the prefix SOM and the counter at 4.  The bill is numbered
    SOM-5.  Its first save writes the invoice and fails at the counter:
    it returns false, the local copy of the counter is 5 and the stored
    copy is still 4.  The second save of the same preview goes through:
    it creates a second invoice, again SOM-5, and puts both copies of
    the counter at 6, which is not the number just consumed; the stored
    copy has moved by two in one successful create. *)
Lemma retry_moves_counter_past_number :
  exists preview w0 w1 w2,
    w0 = after (handleGenerateBill 0%Q 1700000000000 (lit "Asha") (lit "98250")
                  exampleItems 1699990000000) countingWorld
    /\ AppState.currentInvoice (app w0) = Some preview
    /\ InvoiceData.invoiceNumber preview = lit "SOM-5"
    /\ result (handleSaveInvoice counterFails preview) w0
       = Returned (Some false)
    /\ w1 = after (handleSaveInvoice counterFails preview) w0
    /\ localCounter w1 = Some 5
    /\ storedCounter sampleUid w1 = Some 4
    /\ result (handleSaveInvoice (acceptAll "inv-2") preview) w1
       = Returned (Some true)
    /\ w2 = after (handleSaveInvoice (acceptAll "inv-2") preview) w1
    /\ (exists doc,
          Store.invoices (db w2) !! lit "inv-2" = Some doc
          /\ InvoiceDoc.invoiceNumber doc = lit "SOM-5")
    /\ (exists doc,
          Store.invoices (db w2) !! lit "inv-1" = Some doc
          /\ InvoiceDoc.invoiceNumber doc = lit "SOM-5")
    /\ localCounter w2 = Some 6
    /\ storedCounter sampleUid w2 = Some 6.
Proof.
  eexists. eexists. eexists. eexists.
  split; [reflexivity|]. split; [vm_compute; reflexivity|].
  split; [vm_compute; reflexivity|]. split; [vm_compute; reflexivity|].
  split; [reflexivity|]. split; [vm_compute; reflexivity|].
  split; [vm_compute; reflexivity|]. split; [vm_compute; reflexivity|].
  split; [reflexivity|].
  split; [eexists; split; vm_compute; reflexivity|].
  split; [eexists; split; vm_compute; reflexivity|].
  split; vm_compute; reflexivity.
Qed.

(** ** Failures of the store *)

(** C6. When the create call of a save of a new invoice fails, the
    save reports failure (it returns false and raises the alert), no
    invoice id is assigned (the invoice on display is as it was and the
    store has no new record), and the firm's counter is as it was, in
    the component state and in the store. *)
Theorem failed_create_changes_nothing (env : SaveEnv)
    (invoiceData : InvoiceData.t) (w : World) (uid : jsstring) :
  AppState.user (app w) = Some uid ->
  Js.truthy (InvoiceData.id invoiceData) = false ->
  invoiceCreate env = None ->
  let w' := after (handleSaveInvoice env invoiceData) w in
  result (handleSaveInvoice env invoiceData) w = Returned (Some false)
  /\ alerts w' = alerts w ++ [AlertSaveFailed]
  /\ AppState.currentInvoice (app w') = AppState.currentInvoice (app w)
  /\ Store.invoices (db w') = Store.invoices (db w)
  /\ localCounter w' = localCounter w
  /\ (forall key, storedCounter key w' = storedCounter key w)
  /\ app w' = app w
  /\ db w' = db w.
Proof.
  intros Hu Hid Hc w'. subst w'. unfold result, after.
  rewrite (save_new_create_fail env invoiceData w uid Hu Hid Hc).
  repeat split; reflexivity.
Qed.

(** X29. What a failure of the counter leaves behind.  When the
    invoice of a new bill on sequential numbering is written and the
    update of the firm's counter then fails, the save returns false and
    raises the alert of a failed save, yet it is not undone: the record
    stays in the store, the invoice on display is not given the assigned
    id, the local copy of the counter has advanced and the stored copy
    has not (the other failures of a save leave everything as it
    was). *)
Theorem counter_failure_fails_the_save (env : SaveEnv)
    (invoiceData : InvoiceData.t) (w : World) (uid newId : jsstring)
    (f : InvoiceFormat.t) :
  AppState.user (app w) = Some uid ->
  Js.truthy (InvoiceData.id invoiceData) = false ->
  sequentialFormat (AppState.firmDetails (app w)) = Some f ->
  invoiceCreate env = Some newId ->
  counterUpdate env = false ->
  let w' := after (handleSaveInvoice env invoiceData) w in
  result (handleSaveInvoice env invoiceData) w = Returned (Some false)
  /\ alerts w' = alerts w ++ [AlertSaveFailed]
  /\ Store.invoices (db w') !! newId
     = Some (withCreatedAt (Store.serverTime (db w))
               (finalDataToSave invoiceData))
  /\ AppState.currentInvoice (app w') = AppState.currentInvoice (app w)
  /\ AppState.editingInvoice (app w') = AppState.editingInvoice (app w)
  /\ AppState.view (app w') = AppState.view (app w)
  /\ localCounter w' = Some (nextNumber f)
  /\ (forall key, storedCounter key w' = storedCounter key w).
Proof.
  intros Hu Hid Hf Hc Hk w'. subst w'. unfold result, after.
  rewrite (save_new_counter_fail env invoiceData w uid Hu newId f Hid Hc Hf)
    by (left; exact Hk).
  destruct (sequentialFormat_advance _ f Hf) as (_ & _ & _ & Hcnt).
  cbn [fst snd app db alerts].
  split; [reflexivity|]. split; [reflexivity|].
  split; [simpl; apply lookup_insert_eq|].
  split; [reflexivity|]. split; [reflexivity|]. split; [reflexivity|].
  split; [exact Hcnt|]. intros key. reflexivity.
Qed.

(** C7. The code at the failing input: a new bill of a firm on
    sequential numbering from 1, the invoice is written under the id
    inv-1 and the update of the counter is refused.  The save returns
    false, not true, and raises the alert of a failed save; the invoice
    on display has no id, though its record is in the store. *)
Lemma counter_failure_is_not_success :
  result (newBill 0%Q (sampleBill counterFails)) startOneWorld
  = Returned (Some false, lit "1")
  /\ result (newBill 0%Q (sampleBill counterFails)) startOneWorld
     <> Returned (Some true, lit "1")
  /\ is_Some
       (Store.invoices
          (db (after (newBill 0%Q (sampleBill counterFails)) startOneWorld))
        !! lit "inv-1")
  /\ (AppState.currentInvoice
        (app (after (newBill 0%Q (sampleBill counterFails)) startOneWorld))
      ≫= InvoiceData.id) = None
  /\ alerts (after (newBill 0%Q (sampleBill counterFails)) startOneWorld)
     = [AlertSaveFailed].
Proof.
  assert (Hr : result (newBill 0%Q (sampleBill counterFails)) startOneWorld
               = Returned (Some false, lit "1")) by (vm_compute; reflexivity).
  split; [exact Hr|]. split; [rewrite Hr; discriminate|].
  split; [vm_compute; eauto|]. split; vm_compute; reflexivity.
Qed.

(** ** What a save writes *)

Lemma sanitizeItem_storedAs (item : BillItem.t) : storedAs item (sanitizeItem item).
Proof.
  unfold storedAs, sanitizeItem, sameOrDropped. simpl.
  repeat split;
    [destruct (BillItem.lineId item) as [[|]|]
    |destruct (Product.docId (BillItem.product item)) as [[|]|]]; reflexivity.
Qed.

Lemma sanitizeItem_id (item : BillItem.t) :
  BillItem.lineId item <> Some [] ->
  Product.docId (BillItem.product item) <> Some [] ->
  sanitizeItem item = item.
Proof.
  destruct item as [[pid pname pprice pdoc] q l r]. simpl.
  intros Hl Hd. unfold sanitizeItem. simpl.
  destruct l as [[|]|], pdoc as [[|]|]; simpl; congruence.
Qed.

Lemma sanitize_noEmptyIds (items : list BillItem.t) :
  noEmptyIds items -> List.map sanitizeItem items = items.
Proof.
  induction 1 as [|item items [Hl Hd] _ IH]; simpl; [reflexivity|].
  rewrite IH, (sanitizeItem_id item Hl Hd). reflexivity.
Qed.

Lemma sanitize_Forall2 (items : list BillItem.t) :
  Forall2 storedAs items (List.map sanitizeItem items).
Proof.
  induction items as [|item items IH]; simpl; constructor;
    [apply sanitizeItem_storedAs | exact IH].
Qed.

(** A save that returns true has written the invoice: under the id of
    the invoice when that is truthy, under a new id otherwise. *)
Lemma save_true_written (env : SaveEnv) (invoiceData : InvoiceData.t)
    (w : World) (uid : jsstring) :
  AppState.user (app w) = Some uid ->
  result (handleSaveInvoice env invoiceData) w = Returned (Some true) ->
  let w' := after (handleSaveInvoice env invoiceData) w in
  exists (savedId : jsstring) (doc : InvoiceDoc.t),
    Store.invoices (db w') !! savedId = Some doc
    /\ AppState.currentInvoice (app w')
       = Some (InvoiceData.with_id (Some savedId) invoiceData)
    /\ (if Js.truthy (InvoiceData.id invoiceData)
        then InvoiceData.id invoiceData = Some savedId
             /\ (exists old,
                   Store.invoices (db w) !! savedId = Some old
                   /\ doc = mergeInvoiceDoc old
                              (withUpdatedAt (Store.serverTime (db w))
                                 (finalDataToSave invoiceData)))
        else invoiceCreate env = Some savedId
             /\ doc = withCreatedAt (Store.serverTime (db w))
                        (finalDataToSave invoiceData)).
Proof.
  intros Hu Hr w'. subst w'. unfold result, after in *.
  destruct (Js.truthy (InvoiceData.id invoiceData)) eqn:Hid.
  - destruct (truthy_inv _ Hid) as (i & Hi & Hne).
    destruct (invoiceUpdate env) eqn:Hok;
      [destruct (Store.invoices (db w) !! i) as [old|] eqn:Hold|].
    + rewrite (save_existing_ok env invoiceData w uid Hu i old Hi Hne Hok Hold).
      exists i. eexists. simpl. rewrite lookup_insert_eq.
      split; [reflexivity|]. split; [reflexivity|].
      split; [exact Hi|]. exists old. split; [exact Hold|reflexivity].
    + rewrite (save_existing_fail env invoiceData w uid Hu i Hi Hne) in Hr
        by (right; assumption).
      discriminate.
    + rewrite (save_existing_fail env invoiceData w uid Hu i Hi Hne) in Hr
        by (left; assumption).
      discriminate.
  - destruct (invoiceCreate env) as [newId|] eqn:Hc.
    + destruct (sequentialFormat (AppState.firmDetails (app w))) as [f|] eqn:Hf.
      * destruct (counterUpdate env) eqn:Hk;
          [destruct (Store.firmDetails (db w) !! uid) as [stored|] eqn:Hst|].
        -- rewrite (save_new_sequential_ok env invoiceData w uid Hu newId f
                      stored Hid Hc Hf Hk Hst).
           exists newId. eexists. simpl. rewrite lookup_insert_eq.
           repeat split; reflexivity.
        -- rewrite (save_new_counter_fail env invoiceData w uid Hu newId f
                      Hid Hc Hf) in Hr by (right; assumption).
           discriminate.
        -- rewrite (save_new_counter_fail env invoiceData w uid Hu newId f
                      Hid Hc Hf) in Hr by (left; assumption).
           discriminate.
      * rewrite (save_new_freeform env invoiceData w uid Hu newId Hid Hc Hf).
        exists newId. eexists. simpl. rewrite lookup_insert_eq.
        repeat split; reflexivity.
    + rewrite (save_new_create_fail env invoiceData w uid Hu Hid Hc) in Hr.
      discriminate.
Qed.

(** C10, as the code has it. A save that succeeds stores the content
    of the preview as it is: the record has the preview's
    invoiceNumber, date, customerName, customerPhone, subtotal,
    gstAmount, grandTotal and owner, and its items in order, each with
    the product code, name, price, quantity and rate of the preview; a
    line id or document id is kept when it is present and not the empty
    string, and is dropped when it is absent or the empty string.  The
    save adds the id and a timestamp of the store and computes nothing
    anew; the invoice on display is the preview with that id. *)
Theorem save_persists_preview (env : SaveEnv) (preview : InvoiceData.t)
    (w : World) (uid : jsstring) :
  AppState.user (app w) = Some uid ->
  result (handleSaveInvoice env preview) w = Returned (Some true) ->
  let w' := after (handleSaveInvoice env preview) w in
  exists (savedId : jsstring) (doc : InvoiceDoc.t),
    Store.invoices (db w') !! savedId = Some doc
    /\ AppState.currentInvoice (app w')
       = Some (InvoiceData.with_id (Some savedId) preview)
    /\ InvoiceDoc.invoiceNumber doc = InvoiceData.invoiceNumber preview
    /\ InvoiceDoc.date doc = InvoiceData.date preview
    /\ InvoiceDoc.customerName doc = InvoiceData.customerName preview
    /\ InvoiceDoc.customerPhone doc = InvoiceData.customerPhone preview
    /\ InvoiceDoc.subtotal doc = InvoiceData.subtotal preview
    /\ InvoiceDoc.gstAmount doc = InvoiceData.gstAmount preview
    /\ InvoiceDoc.grandTotal doc = InvoiceData.grandTotal preview
    /\ InvoiceDoc.userId doc = InvoiceData.userId preview
    /\ Forall2 storedAs (InvoiceData.items preview) (InvoiceDoc.items doc)
    /\ (noEmptyIds (InvoiceData.items preview) ->
        InvoiceDoc.items doc = InvoiceData.items preview)
    /\ (if Js.truthy (InvoiceData.id preview)
        then InvoiceData.id preview = Some savedId
             /\ InvoiceDoc.updatedAt doc = Some (Store.serverTime (db w))
        else InvoiceDoc.createdAt doc = Some (Store.serverTime (db w))
             /\ InvoiceDoc.updatedAt doc = None).
Proof.
  intros Hu Hr w'.
  destruct (save_true_written env preview w uid Hu Hr)
    as (savedId & doc & Hdoc & Hcur & Hcase).
  exists savedId, doc. fold w' in Hdoc, Hcur.
  split; [exact Hdoc|]. split; [exact Hcur|].
  assert (Hitems : InvoiceDoc.items doc
                   = List.map sanitizeItem (InvoiceData.items preview)
                   /\ InvoiceDoc.invoiceNumber doc
                      = InvoiceData.invoiceNumber preview
                   /\ InvoiceDoc.date doc = InvoiceData.date preview
                   /\ InvoiceDoc.customerName doc
                      = InvoiceData.customerName preview
                   /\ InvoiceDoc.customerPhone doc
                      = InvoiceData.customerPhone preview
                   /\ InvoiceDoc.subtotal doc = InvoiceData.subtotal preview
                   /\ InvoiceDoc.gstAmount doc = InvoiceData.gstAmount preview
                   /\ InvoiceDoc.grandTotal doc = InvoiceData.grandTotal preview
                   /\ InvoiceDoc.userId doc = InvoiceData.userId preview).
  { destruct (Js.truthy (InvoiceData.id preview)).
    - destruct Hcase as (_ & old & _ & ->). repeat split; reflexivity.
    - destruct Hcase as (_ & ->). repeat split; reflexivity. }
  destruct Hitems as (Hi & Hn & Hd & Hcn & Hcp & Hs & Hg & Hgt & Hui).
  repeat (split; [assumption|]).
  split; [rewrite Hi; apply sanitize_Forall2|].
  split; [intros Hwf; rewrite Hi; apply sanitize_noEmptyIds; exact Hwf|].
  destruct (Js.truthy (InvoiceData.id preview)).
  - destruct Hcase as (Hid & old & _ & ->). split; [exact Hid|reflexivity].
  - destruct Hcase as (_ & ->). split; reflexivity.
Qed.

(** C10 as stated fails for a line id that is the empty string: it is
    there on the preview and is not on the stored record. *)
Lemma empty_line_id_is_dropped :
  result (handleSaveInvoice (acceptAll "inv-1") emptyLineIdPreview)
    freeformWorld = Returned (Some true)
  /\ BillItem.lineId <$> InvoiceData.items emptyLineIdPreview = [Some []]
  /\ (InvoiceDoc.items
      <$> Store.invoices
            (db (after (handleSaveInvoice (acceptAll "inv-1")
                          emptyLineIdPreview) freeformWorld))
          !! lit "inv-1")
     = Some [BillItem.mk (Product.mk 1 (lit "Oil") 100%Q None) 2%Q None
               (Some 5%Q)]
  /\ (InvoiceDoc.items
      <$> Store.invoices
            (db (after (handleSaveInvoice (acceptAll "inv-1")
                          emptyLineIdPreview) freeformWorld))
          !! lit "inv-1")
     <> Some (InvoiceData.items emptyLineIdPreview).
Proof.
  split; [vm_compute; reflexivity|].
  split; [reflexivity|]. split; [vm_compute; reflexivity|].
  vm_compute. discriminate.
Qed.

(** ** The sort and the customer list *)

Section Sort.

Context {A : Type} (cmp : A -> A -> Z).
Hypothesis consistent : ConsistentComparator cmp.

Let before (a b : A) : Prop := cmp a b <= 0.

Lemma insertSorted_Permutation (x : A) (l : list A) :
  insertSorted cmp x l ≡ₚ x :: l.
Proof.
  induction l as [|y l IH]; simpl; [reflexivity|].
  destruct (cmp x y <? 0); [reflexivity|].
  rewrite IH. apply Permutation_swap.
Qed.

Lemma insertSorted_sorted (x : A) (l : list A) :
  StronglySorted before l -> StronglySorted before (insertSorted cmp x l).
Proof.
  induction 1 as [|y l Hl IH Hy]; simpl.
  - repeat constructor.
  - destruct (Z.ltb_spec (cmp x y) 0) as [Hlt|Hge].
    + constructor; [constructor; assumption|].
      assert (Hxy : before x y) by (unfold before; lia).
      constructor; [exact Hxy|].
      eapply Forall_impl; [exact Hy|].
      intros z Hyz. exact (cmp_trans cmp consistent x y z Hxy Hyz).
    + constructor; [exact IH|].
      rewrite insertSorted_Permutation.
      constructor; [exact (cmp_flip cmp consistent x y Hge)|exact Hy].
Qed.

Lemma fold_insert_sorted (l acc : list A) :
  StronglySorted before acc ->
  StronglySorted before (fold_left (fun acc x => insertSorted cmp x acc) l acc).
Proof.
  revert acc. induction l as [|x l IH]; intros acc Hacc; simpl;
    [exact Hacc|].
  apply IH, insertSorted_sorted, Hacc.
Qed.

Lemma fold_insert_Permutation (l acc : list A) :
  fold_left (fun acc x => insertSorted cmp x acc) l acc ≡ₚ acc ++ l.
Proof.
  revert acc. induction l as [|x l IH]; intros acc; simpl.
  - rewrite app_nil_r. reflexivity.
  - rewrite IH, insertSorted_Permutation.
    simpl. apply Permutation_middle.
Qed.

Lemma jsSort_sorted (l : list A) : StronglySorted before (jsSort cmp l).
Proof. apply fold_insert_sorted. constructor. Qed.

Lemma jsSort_Permutation (l : list A) : jsSort cmp l ≡ₚ l.
Proof. unfold jsSort. rewrite fold_insert_Permutation. reflexivity. Qed.

Lemma filter_sorted (p : A -> bool) (l : list A) :
  StronglySorted before l -> StronglySorted before (List.filter p l).
Proof.
  induction 1 as [|y l Hl IH Hy]; simpl; [constructor|].
  destruct (p y); [|exact IH].
  constructor; [exact IH|].
  apply Forall_forall. intros z Hz. apply list_elem_of_In in Hz.
  apply filter_In in Hz as [Hz _].
  rewrite Forall_forall in Hy. apply Hy, list_elem_of_In, Hz.
Qed.

End Sort.

Lemma byName_consistent (localeCompare : jsstring -> jsstring -> Z) :
  ConsistentComparator localeCompare ->
  ConsistentComparator (byName localeCompare).
Proof.
  intros [Hflip Htrans]. split; unfold byName.
  - intros a b. apply Hflip.
  - intros a b c. apply Htrans.
Qed.

Lemma codeUnitCompare_consistent : ConsistentComparator codeUnitCompare.
Proof.
  split.
  - induction a as [|x a IH]; destruct b as [|y b]; simpl; try lia.
    destruct (N.ltb_spec x y), (N.ltb_spec y x); try lia. apply IH.
  - induction a as [|x a IH]; destruct b as [|y b], c as [|z c]; simpl;
      try lia.
    destruct (N.ltb_spec x y), (N.ltb_spec y x), (N.ltb_spec y z),
      (N.ltb_spec z y), (N.ltb_spec x z), (N.ltb_spec z x);
      try lia.
    apply IH.
Qed.

(** C8. With a collation that is a consistent comparator: after a
    customer is added and after a customer is updated, the store call
    accepted, the customer list is sorted by name (and holds the
    customers it should); deleting a customer leaves a sorted list
    sorted, whether the deletion is confirmed, accepted, or not. *)
Theorem customers_sorted_by_name (localeCompare : jsstring -> jsstring -> Z) :
  ConsistentComparator localeCompare ->
  (forall (w : World) (uid newId : jsstring) (customer : Customer.input),
     AppState.user (app w) = Some uid ->
     let w' := after (handleAddCustomer localeCompare (Some newId) customer) w in
     sortedByName localeCompare (AppState.customers (app w'))
     /\ AppState.customers (app w')
        ≡ₚ AppState.customers (app w) ++ [Customer.ofInput newId uid customer])
  /\ (forall (w : World) (id : jsstring) (data : Customer.patch),
        is_Some (Store.customers (db w) !! id) ->
        let w' := after (handleUpdateCustomer localeCompare true id data) w in
        sortedByName localeCompare (AppState.customers (app w'))
        /\ AppState.customers (app w')
           ≡ₚ List.map
                (fun c => if decide (Customer.id c = id)
                          then Customer.merge c data else c)
                (AppState.customers (app w)))
  /\ (forall (w : World) (confirmed ok : bool) (id : jsstring),
        sortedByName localeCompare (AppState.customers (app w)) ->
        let w' := after (handleDeleteCustomer confirmed ok id) w in
        sortedByName localeCompare (AppState.customers (app w'))
        /\ (confirmed = true -> ok = true ->
            forall c, c ∈ AppState.customers (app w') <->
                      c ∈ AppState.customers (app w) /\ Customer.id c <> id)).
Proof.
  intros Hcmp. pose proof (byName_consistent _ Hcmp) as Hby.
  split; [|split].
  - intros w uid newId customer Hu w'. subst w'.
    unfold after, handleAddCustomer, tryCatch, addCustomerDoc, mbind, M_bind,
      getApp, putDb, setState, mret, M_ret. simpl. rewrite Hu. simpl.
    split; [apply jsSort_sorted, Hby|apply jsSort_Permutation].
  - intros w id data [old Hold] w'. subst w'.
    unfold after, handleUpdateCustomer, tryCatch, updateCustomerDoc, mbind,
      M_bind, getDb, putDb, setState. simpl. rewrite Hold. simpl.
    split; [apply jsSort_sorted, Hby|apply jsSort_Permutation].
  - intros w confirmed ok id Hs w'. subst w'.
    unfold after, handleDeleteCustomer, tryCatch, deleteCustomerDoc, mbind,
      M_bind, putDb, setState, alert, throw, mret, M_ret.
    destruct confirmed, ok; simpl; (split; [|intros; try discriminate]);
      try exact Hs.
    + apply filter_sorted, Hs.
    + rewrite !list_elem_of_In, filter_In, negb_true_iff,
        bool_decide_eq_false. reflexivity.
Qed.

(** ** The custom prefix of the firm setup form *)

Lemma upperChar_isUpperAlnum (c : N) :
  Js.isAlnum c = true -> Js.isUpperAlnum (Js.upperChar c) = true.
Proof.
  unfold Js.isAlnum, Js.isUpperAlnum, Js.upperChar.
  destruct ((97 <=? c)%N && (c <=? 122)%N) eqn:Hlow.
  - intros _. apply andb_true_iff in Hlow as [H1 H2].
    apply N.leb_le in H1, H2.
    apply orb_true_iff. right. apply andb_true_iff.
    split; apply N.leb_le; lia.
  - rewrite orb_false_r. intros H. exact H.
Qed.

Lemma toUpperCase_strip_upperAlnum (s : jsstring) :
  forallb Js.isUpperAlnum (Js.toUpperCase (Js.stripNonAlnum s)) = true.
Proof.
  unfold Js.toUpperCase, Js.stripNonAlnum.
  induction s as [|c s IH]; simpl; [reflexivity|].
  destruct (Js.isAlnum c) eqn:Hc; simpl; [|exact IH].
  rewrite (upperChar_isUpperAlnum c Hc), IH. reflexivity.
Qed.

Lemma forallb_take {A} (p : A -> bool) (n : nat) (l : list A) :
  forallb p l = true -> forallb p (take n l) = true.
Proof.
  revert n. induction l as [|x l IH]; intros [|n]; simpl; try reflexivity.
  intros H. apply andb_true_iff in H as [Hx Hl].
  rewrite Hx, (IH n Hl). reflexivity.
Qed.

Lemma sanitized_valid (value : jsstring) :
  FirmSetup.validPrefix (take 10 (Js.toUpperCase (Js.stripNonAlnum value))).
Proof.
  split.
  - apply forallb_take, toUpperCase_strip_upperAlnum.
  - rewrite length_take. lia.
Qed.

Module FirmSetupFacts.
Import FirmSetup.

Local Open Scope string_scope.

Lemma nil_valid : validPrefix [].
Proof. split; [reflexivity|simpl; lia]. Qed.

Lemma checkboxName_not_prefix (c : Checkbox) :
  checkboxName c <> "customInvoicePrefix".
Proof. destruct c; discriminate. Qed.

Lemma initialState_ok (existing : option FirmDoc) :
  docOk existing -> prefixOk (displaySettingsState (initialState existing)).
Proof.
  intros Hd. unfold prefixOk, initialState. simpl.
  rewrite lookup_insert_eq.
  destruct existing as [d|]; simpl.
  - destruct Hd as (p & -> & Hp). destruct p as [|c p].
    + exists []. split; [reflexivity|apply nil_valid].
    + exists (c :: p). split; [reflexivity|exact Hp].
  - exists []. split; [reflexivity|apply nil_valid].
Qed.

Lemma step_ok (s : State) (e : Event) :
  prefixOk (displaySettingsState s) -> prefixOk (displaySettingsState (step s e)).
Proof.
  intros (p & Hp & Hv). destruct e as [i v|c b|t v]; simpl.
  - exists p. split; assumption.
  - exists p. split; [|exact Hv].
    rewrite lookup_insert_ne by apply checkboxName_not_prefix. exact Hp.
  - destruct t; unfold handleDisplaySettingTextChange; simpl.
    + eexists. split; [apply lookup_insert_eq|apply sanitized_valid].
    + exists p. split; [|exact Hv].
      rewrite lookup_insert_ne by discriminate. exact Hp.
    + exists p. split; [|exact Hv].
      rewrite lookup_insert_ne by discriminate. exact Hp.
Qed.

Lemma steps_ok (es : list Event) (s : State) :
  prefixOk (displaySettingsState s) ->
  prefixOk (displaySettingsState (fold_left step es s)).
Proof.
  revert s. induction es as [|e es IH]; intros s Hs; simpl; [exact Hs|].
  apply IH, step_ok, Hs.
Qed.

Lemma session_ok (uid : jsstring) (existing : option FirmDoc) (v : Session) :
  docOk existing -> docOk (session uid existing v).
Proof.
  intros Hd. unfold session. destruct (setDocOk v); [|exact Hd].
  simpl. apply steps_ok, initialState_ok, Hd.
Qed.

Lemma sessions_from_ok (uid : jsstring) (vs : list Session)
    (existing : option FirmDoc) :
  docOk existing -> docOk (fold_left (session uid) vs existing).
Proof.
  revert existing. induction vs as [|v vs IH]; intros existing Hd; simpl;
    [exact Hd|].
  apply IH, session_ok, Hd.
Qed.

End FirmSetupFacts.

(** C9. Every custom invoice prefix that is stored through the firm
    setup form consists of characters of [A-Z0-9] only and is at most
    10 characters long: the input handler strips what is not
    alphanumeric, uppercases and truncates to 10 characters, and after
    any series of visits of the form, whatever is typed, ticked and
    submitted, the prefix of the firm document is of that form. *)
Theorem stored_prefix_is_sanitized (uid : jsstring)
    (visits : list FirmSetup.Session) (d : FirmSetup.FirmDoc) :
  FirmSetup.sessions uid visits = Some d ->
  (exists p, FirmSetup.storedPrefix d = Some (FirmSetup.VStr p)
             /\ FirmSetup.validPrefix p)
  /\ (forall (s : FirmSetup.State) (value : jsstring),
        let s' := FirmSetup.handleDisplaySettingTextChange "customInvoicePrefix"
                    value s in
        FirmSetup.displaySettingsState s' !! "customInvoicePrefix"%string
        = Some (FirmSetup.VStr
                  (take 10 (Js.toUpperCase (Js.stripNonAlnum value))))
        /\ FirmSetup.validPrefix
             (take 10 (Js.toUpperCase (Js.stripNonAlnum value)))).
Proof.
  intros Hd. split.
  - pose proof (FirmSetupFacts.sessions_from_ok uid visits None I) as Hok.
    unfold FirmSetup.sessions in Hd. rewrite Hd in Hok. exact Hok.
  - intros s value s'. subst s'.
    unfold FirmSetup.handleDisplaySettingTextChange. simpl.
    split; [apply lookup_insert_eq|apply sanitized_valid].
Qed.

(** ** The derived prefix *)

Section Words.

Import Js.

Lemma isSpace_not_alnum (c : N) : isSpace c = true -> isAlnum c = false.
Proof.
  intros H. destruct (isAlnum c) eqn:E; [exfalso|reflexivity].
  unfold isSpace in H. unfold isAlnum in E.
  repeat match goal with
         | H : _ || _ = true |- _ => apply orb_true_iff in H as [H|H]
         | H : _ && _ = true |- _ => apply andb_true_iff in H as [? ?]
         | H : (_ <=? _)%N = true |- _ => apply N.leb_le in H
         | H : (_ =? _)%N = true |- _ => apply N.eqb_eq in H
         end; lia.
Qed.

Lemma stripNonAlnum_app (s t : jsstring) :
  stripNonAlnum (s ++ t) = stripNonAlnum s ++ stripNonAlnum t.
Proof. apply List.filter_app. Qed.

(** Stripping a name is stripping its words. *)
Lemma strip_words_go (s cur : jsstring) :
  concat (List.map stripNonAlnum (Spec.words_go cur s))
  = stripNonAlnum cur ++ stripNonAlnum s.
Proof.
  revert cur. induction s as [|c s IH]; intros cur; simpl.
  - destruct cur; simpl; rewrite ?app_nil_r; reflexivity.
  - destruct (isSpace c) eqn:Hc.
    + rewrite (isSpace_not_alnum c Hc).
      destruct cur as [|x cur]; [apply IH|].
      cbn [List.map concat]. rewrite IH. reflexivity.
    + rewrite IH, stripNonAlnum_app, <- app_assoc. f_equal.
      unfold stripNonAlnum. simpl. destruct (isAlnum c); reflexivity.
Qed.

Lemma strip_words (s : jsstring) :
  stripNonAlnum s = concat (List.map stripNonAlnum (Spec.words s)).
Proof. unfold Spec.words. rewrite strip_words_go. reflexivity. Qed.

(** White space in front of a name and behind it makes no word. *)
Lemma words_go_dropWhile (s : jsstring) :
  Spec.words_go [] (dropWhile isSpace s) = Spec.words_go [] s.
Proof.
  induction s as [|c s IH]; simpl; [reflexivity|].
  destruct (isSpace c) eqn:Hc; [exact IH|].
  simpl. rewrite Hc. reflexivity.
Qed.

Lemma words_go_spaces (ws cur : jsstring) :
  forallb isSpace ws = true ->
  Spec.words_go cur ws = match cur with [] => [] | _ => [cur] end.
Proof.
  revert cur. induction ws as [|c ws IH]; intros cur H; simpl;
    [reflexivity|].
  simpl in H. apply andb_true_iff in H as [Hc Hws]. rewrite Hc.
  destruct cur; rewrite (IH [] Hws); reflexivity.
Qed.

Lemma words_go_app_spaces (t ws cur : jsstring) :
  forallb isSpace ws = true ->
  Spec.words_go cur (t ++ ws) = Spec.words_go cur t.
Proof.
  intros Hws. revert cur. induction t as [|c t IH]; intros cur; simpl.
  - apply words_go_spaces, Hws.
  - destruct (isSpace c); [destruct cur|]; rewrite IH; reflexivity.
Qed.

Lemma dropWhile_split (s : jsstring) :
  exists ws, forallb isSpace ws = true /\ s = ws ++ dropWhile isSpace s.
Proof.
  induction s as [|c s (ws & Hws & IH)]; simpl.
  - exists []. split; reflexivity.
  - destruct (isSpace c) eqn:Hc.
    + exists (c :: ws). simpl. rewrite Hc, Hws. split; [reflexivity|].
      f_equal. exact IH.
    + exists []. split; reflexivity.
Qed.

Lemma dropWhile_head (s r : jsstring) (c : N) :
  dropWhile isSpace s = c :: r -> isSpace c = false.
Proof.
  induction s as [|x s IH]; simpl; [discriminate|].
  destruct (isSpace x) eqn:Hx; [exact IH|].
  intros H. injection H as <- _. exact Hx.
Qed.

Lemma forallb_rev {A} (p : A -> bool) (l : list A) :
  forallb p l = true -> forallb p (rev l) = true.
Proof.
  rewrite !forallb_forall. intros H x Hx. apply H, in_rev, Hx.
Qed.

(** A name without the white space in front is its trimmed form
    followed by white space. *)
Lemma trim_split (s : jsstring) :
  exists ws, forallb isSpace ws = true
             /\ dropWhile isSpace s = trim s ++ ws.
Proof.
  destruct (dropWhile_split (rev (dropWhile isSpace s))) as (ws & Hws & H).
  exists (rev ws). split; [apply forallb_rev, Hws|].
  unfold trim. rewrite <- rev_app_distr, <- H, rev_involutive. reflexivity.
Qed.

Lemma words_trim (s : jsstring) : Spec.words (trim s) = Spec.words s.
Proof.
  unfold Spec.words. destruct (trim_split s) as (ws & Hws & H).
  rewrite <- (words_go_dropWhile s), H, (words_go_app_spaces _ ws [] Hws).
  reflexivity.
Qed.

Lemma endsOk_snoc (s : jsstring) (c : N) (b : bool) :
  endsOk b (s ++ [c]) = negb (isSpace c).
Proof. revert b. induction s as [|x s IH]; intros b; simpl; [reflexivity|apply IH]. Qed.

Lemma trim_endsOk (s : jsstring) : endsOk true (trim s) = true.
Proof.
  unfold trim.
  destruct (dropWhile isSpace (rev (dropWhile isSpace s))) as [|c r] eqn:E;
    [reflexivity|].
  simpl. rewrite endsOk_snoc, (dropWhile_head _ _ _ E). reflexivity.
Qed.

Lemma trim_head (s r : jsstring) (c : N) :
  trim s = c :: r -> isSpace c = false.
Proof.
  intros H. destruct (trim_split s) as (ws & _ & E). rewrite H in E.
  exact (dropWhile_head _ _ _ E).
Qed.

(** On a string that does not end in white space, [split] on white
    space and the words agree, while [split] is inside a piece or
    has just closed one. *)
Lemma split_go_words_go (s cur : jsstring) (inSep : bool) :
  endsOk (negb inSep) s = true ->
  (inSep = true -> cur = []) ->
  (inSep = false -> cur <> []) ->
  split_go inSep cur s = Spec.words_go cur s.
Proof.
  revert cur inSep. induction s as [|c s IH]; intros cur inSep He Ht Hf; simpl.
  - destruct inSep; [discriminate|].
    destruct cur; [exfalso; apply Hf; reflexivity|reflexivity].
  - simpl in He. destruct (isSpace c) eqn:Hc.
    + destruct inSep.
      * rewrite (Ht eq_refl). apply IH; [exact He|reflexivity|discriminate].
      * destruct cur as [|x cur]; [exfalso; apply Hf; reflexivity|].
        f_equal. apply IH; [exact He|reflexivity|discriminate].
    + apply IH; [exact He|discriminate|].
      intros _. destruct cur; discriminate.
Qed.

Lemma splitWs_trim (s : jsstring) :
  trim s <> [] -> splitWs (trim s) = Spec.words s.
Proof.
  intros Hne. rewrite <- words_trim. pose proof (trim_endsOk s) as He.
  destruct (trim s) as [|c t] eqn:E; [congruence|].
  pose proof (trim_head s t c E) as Hc.
  unfold splitWs, Spec.words. simpl in *. rewrite Hc in *.
  apply split_go_words_go; [exact He|discriminate|discriminate].
Qed.

Lemma words_blank (s : jsstring) : trim s = [] -> Spec.words s = [].
Proof. intros H. rewrite <- words_trim, H. reflexivity. Qed.

Lemma take_min_length {A} (n : nat) (l : list A) :
  take (Nat.min n (length l)) l = take n l.
Proof.
  destruct (Nat.min_spec n (length l)) as [[_ ->]|[Hle ->]]; [reflexivity|].
  rewrite firstn_all. symmetry. apply take_ge. exact Hle.
Qed.

Lemma joinDefined_heads (l : list jsstring) :
  joinDefined (List.map (fun w => head (stripNonAlnum w)) l)
  = concat (List.map (fun w => take 1 (stripNonAlnum w)) l).
Proof.
  induction l as [|w l IH]; simpl; [reflexivity|].
  unfold joinDefined in *. simpl. rewrite IH.
  destruct (stripNonAlnum w); reflexivity.
Qed.

Lemma toUpperCase_concat (l : list jsstring) :
  toUpperCase (concat l) = concat (List.map toUpperCase l).
Proof. unfold toUpperCase. apply concat_map. Qed.

Lemma toUpperCase_take (n : nat) (s : jsstring) :
  toUpperCase (take n s) = take n (toUpperCase s).
Proof. unfold toUpperCase. symmetry. apply firstn_map. Qed.

(** The initials, as the code takes them and as the specification
    does. *)
Lemma initials_eq (ws : list jsstring) :
  toUpperCase
    (joinDefined
       (List.map (fun w => head (stripNonAlnum w))
          (take (Nat.min 5 (length ws)) ws)))
  = concat (List.map (take 1) (take 5 (List.map Spec.cleanWord ws))).
Proof.
  rewrite take_min_length, joinDefined_heads, toUpperCase_concat.
  rewrite firstn_map, !List.map_map. f_equal.
  apply List.map_ext. intros w. apply toUpperCase_take.
Qed.

(** The code derives the prefix that the specification describes. *)
Lemma generateInvoicePrefix_spec (name : jsstring) :
  generateInvoicePrefix (Some name) = Spec.derivedPrefix name.
Proof.
  destruct name as [|c0 n0]; [reflexivity|].
  unfold generateInvoicePrefix, Spec.derivedPrefix.
  destruct (trim (c0 :: n0)) as [|c t] eqn:E.
  - rewrite (words_blank _ E). reflexivity.
  - assert (Hne : trim (c0 :: n0) <> []) by (rewrite E; discriminate).
    rewrite <- E, (splitWs_trim _ Hne).
    rewrite (strip_words (c0 :: n0)).
    destruct (Spec.words (c0 :: n0)) as [|w [|w2 [|w3 ws]]].
    + reflexivity.
    + cbn [List.map concat]. rewrite app_nil_r, take_min_length.
      reflexivity.
    + reflexivity.
    + rewrite initials_eq. reflexivity.
Qed.

End Words.

Lemma customPrefix_spec (firm : option FirmDetails.t) :
  customPrefix firm = Spec.configuredPrefix firm.
Proof.
  destruct firm as [d|]; [|reflexivity]. unfold Spec.configuredPrefix. simpl.
  destruct (FirmDetails.displaySettings d); reflexivity.
Qed.



(** ** The properties on the sample data *)

Lemma bill_totals_witness :
  AppState.user (app freeformWorld) = Some sampleUid
  /\ exists preview,
       AppState.currentInvoice
         (app (after (handleGenerateBill 0%Q 0 (lit "Asha") (lit "98250")
                        exampleItems 0) freeformWorld)) = Some preview
       /\ (InvoiceData.subtotal preview == 250)%Q
       /\ (InvoiceData.gstAmount preview == 19)%Q
       /\ (InvoiceData.grandTotal preview == 269)%Q.
Proof.
  split; [reflexivity|].
  destruct (bill_totals 0%Q freeformWorld sampleUid 0 (lit "Asha")
              (lit "98250") exampleItems 0 eq_refl)
    as (preview & Hc & _ & _ & _ & _ & _ & Hex).
  exists preview. split; [exact Hc|]. apply Hex. reflexivity.
Defined.


Lemma edit_resave_keeps_number_and_id_witness :
  AppState.user (app editingWorld) = Some sampleUid
  /\ InvoiceData.id storedInvoice = Some (lit "inv-7")
  /\ lit "inv-7" <> []
  /\ fst (editAndResave 0%Q storedInvoice (sampleBill (acceptAll "unused"))
            editingWorld)
     = Returned (Some true, lit "SOM-3").
Proof.
  split; [reflexivity|]. split; [reflexivity|]. split; [discriminate|].
  destruct (edit_resave_keeps_number_and_id 0%Q editingWorld sampleUid
              storedInvoice (lit "inv-7") (sampleBill (acceptAll "unused"))
              eq_refl eq_refl ltac:(discriminate))
    as (saved & Hr & Hiff & _).
  rewrite Hr. destruct saved; [reflexivity|].
  exfalso. assert (H : false = true); [|discriminate H].
  apply Hiff. split; [reflexivity|]. vm_compute. eauto.
Defined.


Lemma counter_advances_only_on_create_witness :
  AppState.user (app sequentialWorld) = Some sampleUid
  /\ sequentialFormat (AppState.firmDetails (app sequentialWorld))
     = Some (sequentialFrom (Some 5) None)
  /\ is_Some (Store.firmDetails (db sequentialWorld) !! sampleUid)
  /\ allSucceed [sampleBill (acceptAll "inv-1"); sampleBill (acceptAll "inv-2")]
  /\ result
       (newBills 0%Q
          [sampleBill (acceptAll "inv-1"); sampleBill (acceptAll "inv-2")])
       sequentialWorld
     = Returned [(Some true, lit "SOM-5"); (Some true, lit "SOM-6")]
  /\ localCounter
       (after
          (newBills 0%Q
             [sampleBill (acceptAll "inv-1"); sampleBill (acceptAll "inv-2")])
          sequentialWorld) = Some 6.
Proof.
  assert (Hs : is_Some (Store.firmDetails (db sequentialWorld) !! sampleUid))
    by (vm_compute; eauto).
  assert (Ha : allSucceed
                 [sampleBill (acceptAll "inv-1"); sampleBill (acceptAll "inv-2")])
    by (repeat constructor; simpl; eauto).
  split; [reflexivity|]. split; [reflexivity|]. split; [exact Hs|].
  split; [exact Ha|].
  destruct (counter_advances_only_on_create 0%Q sampleUid) as (_ & _ & Hn).
  destruct (Hn sequentialWorld (sequentialFrom (Some 5) None)
              [sampleBill (acceptAll "inv-1"); sampleBill (acceptAll "inv-2")]
              eq_refl eq_refl Hs Ha)
    as (Hr & _ & Hc & _).
  split; [rewrite Hr; reflexivity|].
  destruct Hc as [Hl _]; [discriminate|]. rewrite Hl. reflexivity.
Defined.

Lemma failed_create_changes_nothing_witness :
  AppState.user (app sequentialWorld) = Some sampleUid
  /\ Js.truthy (InvoiceData.id emptyLineIdPreview) = false
  /\ invoiceCreate createFails = None
  /\ result (handleSaveInvoice createFails emptyLineIdPreview) sequentialWorld
     = Returned (Some false)
  /\ db (after (handleSaveInvoice createFails emptyLineIdPreview)
           sequentialWorld) = db sequentialWorld.
Proof.
  split; [reflexivity|]. split; [reflexivity|]. split; [reflexivity|].
  destruct (failed_create_changes_nothing createFails emptyLineIdPreview
              sequentialWorld sampleUid eq_refl eq_refl eq_refl)
    as (Hr & _ & _ & _ & _ & _ & _ & Hdb).
  split; [exact Hr|exact Hdb].
Defined.

Lemma counter_failure_fails_the_save_witness :
  AppState.user (app sequentialWorld) = Some sampleUid
  /\ Js.truthy (InvoiceData.id emptyLineIdPreview) = false
  /\ sequentialFormat (AppState.firmDetails (app sequentialWorld))
     = Some (sequentialFrom (Some 5) None)
  /\ invoiceCreate counterFails = Some (lit "inv-1")
  /\ counterUpdate counterFails = false
  /\ result (handleSaveInvoice counterFails emptyLineIdPreview) sequentialWorld
     = Returned (Some false)
  /\ localCounter
       (after (handleSaveInvoice counterFails emptyLineIdPreview)
          sequentialWorld) = Some 5.
Proof.
  split; [reflexivity|]. split; [reflexivity|]. split; [reflexivity|].
  split; [reflexivity|]. split; [reflexivity|].
  destruct (counter_failure_fails_the_save counterFails emptyLineIdPreview
              sequentialWorld sampleUid (lit "inv-1")
              (sequentialFrom (Some 5) None)
              eq_refl eq_refl eq_refl eq_refl eq_refl)
    as (Hr & _ & _ & _ & _ & _ & Hl & _).
  split; [exact Hr|exact Hl].
Defined.

Lemma customers_sorted_by_name_witness :
  ConsistentComparator codeUnitCompare
  /\ AppState.user (app customersWorld) = Some sampleUid
  /\ Customer.name <$> AppState.customers (app customersWorld)
     = [lit "Asha"; lit "Chitra"]
  /\ sortedByName codeUnitCompare
       (AppState.customers
          (app (after (handleAddCustomer codeUnitCompare (Some (lit "c2"))
                         (Customer.mkInput (lit "Bina") None None None))
                  customersWorld)))
  /\ Customer.name
       <$> AppState.customers
             (app (after (handleAddCustomer codeUnitCompare (Some (lit "c2"))
                            (Customer.mkInput (lit "Bina") None None None))
                     customersWorld))
     = [lit "Asha"; lit "Bina"; lit "Chitra"].
Proof.
  split; [exact codeUnitCompare_consistent|]. split; [reflexivity|].
  split; [reflexivity|].
  destruct (customers_sorted_by_name codeUnitCompare codeUnitCompare_consistent)
    as (Hadd & _ & _).
  split.
  - exact (proj1 (Hadd customersWorld sampleUid (lit "c2")
                    (Customer.mkInput (lit "Bina") None None None) eq_refl)).
  - vm_compute. reflexivity.
Defined.

Lemma stored_prefix_is_sanitized_witness :
  exists d,
    FirmSetup.sessions sampleUid [sampleVisit] = Some d
    /\ exists p, FirmSetup.storedPrefix d = Some (FirmSetup.VStr p)
                 /\ FirmSetup.validPrefix p.
Proof.
  eexists. split; [vm_compute; reflexivity|].
  refine (proj1 (stored_prefix_is_sanitized sampleUid [sampleVisit] _ _)).
  vm_compute. reflexivity.
Defined.

Lemma save_persists_preview_witness :
  AppState.user (app editingWorld) = Some sampleUid
  /\ result (handleSaveInvoice (acceptAll "inv-1") storedInvoice) editingWorld
     = Returned (Some true)
  /\ exists doc,
       Store.invoices
         (db (after (handleSaveInvoice (acceptAll "inv-1") storedInvoice)
                editingWorld)) !! lit "inv-7" = Some doc
       /\ InvoiceDoc.invoiceNumber doc = lit "SOM-3"
       /\ InvoiceDoc.items doc = exampleItems.
Proof.
  assert (Hr : result (handleSaveInvoice (acceptAll "inv-1") storedInvoice)
                 editingWorld = Returned (Some true))
    by (vm_compute; reflexivity).
  split; [reflexivity|]. split; [exact Hr|].
  destruct (save_persists_preview (acceptAll "inv-1") storedInvoice
              editingWorld sampleUid eq_refl Hr)
    as (savedId & doc & Hd & _ & Hn & _ & _ & _ & _ & _ & _ & _ & _ & Hi & Hid).
  simpl in Hid. destruct Hid as [Hid _]. injection Hid as <-.
  exists doc. split; [exact Hd|]. split; [exact Hn|].
  apply Hi. repeat constructor; discriminate.
Defined.

(** * Further properties *)

(** ** The calculator *)

Section CalculatorMore.

Variable GST_RATE : Q.
Local Open Scope Q_scope.

Lemma sum_nonneg (l : list Q) : Forall (fun x => 0 <= x) l -> 0 <= Spec.sum l.
Proof.
  induction 1 as [|x l Hx _ IH]; simpl; lra.
Qed.

Lemma sum_le (f g : BillItem.t -> Q) (l : list BillItem.t) :
  Forall (fun x => f x <= g x) l ->
  Spec.sum (List.map f l) <= Spec.sum (List.map g l).
Proof.
  induction 1 as [|x l Hx _ IH]; simpl; lra.
Qed.

Lemma lineAmount_nonneg (item : BillItem.t) :
  plausibleItem GST_RATE item -> 0 <= Spec.lineAmount item.
Proof.
  intros (Hp & Hq & _). unfold Spec.lineAmount.
  apply Qmult_le_0_compat; assumption.
Qed.

Lemma lineTax_bounds (item : BillItem.t) :
  plausibleItem GST_RATE item ->
  0 <= Spec.lineTax (GST_RATE * 100) item
  /\ Spec.lineTax (GST_RATE * 100) item <= Spec.lineAmount item.
Proof.
  intros H. pose proof (lineAmount_nonneg item H) as Ha.
  destruct H as (_ & _ & Hr0 & Hr1).
  unfold Spec.lineTax, Spec.effectiveTaxRate. unfold ratePercent in Hr0, Hr1.
  set (a := Spec.lineAmount item) in *.
  set (r := match BillItem.gstRate item with
            | Some r => r
            | None => GST_RATE * 100
            end) in *.
  assert (H0 : 0 <= r / 100) by (apply Qle_shift_div_l; [reflexivity|lra]).
  assert (H1 : r / 100 <= 1) by (apply Qle_shift_div_r; [reflexivity|lra]).
  split; [apply Qmult_le_0_compat; assumption|].
  rewrite <- (Qmult_1_r a) at 2.
  rewrite !(Qmult_comm a). apply Qmult_le_compat_r; assumption.
Qed.

Lemma sum_ext (f g : BillItem.t -> Q) (l : list BillItem.t) :
  (forall x, f x == g x) ->
  Spec.sum (List.map f l) == Spec.sum (List.map g l).
Proof.
  intros H. induction l as [|x l IH]; simpl; [reflexivity|].
  rewrite IH, (H x). reflexivity.
Qed.

Lemma sum_scale (f : BillItem.t -> Q) (c : Q) (l : list BillItem.t) :
  Spec.sum (List.map (fun x => f x * c) l) == Spec.sum (List.map f l) * c.
Proof.
  induction l as [|x l IH]; simpl; [ring|]. rewrite IH. ring.
Qed.

Lemma lineTax_default (item : BillItem.t) :
  BillItem.gstRate item = None ->
  Spec.lineTax (GST_RATE * 100) item == Spec.lineAmount item * GST_RATE.
Proof.
  intros H. unfold Spec.lineTax, Spec.effectiveTaxRate. rewrite H. field.
Qed.

Lemma lineTax_shown (item : BillItem.t) :
  shownLineTax GST_RATE item == Spec.lineTax (GST_RATE * 100) item.
Proof.
  unfold shownLineTax, Spec.lineTax, Spec.effectiveTaxRate, Spec.lineAmount.
  field.
Qed.

Lemma billGstAmount_flat (items : list BillItem.t) :
  Forall (fun item => BillItem.gstRate item = None) items ->
  billGstAmount GST_RATE items == billSubtotal items * GST_RATE.
Proof.
  intros H. rewrite billGstAmount_sum, billSubtotal_sum, <- sum_scale.
  induction H as [|x l Hx _ IH]; simpl; [reflexivity|].
  rewrite IH, (lineTax_default x Hx). reflexivity.
Qed.

End CalculatorMore.

(** X1. For a signed-in user and lines with price and quantity not
    negative and rates between 0 and 100, the preview has
    0 <= subtotal, 0 <= gstAmount <= subtotal and
    subtotal <= grandTotal <= 2 * subtotal. *)
Theorem totals_within_bounds (GST_RATE : Q) (w : World) (uid : jsstring)
    (now : Z) (customerName customerPhone : jsstring)
    (items : list BillItem.t) (billDate : Z) :
  AppState.user (app w) = Some uid ->
  Forall (plausibleItem GST_RATE) items ->
  exists preview,
    AppState.currentInvoice
      (app (after (handleGenerateBill GST_RATE now customerName customerPhone
                     items billDate) w)) = Some preview
    /\ (0 <= InvoiceData.subtotal preview)%Q
    /\ (0 <= InvoiceData.gstAmount preview)%Q
    /\ (InvoiceData.gstAmount preview <= InvoiceData.subtotal preview)%Q
    /\ (InvoiceData.subtotal preview <= InvoiceData.grandTotal preview)%Q
    /\ (InvoiceData.grandTotal preview <= 2 * InvoiceData.subtotal preview)%Q.
Proof.
  intros Hu Hitems. unfold after.
  rewrite (handleGenerateBill_signed_in GST_RATE w uid) by exact Hu.
  eexists. split; [reflexivity|]. simpl.
  assert (Hs : (0 <= billSubtotal items)%Q).
  { rewrite billSubtotal_sum. apply sum_nonneg, Forall_map.
    eapply Forall_impl; [exact Hitems|]. apply lineAmount_nonneg. }
  assert (Hg0 : (0 <= billGstAmount GST_RATE items)%Q).
  { rewrite billGstAmount_sum. apply sum_nonneg, Forall_map.
    eapply Forall_impl; [exact Hitems|]. intros x Hx.
    apply (lineTax_bounds GST_RATE x Hx). }
  assert (Hg1 : (billGstAmount GST_RATE items <= billSubtotal items)%Q).
  { rewrite billGstAmount_sum, billSubtotal_sum. apply sum_le.
    eapply Forall_impl; [exact Hitems|]. intros x Hx.
    apply (lineTax_bounds GST_RATE x Hx). }
  repeat split; lra.
Qed.

(** X2. When no line carries a rate of its own, the tax is the global
    rate on the subtotal, and the three totals are those of the first
    version of the calculator (in exact arithmetic). *)
Theorem flat_rate_agrees_with_first_version (GST_RATE : Q) (w : World)
    (uid : jsstring) (now today : Z) (customerName customerPhone : jsstring)
    (items : list BillItem.t) (billDate : Z) :
  AppState.user (app w) = Some uid ->
  Forall (fun item => BillItem.gstRate item = None) items ->
  exists preview first,
    AppState.currentInvoice
      (app (after (handleGenerateBill GST_RATE now customerName customerPhone
                     items billDate) w)) = Some preview
    /\ AppState.currentInvoice
         (app (after (LegacyApp.handleGenerateBill GST_RATE now today
                        customerName customerPhone items) w)) = Some first
    /\ (InvoiceData.gstAmount preview
        == InvoiceData.subtotal preview * GST_RATE)%Q
    /\ (InvoiceData.subtotal preview == InvoiceData.subtotal first)%Q
    /\ (InvoiceData.gstAmount preview == InvoiceData.gstAmount first)%Q
    /\ (InvoiceData.grandTotal preview == InvoiceData.grandTotal first)%Q.
Proof.
  intros Hu Hnone. unfold after.
  rewrite (handleGenerateBill_signed_in GST_RATE w uid) by exact Hu.
  unfold LegacyApp.handleGenerateBill, mbind, M_bind, getApp. simpl.
  rewrite Hu. simpl.
  eexists. eexists. split; [reflexivity|]. split; [reflexivity|]. simpl.
  fold (billSubtotal items).
  pose proof (billGstAmount_flat GST_RATE items Hnone) as Hflat.
  split; [exact Hflat|]. split; [reflexivity|].
  split; [exact Hflat|]. rewrite Hflat. reflexivity.
Qed.

Section ViewAndCalculator.
Import PrimFloat.

(** X3. The taxes of the lines as the invoice view computes them and
    the gstAmount of the preview generated from these lines agree in
    exact arithmetic only: line by line, the view's
    (price * quantity * rate) / 100 and the calculator's
    price * quantity * (rate / 100) are the same rational number, so
    that their sums are; in the binary64 arithmetic in which the source
    computes them they are not always the same: for price 3, quantity 1
    and rate 5 the view gets 0.15 (the double 0x1.3333333333333p-3)
    and the calculator the next double up, 0.15000000000000002. *)
Theorem shown_line_taxes_add_up (GST_RATE : Q) (w : World) (uid : jsstring)
    (now : Z) (customerName customerPhone : jsstring)
    (items : list BillItem.t) (billDate : Z) :
  AppState.user (app w) = Some uid ->
  (exists preview,
     AppState.currentInvoice
       (app (after (handleGenerateBill GST_RATE now customerName customerPhone
                      items billDate) w)) = Some preview
     /\ (Spec.sum (List.map (shownLineTax GST_RATE) (InvoiceData.items preview))
         == InvoiceData.gstAmount preview)%Q)
  /\ Doubles.shownLineTax 3%float 1%float 5%float
     = 0x1.3333333333333p-3%float
  /\ Doubles.lineTax 3%float 1%float 5%float = 0x1.3333333333334p-3%float
  /\ ltb (Doubles.shownLineTax 3%float 1%float 5%float)
         (Doubles.lineTax 3%float 1%float 5%float) = true.
Proof.
  intros Hu. split.
  - unfold after.
    rewrite (handleGenerateBill_signed_in GST_RATE w uid) by exact Hu.
    eexists. split; [reflexivity|]. simpl.
    rewrite billGstAmount_sum. apply sum_ext, lineTax_shown.
  - split; [|split]; vm_compute; reflexivity.
Qed.

End ViewAndCalculator.

(** ** Prefixes and numbers *)

Lemma cleanWord_upperAlnum (w : jsstring) :
  forallb Js.isUpperAlnum (Spec.cleanWord w) = true.
Proof. apply toUpperCase_strip_upperAlnum. Qed.

Lemma forallb_app_true {A} (p : A -> bool) (l1 l2 : list A) :
  forallb p l1 = true -> forallb p l2 = true -> forallb p (l1 ++ l2) = true.
Proof. intros H1 H2. rewrite forallb_app, H1, H2. reflexivity. Qed.

(** The initials of some cleaned words: as many characters as words at
    most, all of them of [A-Z0-9]. *)
Lemma initials_shape (ws : list jsstring) :
  Forall (fun w => forallb Js.isUpperAlnum w = true) ws ->
  forallb Js.isUpperAlnum (concat (List.map (take 1) ws)) = true
  /\ (length (concat (List.map (take 1) ws)) <= length ws)%nat.
Proof.
  induction 1 as [|w ws Hw _ [IH1 IH2]]; simpl; [split; [reflexivity|lia]|].
  split.
  - apply forallb_app_true; [apply forallb_take, Hw|exact IH1].
  - rewrite length_app, length_take. lia.
Qed.

Lemma derivedPrefix_shape (name : jsstring) :
  forallb Js.isUpperAlnum (Spec.derivedPrefix name) = true
  /\ (1 <= length (Spec.derivedPrefix name) <= 5)%nat.
Proof.
  unfold Spec.derivedPrefix.
  set (ws := List.map Spec.cleanWord (Spec.words name)).
  assert (Hws : Forall (fun w => forallb Js.isUpperAlnum w = true) ws).
  { subst ws. apply Forall_map, Forall_forall. intros w _.
    apply cleanWord_upperAlnum. }
  set (p := match ws with
            | [] => []
            | [w] => take 4 w
            | [w1; w2] => take 2 w1 ++ take 2 w2
            | _ => concat (List.map (take 1) (take 5 ws))
            end).
  assert (Hp : forallb Js.isUpperAlnum p = true /\ (length p <= 5)%nat).
  { subst p. destruct ws as [|w1 [|w2 [|w3 ws']]].
    - split; [reflexivity|simpl; lia].
    - apply Forall_cons in Hws as [H1 _].
      split; [apply forallb_take, H1|rewrite length_take; lia].
    - apply Forall_cons in Hws as [H1 Hws].
      apply Forall_cons in Hws as [H2 _].
      split; [apply forallb_app_true; apply forallb_take; assumption|].
      rewrite length_app, !length_take. lia.
    - destruct (initials_shape (take 5 (w1 :: w2 :: w3 :: ws'))) as [Ha Hl].
      { apply Forall_take, Hws. }
      split; [exact Ha|]. rewrite length_take in Hl. lia. }
  destruct Hp as [Ha Hl]. destruct p as [|c p'] eqn:E.
  - split; [reflexivity|simpl; lia].
  - split; [exact Ha|]. simpl in *. lia.
Qed.

(** X4. Whatever the firm name, also when there is none, the prefix
    that [generateInvoicePrefix] returns is not empty, is at most 5
    characters long and consists of characters of [A-Z0-9] only. *)
Theorem generated_prefix_shape (firmName : option jsstring) :
  forallb Js.isUpperAlnum (generateInvoicePrefix firmName) = true
  /\ (1 <= length (generateInvoicePrefix firmName) <= 5)%nat.
Proof.
  destruct firmName as [name|].
  - rewrite generateInvoicePrefix_spec. apply derivedPrefix_shape.
  - split; [reflexivity|simpl; lia].
Qed.

Lemma isUpperAlnum_fixed (c : N) :
  Js.isUpperAlnum c = true -> Js.isAlnum c = true /\ Js.upperChar c = c.
Proof.
  unfold Js.isUpperAlnum, Js.isAlnum, Js.upperChar. intros H.
  split; [rewrite H; reflexivity|].
  destruct ((97 <=? c)%N && (c <=? 122)%N) eqn:E; [exfalso|reflexivity].
  repeat match goal with
         | H : _ || _ = true |- _ => apply orb_true_iff in H as [H|H]
         | H : _ && _ = true |- _ => apply andb_true_iff in H as [? ?]
         | H : (_ <=? _)%N = true |- _ => apply N.leb_le in H
         end; lia.
Qed.

Lemma sanitize_fixed (p : jsstring) :
  forallb Js.isUpperAlnum p = true ->
  Js.toUpperCase (Js.stripNonAlnum p) = p.
Proof.
  unfold Js.toUpperCase, Js.stripNonAlnum.
  induction p as [|c p IH]; simpl; [reflexivity|].
  intros H. apply andb_true_iff in H as [Hc Hp].
  destruct (isUpperAlnum_fixed c Hc) as [-> Hu]. simpl.
  rewrite Hu, (IH Hp). reflexivity.
Qed.

(** X5. The input handler of the custom prefix changes nothing in a
    prefix that is already well formed (characters of [A-Z0-9], at most
    ten): typed into the field, it is stored as it is, and what the
    handler stores is always a prefix of that kind, so that sanitizing
    twice is sanitizing once. *)
Theorem prefix_handler_keeps_valid_prefix (s : FirmSetup.State) (p : jsstring) :
  FirmSetup.validPrefix p ->
  FirmSetup.displaySettingsState
    (FirmSetup.handleDisplaySettingTextChange "customInvoicePrefix" p s)
  !! "customInvoicePrefix"%string = Some (FirmSetup.VStr p)
  /\ (forall (value : jsstring) (s' : FirmSetup.State),
        FirmSetup.handleDisplaySettingTextChange "customInvoicePrefix"
          (take 10 (Js.toUpperCase (Js.stripNonAlnum value)))
          (FirmSetup.handleDisplaySettingTextChange "customInvoicePrefix"
             value s')
        = FirmSetup.handleDisplaySettingTextChange "customInvoicePrefix"
            value s').
Proof.
  intros [Ha Hl].
  assert (Hfix : forall q, FirmSetup.validPrefix q ->
                           take 10 (Js.toUpperCase (Js.stripNonAlnum q)) = q).
  { intros q [Hqa Hql]. rewrite (sanitize_fixed q Hqa).
    apply take_ge. exact Hql. }
  split.
  - unfold FirmSetup.handleDisplaySettingTextChange. simpl.
    rewrite lookup_insert_eq, (Hfix p (conj Ha Hl)). reflexivity.
  - intros value s'. unfold FirmSetup.handleDisplaySettingTextChange. simpl.
    rewrite (Hfix _ (sanitized_valid value)), insert_insert_eq. reflexivity.
Qed.

Lemma lit_inj (s t : string) : lit s = lit t -> s = t.
Proof.
  unfold lit. intros H.
  assert (Hl : list_ascii_of_string s = list_ascii_of_string t).
  { revert H. generalize (list_ascii_of_string s) (list_ascii_of_string t).
    induction l as [|a l IH]; intros [|b l']; simpl; intros H;
      try discriminate; [reflexivity|].
    injection H as Ha Hl. f_equal; [|apply IH, Hl].
    rewrite <- (ascii_N_embedding a), <- (ascii_N_embedding b), Ha.
    reflexivity. }
  rewrite <- (string_of_list_ascii_of_string s),
    <- (string_of_list_ascii_of_string t), Hl.
  reflexivity.
Qed.

Lemma to_int_printable (n : Z) :
  Z.to_int n <> Decimal.Pos Decimal.Nil /\ Z.to_int n <> Decimal.Neg Decimal.Nil.
Proof.
  destruct n as [|p|p]; simpl; split; try discriminate;
    intros H; injection H as H; exact (Unsigned.to_uint_nonnil p H).
Qed.

(** The decimal writing of an integer tells the integer. *)
Lemma numToString_inj (n m : Z) : Js.numToString n = Js.numToString m -> n = m.
Proof.
  unfold Js.numToString. intros H. apply lit_inj in H.
  apply DecimalZ.to_int_inj.
  destruct (to_int_printable n) as [Hn1 Hn2], (to_int_printable m) as [Hm1 Hm2].
  pose proof (NilZero.isi _ Hn1 Hn2) as En.
  pose proof (NilZero.isi _ Hm1 Hm2) as Em.
  rewrite H, Em in En. injection En as En. symmetry. exact En.
Qed.

Lemma sequentialNumber_inj (prefix : option jsstring) (n m : Z) :
  sequentialNumber prefix n = sequentialNumber prefix m -> n = m.
Proof.
  unfold sequentialNumber. destruct prefix as [[|c p]|]; intros H;
    try (apply numToString_inj, H).
  apply app_inv_head, app_inv_head in H. apply numToString_inj, H.
Qed.

Lemma imap_as_seq {A B} (h : nat -> B) (l : list A) :
  imap (fun k _ => h k) l = h <$> seq 0 (length l).
Proof.
  revert h. induction l as [|x l IH]; intros h; [reflexivity|].
  rewrite imap_cons. cbn [length seq fmap list_fmap]. f_equal.
  rewrite <- fmap_S_seq, <- list_fmap_compose. apply (IH (h ∘ S)).
Qed.

(** X6. New invoices saved one after the other on sequential
    numbering, every store call accepted, carry pairwise different
    invoice numbers. *)
Theorem sequential_numbers_distinct (GST_RATE : Q) (uid : jsstring) (w : World)
    (f : InvoiceFormat.t) (bs : list Bill) :
  AppState.user (app w) = Some uid ->
  sequentialFormat (AppState.firmDetails (app w)) = Some f ->
  is_Some (Store.firmDetails (db w) !! uid) ->
  allSucceed bs ->
  exists rs,
    result (newBills GST_RATE bs) w = Returned rs
    /\ length rs = length bs
    /\ Forall (fun r => r.1 = Some true) rs
    /\ NoDup (rs.*2).
Proof.
  intros Hu Hf Hst Hall.
  destruct (newBills_sequential GST_RATE uid bs w f Hall Hu Hf Hst)
    as (Hr & _).
  eexists. split; [exact Hr|].
  set (prefix := customPrefix (AppState.firmDetails (app w))).
  rewrite (imap_as_seq
             (fun k => (Some true,
                        sequentialNumber prefix (nextNumber f + Z.of_nat k)))).
  split; [rewrite length_fmap, length_seq; reflexivity|].
  split; [apply Forall_fmap, Forall_forall; intros k _; reflexivity|].
  rewrite <- list_fmap_compose. apply NoDup_fmap_2; [|apply NoDup_seq].
  intros k1 k2 H. simpl in H. apply sequentialNumber_inj in H. lia.
Qed.

(** X7. In freeform mode the numbers of two previews of the same firm
    are the same exactly when the clock read the same millisecond: the
    clock alone tells the numbers apart. *)
Theorem freeform_numbers_differ_by_clock (GST_RATE : Q) (w : World)
    (uid : jsstring) (now1 now2 : Z) (b1 b2 : Bill) :
  AppState.user (app w) = Some uid ->
  AppState.editingInvoice (app w) = None ->
  sequentialFormat (AppState.firmDetails (app w)) = None ->
  exists p1 p2,
    AppState.currentInvoice
      (app (after (handleGenerateBill GST_RATE now1 (billCustomerName b1)
                     (billCustomerPhone b1) (billItems b1) (billDate b1)) w))
    = Some p1
    /\ AppState.currentInvoice
         (app (after (handleGenerateBill GST_RATE now2 (billCustomerName b2)
                        (billCustomerPhone b2) (billItems b2) (billDate b2)) w))
       = Some p2
    /\ (InvoiceData.invoiceNumber p1 = InvoiceData.invoiceNumber p2
        <-> now1 = now2).
Proof.
  intros Hu He Hf. unfold after.
  rewrite !(handleGenerateBill_signed_in GST_RATE w uid) by exact Hu.
  eexists. eexists. split; [reflexivity|]. split; [reflexivity|]. simpl.
  rewrite !(previewNumber_freeform _ _ He Hf). split.
  - intros H. apply app_inv_head, app_inv_head in H.
    apply numToString_inj, H.
  - intros ->. reflexivity.
Qed.

(** ** Saving, retrying, printing *)

(** What a save does to the component state and the store, and what it
    returns, does not depend on the alerts raised before. *)
Lemma save_ignores_alerts (env : SaveEnv) (invoiceData : InvoiceData.t)
    (w : World) (al : list Alert) :
  let w0 := mkWorld (app w) (db w) al in
  result (handleSaveInvoice env invoiceData) w0
  = result (handleSaveInvoice env invoiceData) w
  /\ app (after (handleSaveInvoice env invoiceData) w0)
     = app (after (handleSaveInvoice env invoiceData) w)
  /\ db (after (handleSaveInvoice env invoiceData) w0)
     = db (after (handleSaveInvoice env invoiceData) w).
Proof.
  unfold result, after. run_handler.
  destruct (AppState.user (app w)) as [uid|]; [|repeat split; reflexivity].
  destruct (Js.truthy (InvoiceData.id invoiceData)); simpl.
  - destruct (invoiceUpdate env); simpl;
      [destruct (Store.invoices (db w) !! default [] (InvoiceData.id invoiceData))|];
      repeat split; reflexivity.
  - destruct (invoiceCreate env); simpl; [|repeat split; reflexivity].
    destruct (sequentialFormat (AppState.firmDetails (app w))); simpl;
      [|repeat split; reflexivity].
    destruct (counterUpdate env); simpl;
      [destruct (Store.firmDetails (db w) !! uid)|];
      repeat split; reflexivity.
Qed.

(** A save never throws: it returns true, false or nothing. *)
Lemma save_returns (env : SaveEnv) (invoiceData : InvoiceData.t) (w : World) :
  exists r, result (handleSaveInvoice env invoiceData) w = Returned r.
Proof.
  unfold result. run_handler.
  destruct (AppState.user (app w)) as [uid|]; [|eexists; reflexivity].
  destruct (Js.truthy (InvoiceData.id invoiceData)); simpl.
  - destruct (invoiceUpdate env); simpl;
      [destruct (Store.invoices (db w) !! default [] (InvoiceData.id invoiceData))|];
      eexists; reflexivity.
  - destruct (invoiceCreate env); simpl; [|eexists; reflexivity].
    destruct (sequentialFormat (AppState.firmDetails (app w))); simpl;
      [|eexists; reflexivity].
    destruct (counterUpdate env); simpl;
      [destruct (Store.firmDetails (db w) !! uid)|];
      eexists; reflexivity.
Qed.

Lemma failed_first_call_state (env : SaveEnv) (invoiceData : InvoiceData.t)
    (w : World) (uid : jsstring) :
  AppState.user (app w) = Some uid ->
  result (handleSaveInvoice env invoiceData) w = Returned (Some false) ->
  (Js.truthy (InvoiceData.id invoiceData) = false -> invoiceCreate env = None) ->
  after (handleSaveInvoice env invoiceData) w
  = mkWorld (app w) (db w) (alerts w ++ [AlertSaveFailed]).
Proof.
  intros Hu Hr Hnew. unfold result, after in *.
  destruct (Js.truthy (InvoiceData.id invoiceData)) eqn:Hid.
  - destruct (truthy_inv _ Hid) as (i & Hi & Hne).
    destruct (invoiceUpdate env) eqn:Hok;
      [destruct (Store.invoices (db w) !! i) as [old|] eqn:Hold|].
    + rewrite (save_existing_ok env invoiceData w uid Hu i old Hi Hne Hok Hold)
        in Hr.
      discriminate.
    + rewrite (save_existing_fail env invoiceData w uid Hu i Hi Hne)
        by (right; assumption).
      reflexivity.
    + rewrite (save_existing_fail env invoiceData w uid Hu i Hi Hne)
        by (left; assumption).
      reflexivity.
  - rewrite (save_new_create_fail env invoiceData w uid Hu Hid (Hnew eq_refl)).
    reflexivity.
Qed.

(** X8. A save that fails at its first store call (the update of an
    existing invoice, or the create of a new one) leaves the component
    state and the store as they were, so that saving the same invoice
    again behaves as if the failed attempt had not been made. *)
Theorem failed_save_can_be_retried (env1 env2 : SaveEnv)
    (invoiceData : InvoiceData.t) (w : World) (uid : jsstring) :
  AppState.user (app w) = Some uid ->
  result (handleSaveInvoice env1 invoiceData) w = Returned (Some false) ->
  (Js.truthy (InvoiceData.id invoiceData) = false ->
   invoiceCreate env1 = None) ->
  let w1 := after (handleSaveInvoice env1 invoiceData) w in
  app w1 = app w
  /\ db w1 = db w
  /\ result (handleSaveInvoice env2 invoiceData) w1
     = result (handleSaveInvoice env2 invoiceData) w
  /\ app (after (handleSaveInvoice env2 invoiceData) w1)
     = app (after (handleSaveInvoice env2 invoiceData) w)
  /\ db (after (handleSaveInvoice env2 invoiceData) w1)
     = db (after (handleSaveInvoice env2 invoiceData) w).
Proof.
  intros Hu Hr Hnew w1. subst w1.
  rewrite (failed_first_call_state env1 invoiceData w uid Hu Hr Hnew).
  split; [reflexivity|]. split; [reflexivity|].
  apply (save_ignores_alerts env2 invoiceData w).
Qed.

(** After a save that has written the invoice and failed at the
    counter, a second save of the same invoice. *)
Lemma retry_after_counter_failure (env1 env2 : SaveEnv)
    (preview : InvoiceData.t) (w : World) (uid id1 id2 : jsstring)
    (f : InvoiceFormat.t) :
  AppState.user (app w) = Some uid ->
  Js.truthy (InvoiceData.id preview) = false ->
  sequentialFormat (AppState.firmDetails (app w)) = Some f ->
  is_Some (Store.firmDetails (db w) !! uid) ->
  invoiceCreate env1 = Some id1 ->
  counterUpdate env1 = false ->
  invoiceCreate env2 = Some id2 ->
  counterUpdate env2 = true ->
  id1 <> id2 ->
  let w1 := after (handleSaveInvoice env1 preview) w in
  let w2 := after (handleSaveInvoice env2 preview) w1 in
  result (handleSaveInvoice env1 preview) w = Returned (Some false)
  /\ result (handleSaveInvoice env2 preview) w1 = Returned (Some true)
  /\ (exists doc1 doc2,
        Store.invoices (db w2) !! id1 = Some doc1
        /\ Store.invoices (db w2) !! id2 = Some doc2
        /\ InvoiceDoc.invoiceNumber doc1 = InvoiceData.invoiceNumber preview
        /\ InvoiceDoc.invoiceNumber doc2 = InvoiceData.invoiceNumber preview)
  /\ localCounter w2 = Some (nextNumber f + 1)
  /\ storedCounter uid w2 = Some (nextNumber f + 1)
  /\ (exists f2, sequentialFormat (AppState.firmDetails (app w2)) = Some f2
                 /\ nextNumber f2 = nextNumber f + 2).
Proof.
  intros Hu Hid Hf [stored Hst] Hc1 Hk1 Hc2 Hk2 Hne w1 w2.
  subst w2 w1. unfold result, after.
  rewrite (save_new_counter_fail env1 preview w uid Hu id1 f Hid Hc1 Hf)
    by (left; exact Hk1).
  cbn [fst snd].
  destruct (sequentialFormat_advance _ f Hf) as (Hf1 & Hn1 & _ & _).
  set (w1 := mkWorld _ _ _).
  assert (Hu1 : AppState.user (app w1) = Some uid) by exact Hu.
  assert (Hf1' : sequentialFormat (AppState.firmDetails (app w1))
                 = Some (InvoiceFormat.with_currentNumber (nextNumber f) f))
    by exact Hf1.
  assert (Hst1 : Store.firmDetails (db w1) !! uid = Some stored) by exact Hst.
  rewrite (save_new_sequential_ok env2 preview w1 uid Hu1 id2 _ stored Hid Hc2
             Hf1' Hk2 Hst1).
  cbn [fst snd app db]. rewrite Hn1.
  destruct (sequentialFormat_advance _ _ Hf1') as (Hf2 & Hn2 & _ & Hc).
  rewrite Hn1 in Hf2, Hn2, Hc.
  split; [reflexivity|]. split; [reflexivity|]. split; [|split; [|split]].
  - eexists. eexists. simpl.
    rewrite lookup_insert_ne by congruence.
    rewrite !lookup_insert_eq. repeat split; reflexivity.
  - exact Hc.
  - unfold storedCounter. simpl. rewrite lookup_insert_eq.
    apply counterOf_advance.
  - eexists. split; [exact Hf2|]. rewrite Hn2. lia.
Qed.

(** X9. On sequential numbering, a new bill is generated: its preview
    carries the next number N of the firm, formatted with the firm's
    prefix.  When the save of the preview has written the invoice and
    the update of the counter has failed, saving the same preview again
    (with every store call accepted) returns true and writes a second
    record under the new id: both records carry the number N, both
    copies of the counter end at N + 1, and the next new bill gets
    N + 2, so that N is given twice and N + 1 to no invoice. *)
Theorem retry_after_counter_failure_duplicates (GST_RATE : Q) (b : Bill)
    (env2 : SaveEnv) (w : World) (uid id1 id2 : jsstring)
    (f : InvoiceFormat.t) :
  AppState.user (app w) = Some uid ->
  AppState.editingInvoice (app w) = None ->
  sequentialFormat (AppState.firmDetails (app w)) = Some f ->
  is_Some (Store.firmDetails (db w) !! uid) ->
  invoiceCreate (billEnv b) = Some id1 ->
  counterUpdate (billEnv b) = false ->
  invoiceCreate env2 = Some id2 ->
  counterUpdate env2 = true ->
  id1 <> id2 ->
  let N := nextNumber f in
  let number :=
    Spec.formatNumber (Spec.configuredPrefix (AppState.firmDetails (app w))) N in
  let w0 := after (handleGenerateBill GST_RATE (billNow b) (billCustomerName b)
                     (billCustomerPhone b) (billItems b) (billDate b)) w in
  exists preview,
    AppState.currentInvoice (app w0) = Some preview
    /\ InvoiceData.invoiceNumber preview = number
    /\ let w1 := after (handleSaveInvoice (billEnv b) preview) w0 in
       let w2 := after (handleSaveInvoice env2 preview) w1 in
       result (handleSaveInvoice (billEnv b) preview) w0
       = Returned (Some false)
       /\ result (handleSaveInvoice env2 preview) w1 = Returned (Some true)
       /\ (exists doc1 doc2,
             Store.invoices (db w2) !! id1 = Some doc1
             /\ Store.invoices (db w2) !! id2 = Some doc2
             /\ InvoiceDoc.invoiceNumber doc1 = number
             /\ InvoiceDoc.invoiceNumber doc2 = number)
       /\ localCounter w2 = Some (N + 1)
       /\ storedCounter uid w2 = Some (N + 1)
       /\ (exists f2,
             sequentialFormat (AppState.firmDetails (app w2)) = Some f2
             /\ nextNumber f2 = N + 2).
Proof.
  intros Hu He Hf Hst Hc1 Hk1 Hc2 Hk2 Hne N number w0. subst w0.
  unfold after.
  rewrite (handleGenerateBill_signed_in GST_RATE w uid) by exact Hu.
  cbn [snd]. set (preview := InvoiceData.mk _ _ _ _ _ _ _ _ _ _ _).
  set (w0 := mkWorld _ _ _).
  assert (Hn : InvoiceData.invoiceNumber preview = number).
  { subst preview number N. cbn [InvoiceData.invoiceNumber].
    rewrite (previewNumber_sequential _ _ f He Hf), sequentialNumber_spec,
      customPrefix_spec. reflexivity. }
  assert (Hid : Js.truthy (InvoiceData.id preview) = false).
  { subst preview. cbn [InvoiceData.id]. rewrite He. reflexivity. }
  assert (Hu0 : AppState.user (app w0) = Some uid) by exact Hu.
  assert (Hf0 : sequentialFormat (AppState.firmDetails (app w0)) = Some f)
    by exact Hf.
  assert (Hst0 : is_Some (Store.firmDetails (db w0) !! uid)) by exact Hst.
  exists preview. split; [reflexivity|]. split; [exact Hn|].
  destruct (retry_after_counter_failure (billEnv b) env2 preview w0 uid id1 id2
              f Hu0 Hid Hf0 Hst0 Hc1 Hk1 Hc2 Hk2 Hne)
    as (Hr1 & Hr2 & (doc1 & doc2 & Hd1 & Hd2 & Hn1 & Hn2) & Hl & Hs & Hnext).
  cbv zeta. split; [exact Hr1|]. split; [exact Hr2|].
  split; [|split; [exact Hl|split; [exact Hs|exact Hnext]]].
  exists doc1, doc2. rewrite <- Hn. auto.
Qed.

(** X10. The print button never prints an invoice that has no id.
    When it prints, either nothing was to be saved (an invoice with an
    id, shown outside the form) and the world is as it was, or the save
    went through: the invoice on display then carries the id under
    which the store holds its record.  Without a signed-in user, and
    while a save is going on, nothing is printed for a preview. *)
Theorem print_only_saved_invoices (isSaving : bool) (env : SaveEnv) (w : World) :
  let w' := after (printCurrent isSaving env) w in
  (result (printCurrent isSaving env) w = Returned PrintDone ->
   isSaving = false
   /\ exists shown i,
        AppState.currentInvoice (app w') = Some shown
        /\ InvoiceData.id shown = Some i
        /\ (w' = w \/ is_Some (Store.invoices (db w') !! i)))
  /\ (AppState.user (app w) = None ->
      AppState.view (app w) = ViewForm ->
      result (printCurrent isSaving env) w <> Returned PrintDone)
  /\ (isSaving = true -> w' = w).
Proof.
  intros w'. subst w'. unfold result, after, printCurrent, mbind, M_bind, getApp.
  cbn [fst snd].
  destruct (AppState.currentInvoice (app w)) as [inv|] eqn:Hcur;
    [|split; [discriminate|split; [discriminate|reflexivity]]].
  unfold handlePrint.
  destruct isSaving; [split; [discriminate|split; [discriminate|reflexivity]]|].
  set (isPreview := match AppState.view (app w) with
                    | ViewForm => true
                    | _ => false
                    end).
  destruct (isPreview || negb (Js.truthy (InvoiceData.id inv))) eqn:Hg.
  - unfold tryCatch, mbind, M_bind.
    destruct (AppState.user (app w)) as [uid|] eqn:Hu.
    + pose proof (save_true_written env inv w uid Hu) as Hw.
      unfold result, after in Hw.
      destruct (handleSaveInvoice env inv w) as [[[[|]|]|] w1] eqn:Hs;
        cbn [fst snd];
        (split; [|split; [discriminate|discriminate]]);
        try discriminate.
      intros _. split; [reflexivity|].
      destruct (Hw eq_refl) as (savedId & doc & Hdoc & Hshown & _).
      cbn [snd] in Hdoc, Hshown.
      exists (InvoiceData.with_id (Some savedId) inv), savedId.
      split; [exact Hshown|]. split; [reflexivity|].
      right. exists doc. exact Hdoc.
    + assert (Hs : handleSaveInvoice env inv w
                   = (Returned None,
                      mkWorld (app w) (db w) (alerts w ++ [AlertLoginToSave]))).
      { run_handler. rewrite Hu. reflexivity. }
      rewrite Hs. cbn [fst snd].
      split; [discriminate|]. split; [discriminate|discriminate].
  - apply orb_false_iff in Hg as [Hp Hid]. apply negb_false_iff in Hid.
    destruct (truthy_inv _ Hid) as (i & Hi & _). cbn [fst snd].
    split; [|split; [|discriminate]].
    + intros _. split; [reflexivity|]. exists inv, i.
      split; [exact Hcur|]. split; [exact Hi|]. left. reflexivity.
    + intros _ Hv. subst isPreview. rewrite Hv in Hp. discriminate.
Qed.

(** X11. An edit ends with the save that goes through, or when the
    user leaves for another view; it does not end with a save that
    fails.  After the resave of an edited invoice has returned true,
    the next bill that is generated is a new one (no id); after it has
    returned false, the next bill that is generated is still the edited
    invoice, with its id and its number. *)
Theorem edit_ends_with_successful_save (GST_RATE : Q) (w : World)
    (uid : jsstring) (invoice : InvoiceData.t) (i : jsstring) (b next : Bill) :
  AppState.user (app w) = Some uid ->
  InvoiceData.id invoice = Some i ->
  i <> [] ->
  let run := editAndResave GST_RATE invoice b w in
  let w' := snd run in
  let generated :=
    AppState.currentInvoice
      (app (after (handleGenerateBill GST_RATE (billNow next)
                     (billCustomerName next) (billCustomerPhone next)
                     (billItems next) (billDate next)) w')) in
  (forall n, fst run = Returned (Some true, n) ->
     AppState.editingInvoice (app w') = None
     /\ exists p, generated = Some p /\ InvoiceData.id p = None)
  /\ (forall n, fst run = Returned (Some false, n) ->
        AppState.editingInvoice (app w') = Some invoice
        /\ exists p, generated = Some p
                     /\ InvoiceData.id p = Some i
                     /\ InvoiceData.invoiceNumber p
                        = InvoiceData.invoiceNumber invoice)
  /\ (forall v,
        AppState.editingInvoice
          (app (after (_ ← handleEditInvoice invoice; switchView v) w)) = None).
Proof.
  intros Hu Hid Hne run w' generated. subst generated w' run.
  rewrite (editAndResave_eq GST_RATE w uid invoice i b Hu Hid Hne).
  destruct (invoiceUpdate (billEnv b)) eqn:Hok;
    [destruct (Store.invoices (db w) !! i) as [old|] eqn:Hold|].
  - erewrite (save_existing_ok _ _ _ uid) by (simpl; eauto).
    cbn [fst snd app].
    split; [|split; [intros n Hr; discriminate|reflexivity]].
    intros n _. split; [reflexivity|]. unfold after.
    erewrite (handleGenerateBill_signed_in GST_RATE _ uid)
      by (simpl; reflexivity || exact Hu).
    eexists. split; reflexivity.
  - erewrite (save_existing_fail _ _ _ uid) by (simpl; eauto).
    cbn [fst snd app].
    split; [intros n Hr; discriminate|split; [|reflexivity]].
    intros n _. split; [reflexivity|]. unfold after.
    erewrite (handleGenerateBill_signed_in GST_RATE _ uid)
      by (simpl; reflexivity || exact Hu).
    eexists. split; [reflexivity|]. simpl.
    rewrite Hid, (truthy_Some i Hne). split; reflexivity.
  - erewrite (save_existing_fail _ _ _ uid) by (simpl; eauto).
    cbn [fst snd app].
    split; [intros n Hr; discriminate|split; [|reflexivity]].
    intros n _. split; [reflexivity|]. unfold after.
    erewrite (handleGenerateBill_signed_in GST_RATE _ uid)
      by (simpl; reflexivity || exact Hu).
    eexists. split; [reflexivity|]. simpl.
    rewrite Hid, (truthy_Some i Hne). split; reflexivity.
Qed.

(** ** The firm details and the store *)

Lemma loadedFirm_setCurrentNumber (uid : jsstring) (n : Z) (d : FirmDetails.t) :
  loadedFirm uid (setCurrentNumber n d) = setCurrentNumber n (loadedFirm uid d).
Proof. reflexivity. Qed.

Lemma reload_of_mirror (uid : jsstring) (w : World) :
  mirrorsFirm uid w ->
  AppState.firmDetails (app (after (onAuthStateChanged true (Some uid)) w))
  = AppState.firmDetails (app w).
Proof.
  intros (data & Hst & Hloc).
  unfold after, onAuthStateChanged, tryCatch, mbind, M_bind, getDb, setState.
  simpl. rewrite Hst. simpl. symmetry. exact Hloc.
Qed.

(** X12. When the firm details on display are the stored firm document
    as it is read at sign-in, they still are after every save that
    returns true, in either numbering mode: reading the document again
    (a new sign-in of the same user) gives the details that the
    component already holds, the counter included. *)
Theorem successful_save_keeps_firm_in_step (env : SaveEnv)
    (invoiceData : InvoiceData.t) (w : World) (uid : jsstring) :
  AppState.user (app w) = Some uid ->
  mirrorsFirm uid w ->
  result (handleSaveInvoice env invoiceData) w = Returned (Some true) ->
  let w' := after (handleSaveInvoice env invoiceData) w in
  mirrorsFirm uid w'
  /\ localCounter w' = storedCounter uid w'
  /\ AppState.firmDetails (app (after (onAuthStateChanged true (Some uid)) w'))
     = AppState.firmDetails (app w').
Proof.
  intros Hu Hm Hr w'.
  assert (Hm' : mirrorsFirm uid w').
  { subst w'. unfold result, after in *. destruct Hm as (data & Hst & Hloc).
    destruct (Js.truthy (InvoiceData.id invoiceData)) eqn:Hid.
    - destruct (truthy_inv _ Hid) as (i & Hi & Hne).
      destruct (invoiceUpdate env) eqn:Hok;
        [destruct (Store.invoices (db w) !! i) as [old|] eqn:Hold|].
      + rewrite (save_existing_ok env invoiceData w uid Hu i old Hi Hne Hok Hold).
        exists data. split; [exact Hst|exact Hloc].
      + rewrite (save_existing_fail env invoiceData w uid Hu i Hi Hne) in Hr
          by (right; assumption).
        discriminate.
      + rewrite (save_existing_fail env invoiceData w uid Hu i Hi Hne) in Hr
          by (left; assumption).
        discriminate.
    - destruct (invoiceCreate env) as [newId|] eqn:Hc.
      + destruct (sequentialFormat (AppState.firmDetails (app w))) as [f|] eqn:Hf.
        * destruct (counterUpdate env) eqn:Hk.
          -- rewrite (save_new_sequential_ok env invoiceData w uid Hu newId f
                        data Hid Hc Hf Hk Hst).
             exists (setCurrentNumber (nextNumber f) data). simpl.
             rewrite lookup_insert_eq, Hloc. split; reflexivity.
          -- rewrite (save_new_counter_fail env invoiceData w uid Hu newId f
                        Hid Hc Hf) in Hr by (left; assumption).
             discriminate.
        * rewrite (save_new_freeform env invoiceData w uid Hu newId Hid Hc Hf).
          exists data. split; [exact Hst|exact Hloc].
      + rewrite (save_new_create_fail env invoiceData w uid Hu Hid Hc) in Hr.
        discriminate. }
  split; [exact Hm'|]. split; [|apply reload_of_mirror, Hm'].
  destruct Hm' as (data & Hst & Hloc).
  unfold localCounter, storedCounter. rewrite Hst, Hloc. reflexivity.
Qed.

(** ** The customer list and the store *)

Lemma Forall_jsSort {A} (cmp : A -> A -> Z) (P : A -> Prop) (l : list A) :
  Forall P l -> Forall P (jsSort cmp l).
Proof. intros H. rewrite jsSort_Permutation. exact H. Qed.

(** X13. When every customer of the list is the document that the
    store holds under the customer's id, this is still so after an add
    (the store assigning an id that is not in use), after an update and
    after a delete, whether the store call is accepted or refused. *)
Theorem customer_list_mirrors_store
    (localeCompare : jsstring -> jsstring -> Z) (w : World) :
  mirrorsCustomers w ->
  (forall (result : option jsstring) (customer : Customer.input),
     (forall newId, result = Some newId ->
                    Store.customers (db w) !! newId = None) ->
     mirrorsCustomers (after (handleAddCustomer localeCompare result customer) w))
  /\ (forall (ok : bool) (id : jsstring) (data : Customer.patch),
        mirrorsCustomers
          (after (handleUpdateCustomer localeCompare ok id data) w))
  /\ (forall (confirmed ok : bool) (id : jsstring),
        mirrorsCustomers (after (handleDeleteCustomer confirmed ok id) w)).
Proof.
  unfold mirrorsCustomers. intros Hm. split; [|split].
  - intros result customer Hfresh.
    unfold after, handleAddCustomer, tryCatch, addCustomerDoc, mbind, M_bind,
      getApp, putDb, setState, alert, throw, mret, M_ret. simpl.
    destruct (AppState.user (app w)) as [uid|]; [|exact Hm].
    destruct result as [newId|]; simpl; [|exact Hm].
    apply Forall_jsSort, Forall_app. split.
    + eapply Forall_impl; [exact Hm|]. intros c Hc. simpl in *.
      rewrite lookup_insert_ne; [exact Hc|].
      intros ->. rewrite (Hfresh _ eq_refl) in Hc. discriminate.
    + constructor; [|constructor]. simpl. apply lookup_insert_eq.
  - intros ok id data.
    unfold after, handleUpdateCustomer, tryCatch, updateCustomerDoc, mbind,
      M_bind, getDb, putDb, setState, alert, throw. simpl.
    destruct ok; simpl; [|exact Hm].
    destruct (Store.customers (db w) !! id) as [old|] eqn:Hold; simpl;
      [|exact Hm].
    apply Forall_jsSort, Forall_map.
    eapply Forall_impl; [exact Hm|]. intros c Hc. simpl in *.
    destruct (decide (Customer.id c = id)) as [Heq|Hne]; simpl.
    + rewrite Heq, lookup_insert_eq. rewrite Heq, Hold in Hc.
      injection Hc as ->. reflexivity.
    + rewrite lookup_insert_ne by congruence. exact Hc.
  - intros confirmed ok id.
    unfold after, handleDeleteCustomer, tryCatch, deleteCustomerDoc, mbind,
      M_bind, putDb, setState, alert, throw, mret, M_ret.
    destruct confirmed, ok; simpl; try exact Hm.
    apply Forall_forall. intros c Hc. apply list_elem_of_In in Hc.
    apply filter_In in Hc as [Hc Hne].
    apply negb_true_iff, bool_decide_eq_false in Hne.
    rewrite lookup_delete_ne by congruence.
    rewrite Forall_forall in Hm. apply Hm, list_elem_of_In, Hc.
Qed.

Lemma dropWhile_idem (p : N -> bool) (s : jsstring) :
  Js.dropWhile p (Js.dropWhile p s) = Js.dropWhile p s.
Proof.
  induction s as [|c s IH]; simpl; [reflexivity|].
  destruct (p c) eqn:Hc; [exact IH|]. simpl. rewrite Hc. reflexivity.
Qed.

Lemma dropWhile_trim (s : jsstring) : Js.dropWhile Js.isSpace (Js.trim s) = Js.trim s.
Proof.
  destruct (Js.trim s) as [|c t] eqn:E; [reflexivity|].
  simpl. rewrite (trim_head s t c E). reflexivity.
Qed.

(** Trimming twice is trimming once. *)
Lemma trim_idem (s : jsstring) : Js.trim (Js.trim s) = Js.trim s.
Proof.
  unfold Js.trim at 1. rewrite dropWhile_trim.
  unfold Js.trim. rewrite rev_involutive, dropWhile_idem. reflexivity.
Qed.

Section ManagerFacts.

Variable localeCompare : jsstring -> jsstring -> Z.

Lemma add_keeps_names (result : option jsstring) (customer : Customer.input)
    (w : World) :
  namesTrimmed (AppState.customers (app w)) ->
  Customer.in_name customer <> [] ->
  Js.trim (Customer.in_name customer) = Customer.in_name customer ->
  namesTrimmed
    (AppState.customers
       (app (after (handleAddCustomer localeCompare result customer) w))).
Proof.
  intros Hn Hne Htrim.
  unfold after, handleAddCustomer, tryCatch, addCustomerDoc, mbind, M_bind,
    getApp, putDb, setState, alert, throw, mret, M_ret. simpl.
  destruct (AppState.user (app w)) as [uid|]; [|exact Hn].
  destruct result as [newId|]; simpl; [|exact Hn].
  apply Forall_jsSort, Forall_app. split; [exact Hn|].
  constructor; [|constructor]. simpl. split; assumption.
Qed.

Lemma update_keeps_names (ok : bool) (id : jsstring) (data : Customer.patch)
    (w : World) :
  namesTrimmed (AppState.customers (app w)) ->
  (forall n, Customer.p_name data = Some n -> n <> [] /\ Js.trim n = n) ->
  namesTrimmed
    (AppState.customers
       (app (after (handleUpdateCustomer localeCompare ok id data) w))).
Proof.
  intros Hn Hdata.
  unfold after, handleUpdateCustomer, tryCatch, updateCustomerDoc, mbind,
    M_bind, getDb, putDb, setState, alert, throw. simpl.
  destruct ok; simpl; [|exact Hn].
  destruct (Store.customers (db w) !! id) as [old|]; simpl; [|exact Hn].
  apply Forall_jsSort, Forall_map.
  eapply Forall_impl; [exact Hn|]. intros c Hc. simpl.
  destruct (decide (Customer.id c = id)); [|exact Hc].
  unfold Customer.merge. simpl.
  destruct (Customer.p_name data) as [n|] eqn:E; simpl; [|exact Hc].
  apply Hdata. reflexivity.
Qed.

Lemma delete_keeps_names (confirmed ok : bool) (id : jsstring) (w : World) :
  namesTrimmed (AppState.customers (app w)) ->
  namesTrimmed
    (AppState.customers (app (after (handleDeleteCustomer confirmed ok id) w))).
Proof.
  intros Hn.
  unfold after, handleDeleteCustomer, tryCatch, deleteCustomerDoc, mbind,
    M_bind, putDb, setState, alert, throw, mret, M_ret.
  destruct confirmed, ok; simpl; try exact Hn.
  apply Forall_forall. intros c Hc. apply list_elem_of_In in Hc.
  apply filter_In in Hc as [Hc _].
  unfold namesTrimmed in Hn. rewrite Forall_forall in Hn.
  apply Hn, list_elem_of_In, Hc.
Qed.

Lemma manager_step_keeps_names (sw : CustomerManager.State * World)
    (e : CustomerManager.Event) :
  namesTrimmed (AppState.customers (app sw.2)) ->
  namesTrimmed
    (AppState.customers (app (CustomerManager.step localeCompare sw e).2)).
Proof.
  destruct sw as [st w]. intros Hn.
  destruct e as [name phone address result|customer name phone address ok
                |id confirmedHere confirmedApp ok]; simpl.
  - unfold CustomerManager.handleAddCustomer. simpl.
    destruct (Js.trim name) as [|c t] eqn:E; simpl; [exact Hn|].
    rewrite <- E. apply add_keeps_names; [exact Hn| |]; simpl.
    + rewrite E. discriminate.
    + apply trim_idem.
  - unfold CustomerManager.handleSaveEdit. simpl.
    destruct (Js.trim name) as [|c t] eqn:E; simpl; [exact Hn|].
    rewrite <- E. apply update_keeps_names; [exact Hn|]. simpl.
    intros n Hnm. injection Hnm as <-.
    split; [rewrite E; discriminate|apply trim_idem].
  - unfold CustomerManager.handleDeleteCustomer.
    destruct confirmedHere; simpl; [|exact Hn].
    apply delete_keeps_names, Hn.
Qed.

End ManagerFacts.

(** X14. Through the customer manager no customer gets an empty name
    or a name with white space in front or behind: when the names of
    the list are trimmed and not empty, they still are after any series
    of additions, edits and deletions in the manager, whatever the
    store makes of them; and a new customer whose name is blank is not
    handed to the store at all: the world stays as it is and the form
    shows that the name is required. *)
Theorem manager_keeps_names_trimmed
    (localeCompare : jsstring -> jsstring -> Z)
    (events : list CustomerManager.Event) (st : CustomerManager.State)
    (w : World) :
  namesTrimmed (AppState.customers (app w)) ->
  namesTrimmed
    (AppState.customers
       (app (fold_left (CustomerManager.step localeCompare) events (st, w)).2))
  /\ (forall name phone address result,
        Js.trim name = [] ->
        let sw := CustomerManager.step localeCompare (st, w)
                    (CustomerManager.AddCustomer name phone address result) in
        sw.2 = w
        /\ CustomerManager.error sw.1 = Some CustomerManager.nameRequired)
  /\ (forall customer name phone address ok,
        Js.trim name = [] ->
        let sw := CustomerManager.step localeCompare (st, w)
                    (CustomerManager.SaveEdit customer name phone address ok) in
        sw.2 = w
        /\ CustomerManager.alerted sw.1
           = CustomerManager.alerted st ++ [CustomerManager.nameEmpty]).
Proof.
  intros Hn. split; [|split].
  - assert (H : forall sw : CustomerManager.State * World,
               namesTrimmed (AppState.customers (app sw.2)) ->
               namesTrimmed
                 (AppState.customers
                    (app (fold_left (CustomerManager.step localeCompare)
                            events sw).2))).
    { induction events as [|e es IH]; intros sw Hsw; simpl; [exact Hsw|].
      apply IH, manager_step_keeps_names, Hsw. }
    apply (H (st, w)), Hn.
  - intros name phone address result Hb. simpl.
    unfold CustomerManager.handleAddCustomer. simpl. rewrite Hb.
    split; reflexivity.
  - intros customer name phone address ok Hb. simpl.
    unfold CustomerManager.handleSaveEdit. simpl. rewrite Hb.
    split; reflexivity.
Qed.

(** ** Order of the customer list *)

Section SortedInput.

Context {A : Type} (cmp : A -> A -> Z).
Hypothesis reversing : reversingComparator cmp.

Let before (a b : A) : Prop := cmp a b <= 0.

Lemma insertSorted_last (x : A) (acc : list A) :
  Forall (fun y => before y x) acc -> insertSorted cmp x acc = acc ++ [x].
Proof.
  induction 1 as [|y acc Hy _ IH]; simpl; [reflexivity|].
  destruct (Z.ltb_spec (cmp x y) 0) as [Hlt|_].
  - apply reversing in Hlt. unfold before in Hy. lia.
  - rewrite IH. reflexivity.
Qed.

Lemma fold_insert_sorted_input (l acc : list A) :
  StronglySorted before (acc ++ l) ->
  fold_left (fun acc x => insertSorted cmp x acc) l acc = acc ++ l.
Proof.
  revert acc. induction l as [|x l IH]; intros acc Hs; simpl.
  - rewrite app_nil_r. reflexivity.
  - rewrite insertSorted_last.
    + rewrite IH; rewrite <- app_assoc; [reflexivity|exact Hs].
    + apply Forall_forall. intros y Hy.
      apply (StronglySorted_app_1_elem_of before acc (x :: l) y x Hs Hy).
      left.
Qed.

(** The sort leaves a sorted list as it is. *)
Lemma jsSort_sorted_input (l : list A) :
  StronglySorted before l -> jsSort cmp l = l.
Proof. intros Hs. apply (fold_insert_sorted_input l []), Hs. Qed.

End SortedInput.

Lemma sorted_map_same_names (localeCompare : jsstring -> jsstring -> Z)
    (g : Customer.t -> Customer.t) (l : list Customer.t) :
  Forall (fun c => Customer.name (g c) = Customer.name c) l ->
  sortedByName localeCompare l -> sortedByName localeCompare (List.map g l).
Proof.
  unfold sortedByName, byName. intros Hg Hs.
  induction Hs as [|c l Hl IH Hc]; simpl; [constructor|].
  apply Forall_cons in Hg as [Hgc Hgl].
  constructor; [apply IH, Hgl|].
  apply Forall_map. rewrite Forall_forall in Hc, Hgl |- *.
  intros d Hd. simpl. rewrite Hgc, (Hgl d Hd). apply Hc, Hd.
Qed.

(** X15. An update that leaves the name of the customer it updates as
    it is (a change of phone or address, with the name sent along
    unchanged or not sent at all) does not move anyone: on a list sorted
    by name, with a collation that answers the two orders of a pair
    consistently, the list after the update is the list before it with
    the customer's data replaced in place. *)
Theorem update_without_rename_keeps_order
    (localeCompare : jsstring -> jsstring -> Z) (w : World) (id : jsstring)
    (data : Customer.patch) :
  reversingComparator localeCompare ->
  sortedByName localeCompare (AppState.customers (app w)) ->
  is_Some (Store.customers (db w) !! id) ->
  Forall (fun c => Customer.id c = id ->
                   Customer.name (Customer.merge c data) = Customer.name c)
    (AppState.customers (app w)) ->
  AppState.customers
    (app (after (handleUpdateCustomer localeCompare true id data) w))
  = List.map
      (fun c => if decide (Customer.id c = id) then Customer.merge c data else c)
      (AppState.customers (app w)).
Proof.
  intros Hrev Hs [old Hold] Hnames.
  unfold after, handleUpdateCustomer, tryCatch, updateCustomerDoc, mbind,
    M_bind, getDb, putDb, setState. simpl. rewrite Hold. simpl.
  apply jsSort_sorted_input.
  - intros a b. unfold byName. apply Hrev.
  - apply (sorted_map_same_names localeCompare); [|exact Hs].
    eapply Forall_impl; [exact Hnames|]. intros c Hc. simpl.
    destruct (decide (Customer.id c = id)) as [e|_]; [exact (Hc e)|reflexivity].
Qed.

Lemma includes_empty (s : jsstring) : includes s [] = true.
Proof. destruct s; reflexivity. Qed.

(** X16. With an empty search term the customer manager shows the
    whole list, and for every search term what it shows is in the
    order of the list: a list sorted by name is shown sorted by name. *)
Theorem search_shows_sorted_sublist (toLowerCase : jsstring -> jsstring)
    (localeCompare : jsstring -> jsstring -> Z)
    (customers : list Customer.t) (searchTerm : jsstring) :
  toLowerCase [] = [] ->
  CustomerManager.filteredCustomers toLowerCase customers [] = customers
  /\ sublist (CustomerManager.filteredCustomers toLowerCase customers searchTerm)
       customers
  /\ (sortedByName localeCompare customers ->
      sortedByName localeCompare
        (CustomerManager.filteredCustomers toLowerCase customers searchTerm)).
Proof.
  intros Hlow. unfold CustomerManager.filteredCustomers. split; [|split].
  - rewrite Hlow. induction customers as [|c l IH]; simpl; [reflexivity|].
    rewrite includes_empty. simpl. f_equal. exact IH.
  - induction customers as [|c l IH]; simpl; [constructor|].
    destruct (_ || _); [apply sublist_skip|apply sublist_cons]; exact IH.
  - intros Hs. apply filter_sorted, Hs.
Qed.

(** ** Products *)

Lemma fold_max_bounds (ps : list Product.t) (m : Z) :
  m <= fold_left (fun m p => Z.max m (Product.id p)) ps m
  /\ Forall
       (fun p => Product.id p
                 <= fold_left (fun m p => Z.max m (Product.id p)) ps m)
       ps.
Proof.
  revert m. induction ps as [|p ps IH]; intros m; simpl; [split; [lia|constructor]|].
  destruct (IH (Z.max m (Product.id p))) as [Hm Hps].
  split; [lia|]. constructor; [lia|exact Hps].
Qed.

Lemma maxId_bounds (ps : list Product.t) :
  0 <= maxId ps /\ Forall (fun p => Product.id p <= maxId ps) ps.
Proof. apply fold_max_bounds. Qed.


Lemma filter_other_codes (id : Z) (ps : list Product.t) :
  Forall (fun p => Product.id p <> id) ps ->
  List.filter (fun p => negb (Product.id p =? id)) ps = ps.
Proof.
  induction 1 as [|p ps Hp _ IH]; simpl; [reflexivity|].
  destruct (Z.eqb_spec (Product.id p) id); [contradiction|].
  simpl. rewrite IH. reflexivity.
Qed.

(** X18. A delete of the product code [id] either fails at the store
    (the call was issued and refused: list and collection stay as they
    are, an alert is raised), or leaves a list in which no product has
    this code and every other product is where it was.  A product that
    has no stored document (no document id is given and none is found
    in the list) is removed from the list without any call to the
    store, also when the store would refuse. *)
Theorem delete_product_removes_code (ok : bool) (id : Z)
    (docId : option jsstring) (s : Shop) :
  let s' := handleDeleteProduct ok id docId s in
  ((ok = false /\ is_Some (targetDoc id docId (products s)))
   /\ products s' = products s
   /\ productDocs s' = productDocs s
   /\ productAlerts s' = productAlerts s ++ [AlertDeleteProductFailed])
  \/ ((ok = true \/ targetDoc id docId (products s) = None)
      /\ productAlerts s' = productAlerts s
      /\ Forall (fun p => Product.id p <> id) (products s')
      /\ (forall p, p ∈ products s' <-> p ∈ products s /\ Product.id p <> id)
      /\ sublist (products s') (products s)
      /\ productDocs s'
         = match targetDoc id docId (products s) with
           | Some d => delete d (productDocs s)
           | None => productDocs s
           end).
Proof.
  intros s'. subst s'. unfold handleDeleteProduct.
  assert (Hfilter :
    let removed := List.filter (fun p => negb (Product.id p =? id)) (products s) in
    Forall (fun p => Product.id p <> id) removed
    /\ (forall p, p ∈ removed <-> p ∈ products s /\ Product.id p <> id)
    /\ sublist removed (products s)).
  { cbv zeta. split; [|split].
    - apply Forall_forall. intros p Hp. apply list_elem_of_In, filter_In in Hp.
      destruct Hp as [_ Hp]. apply negb_true_iff, Z.eqb_neq in Hp. exact Hp.
    - intros p. rewrite !list_elem_of_In, filter_In, negb_true_iff, Z.eqb_neq.
      reflexivity.
    - induction (products s) as [|p ps IH]; simpl; [constructor|].
      destruct (negb _); [apply sublist_skip|apply sublist_cons]; exact IH. }
  cbv zeta in Hfilter. destruct Hfilter as (H1 & H2 & H3).
  destruct (targetDoc id docId (products s)) as [d|] eqn:Ht.
  - destruct ok; simpl.
    + right. split; [left; reflexivity|]. split; [reflexivity|].
      split; [exact H1|]. split; [exact H2|]. split; [exact H3|reflexivity].
    + left. split; [split; [reflexivity|eauto]|]. repeat split; reflexivity.
  - right. simpl. split; [right; reflexivity|]. split; [reflexivity|].
    split; [exact H1|]. split; [exact H2|]. split; [exact H3|reflexivity].
Qed.

(** X19. Adding a product and then deleting it again gives back the
    shop as it was: the list, the collection of the store and the
    alerts.  The store has assigned an id that is not empty and was not
    in use. *)
Theorem add_then_delete_product (name : jsstring) (price : Q) (s : Shop)
    (uid docRef : jsstring) :
  shopUser s = Some uid ->
  docRef <> [] ->
  productDocs s !! docRef = None ->
  handleDeleteProduct true (maxId (products s) + 1) (Some docRef)
    (handleAddProduct (Some docRef) name price s)
  = s.
Proof.
  intros Hu Hne Hfresh. unfold handleAddProduct. rewrite Hu. cbv zeta.
  unfold handleDeleteProduct, targetDoc.
  cbn [products productDocs productAlerts world Product.docId].
  rewrite (truthy_Some docRef Hne). cbv iota.
  rewrite delete_insert_eq, (delete_id _ _ Hfresh).
  rewrite List.filter_app. simpl. rewrite Z.eqb_refl. simpl.
  rewrite app_nil_r, filter_other_codes.
  - destruct s; reflexivity.
  - destruct (maxId_bounds (products s)) as [_ Hle].
    eapply Forall_impl; [exact Hle|]. intros p Hp. simpl in Hp. lia.
Qed.

(** X20. An update of a product never changes a code, a document id,
    the length or the order of the list, and it leaves the products of
    other codes as they are.  When it goes through, every product of
    the code has the new name and price, and so has the stored document
    that was addressed, with its code and owner kept; when the store
    refuses, list and collection stay as they are and an alert is
    raised. *)
Theorem update_product_keeps_codes (ok : bool) (id : Z) (name : jsstring)
    (price : Q) (docId : option jsstring) (s : Shop) :
  let s' := handleUpdateProduct ok id name price docId s in
  Product.id <$> products s' = Product.id <$> products s
  /\ Product.docId <$> products s' = Product.docId <$> products s
  /\ Forall2 (fun p p' => Product.id p <> id -> p' = p) (products s) (products s')
  /\ (productAlerts s' = productAlerts s ->
      Forall (fun p => Product.id p = id ->
                       Product.name p = name /\ Product.price p = price)
        (products s')
      /\ forall d, targetDoc id docId (products s) = Some d ->
           exists old, productDocs s !! d = Some old
                       /\ productDocs s' !! d
                          = Some (ProductDoc.mk (ProductDoc.id old) name price
                                    (ProductDoc.userId old)))
  /\ (productAlerts s' <> productAlerts s ->
      products s' = products s /\ productDocs s' = productDocs s).
Proof.
  intros s'. subst s'. unfold handleUpdateProduct.
  set (upd := fun p : Product.t =>
                if Product.id p =? id
                then Product.mk (Product.id p) name price (Product.docId p)
                else p).
  assert (Hid : forall ps, Product.id <$> List.map upd ps = Product.id <$> ps).
  { induction ps as [|p ps IH]; simpl; [reflexivity|].
    f_equal; [|exact IH]. unfold upd. destruct (Product.id p =? id); reflexivity. }
  assert (Hdoc : forall ps,
            Product.docId <$> List.map upd ps = Product.docId <$> ps).
  { induction ps as [|p ps IH]; simpl; [reflexivity|].
    f_equal; [|exact IH]. unfold upd. destruct (Product.id p =? id); reflexivity. }
  assert (Hother : forall ps,
            Forall2 (fun p p' => Product.id p <> id -> p' = p) ps
              (List.map upd ps)).
  { induction ps as [|p ps IH]; simpl; constructor; [|exact IH].
    unfold upd. destruct (Z.eqb_spec (Product.id p) id);
      [contradiction|reflexivity]. }
  assert (Hnew : forall ps,
            Forall (fun p => Product.id p = id ->
                             Product.name p = name /\ Product.price p = price)
              (List.map upd ps)).
  { intros ps. apply Forall_map, Forall_forall. intros p _. unfold upd.
    destruct (Z.eqb_spec (Product.id p) id); simpl; [split; reflexivity|].
    contradiction. }
  specialize (Hid (products s)). specialize (Hdoc (products s)).
  specialize (Hother (products s)). specialize (Hnew (products s)).
  set (updated := List.map upd (products s)) in *.
  assert (Hsame : Forall2 (fun p p' => Product.id p <> id -> p' = p)
                    (products s) (products s)).
  { apply Forall2_same_length_lookup_2; [reflexivity|].
    intros i p p' Hp Hp' _. congruence. }
  assert (Hno : forall al : list ProductAlert,
            al ++ [AlertUpdateProductFailed] <> al).
  { intros al H. apply (f_equal length) in H. rewrite length_app in H.
    simpl in H. lia. }
  destruct (targetDoc id docId (products s)) as [d|] eqn:Ht.
  - destruct ok; [destruct (productDocs s !! d) as [old|] eqn:Hold|]; simpl.
    + split; [exact Hid|]. split; [exact Hdoc|]. split; [exact Hother|].
      split; [|intros H; contradiction].
      intros _. split; [exact Hnew|]. intros d' Hd'. injection Hd' as <-.
      exists old. split; [exact Hold|]. rewrite lookup_insert_eq. reflexivity.
    + split; [reflexivity|]. split; [reflexivity|]. split; [exact Hsame|].
      split; [intros H; exfalso; exact (Hno _ H)|]. intros _. split; reflexivity.
    + split; [reflexivity|]. split; [reflexivity|]. split; [exact Hsame|].
      split; [intros H; exfalso; exact (Hno _ H)|]. intros _. split; reflexivity.
  - simpl. split; [exact Hid|]. split; [exact Hdoc|]. split; [exact Hother|].
    split; [|intros H; contradiction].
    intros _. split; [exact Hnew|]. intros d' Hd'. discriminate.
Qed.

(** ** Loading the lists (loadData) *)

Lemma elem_of_customersOf (uid d : jsstring) (data : Customer.t)
    (m : gmap jsstring Customer.t) :
  (d, data) ∈ customersOf uid m
  <-> m !! d = Some data /\ Customer.userId data = uid.
Proof.
  unfold customersOf. rewrite list_elem_of_In, filter_In, <- list_elem_of_In.
  rewrite elem_of_map_to_list. simpl. rewrite bool_decide_eq_true. reflexivity.
Qed.

Lemma customersOf_NoDup (uid : jsstring) (m : gmap jsstring Customer.t) :
  NoDup ((customersOf uid m).*1).
Proof.
  unfold customersOf.
  apply (sublist_NoDup _ ((map_to_list m).*1));
    [apply (NoDup_fst_map_to_list m)|].
  apply fmap_sublist.
  induction (map_to_list m) as [|x l IH]; simpl; [constructor|].
  destruct (bool_decide _); [apply sublist_skip|apply sublist_cons]; exact IH.
Qed.

(** X21. Signed in, with both queries answered and the customer query
    answered with the documents of the store that carry the user's id,
    the customer list after loading is sorted by name, lists each of
    these documents once under its document id, and lists nothing
    else. *)
Theorem load_lists_the_users_customers
    (localeCompare : jsstring -> jsstring -> Z) (uid : jsstring)
    (docs : list (jsstring * ProductDoc.t)) (s : Shop) :
  ConsistentComparator localeCompare ->
  shopUser s = Some uid ->
  let stored := Store.customers (db (world s)) in
  let s' := loadData localeCompare (Some docs) (Some (customersOf uid stored)) s in
  let listed := AppState.customers (app (world s')) in
  sortedByName localeCompare listed
  /\ NoDup (Customer.id <$> listed)
  /\ (forall c, c ∈ listed
                <-> exists data, stored !! Customer.id c = Some data
                                 /\ Customer.userId data = uid
                                 /\ c = loadedCustomer (Customer.id c) data)
  /\ db (world s') = db (world s).
Proof.
  intros Hcmp Hu stored s' listed.
  assert (Hl : listed
               = jsSort (byName localeCompare)
                   (List.map (fun d => loadedCustomer d.1 d.2)
                      (customersOf uid stored))).
  { subst listed s'. unfold loadData. rewrite Hu. reflexivity. }
  assert (Hdb : db (world s') = db (world s)).
  { subst s'. unfold loadData. rewrite Hu. reflexivity. }
  clearbody listed. subst listed. split; [|split; [|split]].
  - apply jsSort_sorted, byName_consistent, Hcmp.
  - rewrite jsSort_Permutation.
    replace (Customer.id <$> List.map (fun d => loadedCustomer d.1 d.2)
                               (customersOf uid stored))
      with ((customersOf uid stored).*1); [apply customersOf_NoDup|].
    clear. generalize (customersOf uid stored). intros l.
    induction l as [|x l IH]; simpl; [reflexivity|].
    f_equal. exact IH.
  - intros c. rewrite jsSort_Permutation, list_elem_of_In, in_map_iff. split.
    + intros [[d data] [<- Hin]]. simpl.
      apply list_elem_of_In, elem_of_customersOf in Hin as [Hd Hown].
      exists data. auto.
    + intros (data & Hd & Hown & Hc). exists (Customer.id c, data).
      split; [symmetry; exact Hc|].
      apply list_elem_of_In, elem_of_customersOf. auto.
  - exact Hdb.
Qed.

(** X22. Loading never empties the customer list on a failure: when
    either query fails the customers stay as they were, and when the
    first one fails nothing at all changes; without a user both lists
    are emptied. *)
Theorem failed_load_keeps_the_lists
    (localeCompare : jsstring -> jsstring -> Z)
    (productsSnap : option (list (jsstring * ProductDoc.t)))
    (customersSnap : option (list (jsstring * Customer.t))) (s : Shop) :
  let s' := loadData localeCompare productsSnap customersSnap s in
  (shopUser s = None ->
   products s' = [] /\ AppState.customers (app (world s')) = [])
  /\ (shopUser s <> None ->
      (productsSnap = None -> s' = s)
      /\ (customersSnap = None ->
          AppState.customers (app (world s'))
          = AppState.customers (app (world s))))
  /\ productDocs s' = productDocs s
  /\ db (world s') = db (world s).
Proof.
  intros s'. subst s'. unfold loadData.
  destruct (shopUser s) as [uid|] eqn:Hu.
  - split; [discriminate|]. split.
    + intros _. split; [intros ->; reflexivity|].
      intros ->. destruct productsSnap; reflexivity.
    + destruct productsSnap, customersSnap; split; reflexivity.
  - split; [intros _; split; reflexivity|].
    split; [intros H; contradiction|]. split; reflexivity.
Qed.

(** ** The logo of the firm setup form *)

Lemma logo_step_acceptable (file : option Logo.File) (s : Logo.State) :
  (forall f, Logo.logoFile s = Some f -> Logo.acceptable f) ->
  forall f, Logo.logoFile (Logo.handleLogoChange file s) = Some f ->
            Logo.acceptable f.
Proof.
  intros Hs f. unfold Logo.handleLogoChange.
  destruct file as [g|]; [|apply Hs].
  destruct (startsWith Logo.image (Logo.type g)) eqn:Ht; simpl; [|apply Hs].
  destruct (Z.gtb_spec (Logo.size g) (500 * 1024)) as [Hgt|Hle]; simpl;
    [apply Hs|].
  intros [= <-]. split; [exact Ht|lia].
Qed.

(** X23. Whatever files are chosen one after the other, the logo kept
    by the form is an image of at most 512000 bytes when the one it
    started with is (or when it started without one); a file that is
    turned down leaves the logo chosen before in place and sets the
    error, a file that is taken clears the error. *)
Theorem logo_stays_acceptable (files : list (option Logo.File))
    (s : Logo.State) :
  (forall f, Logo.logoFile s = Some f -> Logo.acceptable f) ->
  let final := fold_left (fun st file => Logo.handleLogoChange file st) files s in
  (forall f, Logo.logoFile final = Some f -> Logo.acceptable f)
  /\ (forall g,
        let s' := Logo.handleLogoChange (Some g) final in
        (Logo.logoFile s' = Some g /\ Logo.error s' = None
         /\ Logo.acceptable g)
        \/ (Logo.logoFile s' = Logo.logoFile final /\ Logo.error s' <> None
            /\ ~ Logo.acceptable g)).
Proof.
  intros Hs final.
  assert (Hfinal : forall f, Logo.logoFile final = Some f -> Logo.acceptable f).
  { subst final. revert s Hs.
    induction files as [|file files IH]; intros s Hs; simpl; [exact Hs|].
    apply IH. apply logo_step_acceptable. exact Hs. }
  split; [exact Hfinal|].
  intros g s'. subst s'. unfold Logo.handleLogoChange, Logo.acceptable.
  destruct (startsWith Logo.image (Logo.type g)) eqn:Ht; simpl.
  - destruct (Z.gtb_spec (Logo.size g) (500 * 1024)) as [Hgt|Hle]; simpl.
    + right. split; [reflexivity|]. split; [discriminate|]. lia.
    + left. split; [reflexivity|]. split; [reflexivity|]. split; [reflexivity|lia].
  - right. split; [reflexivity|]. split; [discriminate|].
    intros [H _]. discriminate.
Qed.

(** ** Saving the firm details and opening the form again *)

Section FirmForm.
Import FirmSetup.
Local Open Scope string_scope.

Lemma optional_other (n k : string) (v : jsstring) (m : gmap string jsstring) :
  k <> n ->
  (match v with [] => m | c :: r => <[n := c :: r]> m end) !! k = m !! k.
Proof.
  intros Hk. destruct v; [reflexivity|]. apply lookup_insert_ne. congruence.
Qed.

Lemma optional_same (n : string) (v : jsstring) (m : gmap string jsstring) :
  m !! n = None ->
  default [] ((match v with [] => m | c :: r => <[n := c :: r]> m end) !! n) = v.
Proof.
  intros Hn. destruct v; [rewrite Hn; reflexivity|].
  rewrite lookup_insert_eq. reflexivity.
Qed.

Lemma optional_noEmpty (n : string) (v : jsstring) (m : gmap string jsstring) :
  noEmptyOptional m ->
  noEmptyOptional (match v with [] => m | c :: r => <[n := c :: r]> m end).
Proof.
  intros Hm. destruct v as [|c v]; [exact Hm|].
  intros k x. destruct (decide (k = n)) as [->|Hk].
  - rewrite lookup_insert_eq. intros [= <-]. right. right. discriminate.
  - rewrite lookup_insert_ne by congruence. apply Hm.
Qed.

Ltac other_fields :=
  repeat (rewrite optional_other by discriminate);
  repeat (rewrite lookup_insert_ne by discriminate).

Lemma saved_field (uid logoBase64 : jsstring) (serverTime : Z) (s : State)
    (i : TextInput) :
  default [] (fields (firmDetailsToSave uid logoBase64 serverTime s)
              !! textInputName i)
  = default [] (formData s !! textInputName i).
Proof.
  unfold firmDetailsToSave. cbn [fields].
  destruct i; cbn [textInputName];
    other_fields;
    try (rewrite lookup_insert_eq; reflexivity);
    (rewrite optional_same; [reflexivity|]);
    other_fields; apply lookup_empty.
Qed.

Lemma initial_field (d : FirmDoc) (i : TextInput) :
  formData (initialState (Some d)) !! textInputName i
  = Some (default [] (fields d !! textInputName i)).
Proof.
  unfold initialState, allTextInputs. cbn [formData fold_right].
  destruct i; cbn [textInputName];
    repeat (rewrite lookup_insert_ne by discriminate);
    rewrite lookup_insert_eq; reflexivity.
Qed.

Lemma initial_checkbox (d : FirmDoc) (c : Checkbox) :
  displaySettingsState (initialState (Some d)) !! checkboxName c
  = Some (orTrue (displaySettings d !! checkboxName c)).
Proof.
  unfold initialState, allCheckboxes, allDisplayTexts.
  cbn [displaySettingsState fold_right displayTextName].
  destruct c; cbn [checkboxName];
    repeat (rewrite lookup_insert_ne by discriminate);
    rewrite lookup_insert_eq; reflexivity.
Qed.

Lemma initial_displayText (d : FirmDoc) (t : DisplayText) :
  displaySettingsState (initialState (Some d)) !! displayTextName t
  = Some (orEmpty (displaySettings d !! displayTextName t)).
Proof.
  unfold initialState, allCheckboxes, allDisplayTexts.
  cbn [displaySettingsState fold_right].
  destruct t; cbn [displayTextName];
    repeat (rewrite lookup_insert_ne by discriminate);
    rewrite lookup_insert_eq; reflexivity.
Qed.

(** X24. Opening the form on the details that a submit has written
    shows what the form held at the submit, for a form that holds a
    value for each of its text fields: every text field (an empty
    one is not written and comes back empty), every tick box that held
    a boolean (an unticked one stays unticked) and every display text
    that held a string. *)
Theorem reopened_form_shows_saved_values (uid logoBase64 : jsstring)
    (serverTime : Z) (s : State) :
  (forall i, is_Some (formData s !! textInputName i)) ->
  let saved := firmDetailsToSave uid logoBase64 serverTime s in
  let s' := initialState (Some saved) in
  (forall i, formData s' !! textInputName i = formData s !! textInputName i)
  /\ (forall c b, displaySettingsState s !! checkboxName c = Some (VBool b) ->
                  displaySettingsState s' !! checkboxName c = Some (VBool b))
  /\ (forall t v, displaySettingsState s !! displayTextName t = Some (VStr v) ->
                  displaySettingsState s' !! displayTextName t = Some (VStr v)).
Proof.
  intros Hfields saved s'. subst s'. split; [|split].
  - intros i. rewrite initial_field. subst saved. rewrite saved_field.
    destruct (Hfields i) as [v ->]. reflexivity.
  - intros c b Hc. rewrite initial_checkbox. subst saved.
    unfold firmDetailsToSave. cbn [displaySettings]. rewrite Hc. reflexivity.
  - intros t v Ht. rewrite initial_displayText. subst saved.
    unfold firmDetailsToSave. cbn [displaySettings]. rewrite Ht.
    destruct v; reflexivity.
Qed.

(** X25. A submit writes no optional field with an empty value: a field
    of the written document other than the firm name and the address is
    not empty, and no logo is written as the empty string. *)
Theorem submit_writes_no_empty_optional_field (uid logoBase64 : jsstring)
    (serverTime : Z) (s : State) :
  let saved := firmDetailsToSave uid logoBase64 serverTime s in
  noEmptyOptional (fields saved)
  /\ logoUrl saved <> Some []
  /\ is_Some (fields saved !! "firmName")
  /\ is_Some (fields saved !! "address").
Proof.
  intros saved. subst saved. unfold firmDetailsToSave. cbn [fields logoUrl].
  split; [|split; [|split]].
  - repeat apply optional_noEmpty.
    intros n v. destruct (decide (n = "address")) as [->|Ha]; [auto|].
    rewrite lookup_insert_ne by congruence.
    destruct (decide (n = "firmName")) as [->|Hf]; [auto|].
    rewrite lookup_insert_ne by congruence. rewrite lookup_empty. discriminate.
  - destruct logoBase64; discriminate.
  - other_fields. rewrite lookup_insert_eq. eauto.
  - other_fields. rewrite lookup_insert_eq. eauto.
Qed.

End FirmForm.

(** ** Opening an edit in the customer manager *)


(** ** Looking at an invoice of the history *)

(** X27. An invoice of the history that has an id is printed without
    a store call: opened from a view other than the form, the print
    goes through whatever the store would answer, the store and the
    alerts are as before, and going back leaves no invoice on display
    and the view where it was. *)
Theorem stored_invoice_prints_without_store_call (env : SaveEnv)
    (invoice : InvoiceData.t) (w : World) :
  AppState.view (app w) <> ViewForm ->
  Js.truthy (InvoiceData.id invoice) = true ->
  let look := (_ ← handleViewInvoice invoice; printCurrent false env) in
  result look w = Returned PrintDone
  /\ db (after look w) = db w
  /\ alerts (after look w) = alerts w
  /\ AppState.currentInvoice (app (after look w)) = Some invoice
  /\ AppState.currentInvoice (app (after (_ ← look; handleBack) w)) = None
  /\ AppState.view (app (after (_ ← look; handleBack) w))
     = AppState.view (app w)
  /\ AppState.editingInvoice (app (after (_ ← look; handleBack) w))
     = AppState.editingInvoice (app w).
Proof.
  intros Hv Ht look. subst look. destruct w as [[u v ci ei cs fd] d al].
  unfold result, after, handleViewInvoice, handleBack, printCurrent,
    handlePrint, mbind, M_bind, getApp, setState, mret, M_ret. simpl in *.
  rewrite Ht. destruct v; [contradiction| | |];
    simpl; repeat split; reflexivity.
Qed.

(** ** The further properties on the sample data *)

Lemma totals_within_bounds_witness :
  AppState.user (app freeformWorld) = Some sampleUid
  /\ Forall (plausibleItem 0%Q) exampleItems
  /\ exists preview,
       AppState.currentInvoice
         (app (after (handleGenerateBill 0%Q 0 (lit "Asha") (lit "98250")
                        exampleItems 0) freeformWorld)) = Some preview
       /\ (InvoiceData.gstAmount preview <= InvoiceData.subtotal preview)%Q
       /\ (InvoiceData.subtotal preview <= InvoiceData.grandTotal preview)%Q.
Proof.
  assert (Hp : Forall (plausibleItem 0%Q) exampleItems)
    by (repeat constructor; vm_compute; discriminate).
  split; [reflexivity|]. split; [exact Hp|].
  destruct (totals_within_bounds 0%Q freeformWorld sampleUid 0 (lit "Asha")
              (lit "98250") exampleItems 0 eq_refl Hp)
    as (preview & Hc & _ & _ & Hg & Hs & _).
  exists preview. split; [exact Hc|]. split; [exact Hg|exact Hs].
Defined.

Lemma flat_rate_agrees_with_first_version_witness :
  AppState.user (app freeformWorld) = Some sampleUid
  /\ Forall (fun item => BillItem.gstRate item = None) flatItems
  /\ exists preview first,
       AppState.currentInvoice
         (app (after (handleGenerateBill (5 # 100) 0 (lit "Asha") (lit "98250")
                        flatItems 0) freeformWorld)) = Some preview
       /\ AppState.currentInvoice
            (app (after (LegacyApp.handleGenerateBill (5 # 100) 0 0
                           (lit "Asha") (lit "98250") flatItems)
                    freeformWorld)) = Some first
       /\ (InvoiceData.grandTotal preview == InvoiceData.grandTotal first)%Q.
Proof.
  assert (Hf : Forall (fun item => BillItem.gstRate item = None) flatItems)
    by (repeat constructor).
  split; [reflexivity|]. split; [exact Hf|].
  destruct (flat_rate_agrees_with_first_version (5 # 100) freeformWorld
              sampleUid 0 0 (lit "Asha") (lit "98250") flatItems 0 eq_refl Hf)
    as (preview & first & Hc & Hl & _ & _ & _ & Hg).
  exists preview, first. split; [exact Hc|]. split; [exact Hl|exact Hg].
Defined.

Lemma shown_line_taxes_add_up_witness :
  AppState.user (app freeformWorld) = Some sampleUid
  /\ exists preview,
       AppState.currentInvoice
         (app (after (handleGenerateBill 0%Q 0 (lit "Asha") (lit "98250")
                        exampleItems 0) freeformWorld)) = Some preview
       /\ (Spec.sum (List.map (shownLineTax 0%Q) (InvoiceData.items preview))
           == InvoiceData.gstAmount preview)%Q.
Proof.
  split; [reflexivity|].
  exact (proj1 (shown_line_taxes_add_up 0%Q freeformWorld sampleUid 0
                  (lit "Asha") (lit "98250") exampleItems 0 eq_refl)).
Defined.

Lemma generated_prefix_shape_witness :
  forallb Js.isUpperAlnum (generateInvoicePrefix (Some (lit "Shree Oil Mill")))
  = true
  /\ (1 <= length (generateInvoicePrefix (Some (lit "Shree Oil Mill"))) <= 5)%nat.
Proof. exact (generated_prefix_shape (Some (lit "Shree Oil Mill"))). Defined.

Lemma prefix_handler_keeps_valid_prefix_witness :
  FirmSetup.validPrefix (lit "SOM2024")
  /\ FirmSetup.displaySettingsState
       (FirmSetup.handleDisplaySettingTextChange "customInvoicePrefix"
          (lit "SOM2024") filledForm)
     !! "customInvoicePrefix"%string = Some (FirmSetup.VStr (lit "SOM2024")).
Proof.
  assert (Hv : FirmSetup.validPrefix (lit "SOM2024"))
    by (split; [reflexivity|vm_compute; lia]).
  split; [exact Hv|].
  exact (proj1 (prefix_handler_keeps_valid_prefix filledForm (lit "SOM2024") Hv)).
Defined.

Lemma sequential_numbers_distinct_witness :
  AppState.user (app sequentialWorld) = Some sampleUid
  /\ sequentialFormat (AppState.firmDetails (app sequentialWorld))
     = Some (sequentialFrom (Some 5) None)
  /\ is_Some (Store.firmDetails (db sequentialWorld) !! sampleUid)
  /\ allSucceed [sampleBill (acceptAll "inv-1"); sampleBill (acceptAll "inv-2")]
  /\ exists rs,
       result
         (newBills 0%Q
            [sampleBill (acceptAll "inv-1"); sampleBill (acceptAll "inv-2")])
         sequentialWorld = Returned rs
       /\ NoDup (rs.*2).
Proof.
  assert (Hs : is_Some (Store.firmDetails (db sequentialWorld) !! sampleUid))
    by (vm_compute; eauto).
  assert (Ha : allSucceed
                 [sampleBill (acceptAll "inv-1"); sampleBill (acceptAll "inv-2")])
    by (repeat constructor; simpl; eauto).
  split; [reflexivity|]. split; [reflexivity|]. split; [exact Hs|].
  split; [exact Ha|].
  destruct (sequential_numbers_distinct 0%Q sampleUid sequentialWorld
              (sequentialFrom (Some 5) None)
              [sampleBill (acceptAll "inv-1"); sampleBill (acceptAll "inv-2")]
              eq_refl eq_refl Hs Ha)
    as (rs & Hr & _ & _ & Hn).
  exists rs. split; [exact Hr|exact Hn].
Defined.

Lemma freeform_numbers_differ_by_clock_witness :
  AppState.user (app freeformWorld) = Some sampleUid
  /\ AppState.editingInvoice (app freeformWorld) = None
  /\ sequentialFormat (AppState.firmDetails (app freeformWorld)) = None
  /\ exists p1 p2,
       AppState.currentInvoice
         (app (after (handleGenerateBill 0%Q 1700000000000 (lit "Asha")
                        (lit "98250") exampleItems 1699990000000)
                 freeformWorld)) = Some p1
       /\ AppState.currentInvoice
            (app (after (handleGenerateBill 0%Q 1700000000001 (lit "Asha")
                           (lit "98250") exampleItems 1699990000000)
                    freeformWorld)) = Some p2
       /\ InvoiceData.invoiceNumber p1 <> InvoiceData.invoiceNumber p2.
Proof.
  split; [reflexivity|]. split; [reflexivity|]. split; [reflexivity|].
  destruct (freeform_numbers_differ_by_clock 0%Q freeformWorld sampleUid
              1700000000000 1700000000001
              (mkBill (lit "Asha") (lit "98250") exampleItems 1699990000000
                 1700000000000 (acceptAll "inv-1"))
              (mkBill (lit "Asha") (lit "98250") exampleItems 1699990000000
                 1700000000001 (acceptAll "inv-2"))
              eq_refl eq_refl eq_refl)
    as (p1 & p2 & H1 & H2 & Hiff).
  exists p1, p2. split; [exact H1|]. split; [exact H2|].
  intros He. apply Hiff in He. discriminate He.
Defined.

Lemma failed_save_can_be_retried_witness :
  AppState.user (app sequentialWorld) = Some sampleUid
  /\ result (handleSaveInvoice createFails emptyLineIdPreview) sequentialWorld
     = Returned (Some false)
  /\ invoiceCreate createFails = None
  /\ result (handleSaveInvoice (acceptAll "inv-1") emptyLineIdPreview)
       (after (handleSaveInvoice createFails emptyLineIdPreview)
          sequentialWorld)
     = result (handleSaveInvoice (acceptAll "inv-1") emptyLineIdPreview)
         sequentialWorld.
Proof.
  assert (Hr : result (handleSaveInvoice createFails emptyLineIdPreview)
                 sequentialWorld = Returned (Some false))
    by (vm_compute; reflexivity).
  split; [reflexivity|]. split; [exact Hr|]. split; [reflexivity|].
  destruct (failed_save_can_be_retried createFails (acceptAll "inv-1")
              emptyLineIdPreview sequentialWorld sampleUid eq_refl Hr
              (fun _ => eq_refl))
    as (_ & _ & Hsame & _).
  exact Hsame.
Defined.

Lemma retry_after_counter_failure_duplicates_witness :
  AppState.user (app countingWorld) = Some sampleUid
  /\ AppState.editingInvoice (app countingWorld) = None
  /\ sequentialFormat (AppState.firmDetails (app countingWorld))
     = Some (sequentialFrom (Some 1) (Some 4))
  /\ is_Some (Store.firmDetails (db countingWorld) !! sampleUid)
  /\ invoiceCreate counterFails = Some (lit "inv-1")
  /\ counterUpdate counterFails = false
  /\ invoiceCreate (acceptAll "inv-2") = Some (lit "inv-2")
  /\ counterUpdate (acceptAll "inv-2") = true
  /\ lit "inv-1" <> lit "inv-2"
  /\ exists preview,
       AppState.currentInvoice
         (app (after (handleGenerateBill 0%Q 1700000000000 (lit "Asha")
                        (lit "98250") exampleItems 1699990000000)
                 countingWorld)) = Some preview
       /\ InvoiceData.invoiceNumber preview = lit "SOM-5"
       /\ (exists doc1 doc2,
             Store.invoices
               (db (after (handleSaveInvoice (acceptAll "inv-2") preview)
                      (after (handleSaveInvoice counterFails preview)
                         (after (handleGenerateBill 0%Q 1700000000000
                                   (lit "Asha") (lit "98250") exampleItems
                                   1699990000000) countingWorld))))
             !! lit "inv-1" = Some doc1
             /\ Store.invoices
                  (db (after (handleSaveInvoice (acceptAll "inv-2") preview)
                         (after (handleSaveInvoice counterFails preview)
                            (after (handleGenerateBill 0%Q 1700000000000
                                      (lit "Asha") (lit "98250") exampleItems
                                      1699990000000) countingWorld))))
                !! lit "inv-2" = Some doc2
             /\ InvoiceDoc.invoiceNumber doc1 = lit "SOM-5"
             /\ InvoiceDoc.invoiceNumber doc2 = lit "SOM-5")
       /\ localCounter
            (after (handleSaveInvoice (acceptAll "inv-2") preview)
               (after (handleSaveInvoice counterFails preview)
                  (after (handleGenerateBill 0%Q 1700000000000 (lit "Asha")
                            (lit "98250") exampleItems 1699990000000)
                     countingWorld))) = Some 6
       /\ storedCounter sampleUid
            (after (handleSaveInvoice (acceptAll "inv-2") preview)
               (after (handleSaveInvoice counterFails preview)
                  (after (handleGenerateBill 0%Q 1700000000000 (lit "Asha")
                            (lit "98250") exampleItems 1699990000000)
                     countingWorld))) = Some 6.
Proof.
  assert (Hs : is_Some (Store.firmDetails (db countingWorld) !! sampleUid))
    by (vm_compute; eauto).
  assert (Hne : lit "inv-1" <> lit "inv-2") by (vm_compute; discriminate).
  split; [reflexivity|]. split; [reflexivity|]. split; [reflexivity|].
  split; [exact Hs|]. split; [reflexivity|]. split; [reflexivity|].
  split; [reflexivity|]. split; [reflexivity|]. split; [exact Hne|].
  destruct (retry_after_counter_failure_duplicates 0%Q (sampleBill counterFails)
              (acceptAll "inv-2") countingWorld sampleUid
              (lit "inv-1") (lit "inv-2") (sequentialFrom (Some 1) (Some 4))
              eq_refl eq_refl eq_refl Hs eq_refl eq_refl eq_refl eq_refl Hne)
    as (preview & Hc & Hn & _ & _ & (doc1 & doc2 & H1 & H2 & Hn1 & Hn2)
        & Hl & Hst & _).
  exists preview. split; [exact Hc|]. split; [rewrite Hn; reflexivity|].
  split; [|split; [exact Hl|exact Hst]].
  exists doc1, doc2. split; [exact H1|]. split; [exact H2|].
  split; [rewrite Hn1|rewrite Hn2]; reflexivity.
Defined.

Lemma print_only_saved_invoices_witness :
  result (printCurrent false (acceptAll "inv-1")) previewWorld
  = Returned PrintDone
  /\ exists shown i,
       AppState.currentInvoice
         (app (after (printCurrent false (acceptAll "inv-1")) previewWorld))
       = Some shown
       /\ InvoiceData.id shown = Some i.
Proof.
  assert (Hr : result (printCurrent false (acceptAll "inv-1")) previewWorld
               = Returned PrintDone)
    by (vm_compute; reflexivity).
  split; [exact Hr|].
  destruct (print_only_saved_invoices false (acceptAll "inv-1") previewWorld)
    as (Hdone & _ & _).
  destruct (Hdone Hr) as (_ & shown & i & Hc & Hi & _).
  exists shown, i. split; [exact Hc|exact Hi].
Defined.

Lemma edit_ends_with_successful_save_witness :
  AppState.user (app editingWorld) = Some sampleUid
  /\ InvoiceData.id storedInvoice = Some (lit "inv-7")
  /\ lit "inv-7" <> []
  /\ fst (editAndResave 0%Q storedInvoice (sampleBill (acceptAll "unused"))
            editingWorld)
     = Returned (Some true, lit "SOM-3")
  /\ AppState.editingInvoice
       (app (snd (editAndResave 0%Q storedInvoice
                    (sampleBill (acceptAll "unused")) editingWorld))) = None.
Proof.
  assert (Hr : fst (editAndResave 0%Q storedInvoice
                      (sampleBill (acceptAll "unused")) editingWorld)
               = Returned (Some true, lit "SOM-3"))
    by (vm_compute; reflexivity).
  split; [reflexivity|]. split; [reflexivity|]. split; [discriminate|].
  split; [exact Hr|].
  destruct (edit_ends_with_successful_save 0%Q editingWorld sampleUid
              storedInvoice (lit "inv-7") (sampleBill (acceptAll "unused"))
              (sampleBill (acceptAll "inv-9")) eq_refl eq_refl
              ltac:(discriminate))
    as (Hok & _ & _).
  exact (proj1 (Hok _ Hr)).
Defined.

Lemma successful_save_keeps_firm_in_step_witness :
  AppState.user (app sequentialWorld) = Some sampleUid
  /\ mirrorsFirm sampleUid sequentialWorld
  /\ result (handleSaveInvoice (acceptAll "inv-1") emptyLineIdPreview)
       sequentialWorld = Returned (Some true)
  /\ mirrorsFirm sampleUid
       (after (handleSaveInvoice (acceptAll "inv-1") emptyLineIdPreview)
          sequentialWorld).
Proof.
  assert (Hm : mirrorsFirm sampleUid sequentialWorld).
  { eexists. split; [vm_compute; reflexivity|]. vm_compute. reflexivity. }
  assert (Hr : result (handleSaveInvoice (acceptAll "inv-1") emptyLineIdPreview)
                 sequentialWorld = Returned (Some true))
    by (vm_compute; reflexivity).
  split; [reflexivity|]. split; [exact Hm|]. split; [exact Hr|].
  exact (proj1 (successful_save_keeps_firm_in_step (acceptAll "inv-1")
                  emptyLineIdPreview sequentialWorld sampleUid eq_refl Hm Hr)).
Defined.

Lemma customer_list_mirrors_store_witness :
  mirrorsCustomers customersWorld
  /\ Store.customers (db customersWorld) !! lit "c2" = None
  /\ mirrorsCustomers
       (after (handleAddCustomer codeUnitCompare (Some (lit "c2"))
                 (Customer.mkInput (lit "Bina") None None None))
          customersWorld).
Proof.
  assert (Hm : mirrorsCustomers customersWorld)
    by (repeat constructor; vm_compute; reflexivity).
  assert (Hn : Store.customers (db customersWorld) !! lit "c2" = None)
    by (vm_compute; reflexivity).
  split; [exact Hm|]. split; [exact Hn|].
  destruct (customer_list_mirrors_store codeUnitCompare customersWorld Hm)
    as (Hadd & _ & _).
  apply Hadd. intros newId [= <-]. exact Hn.
Defined.

Lemma manager_keeps_names_trimmed_witness :
  namesTrimmed (AppState.customers (app customersWorld))
  /\ namesTrimmed
       (AppState.customers
          (app (fold_left (CustomerManager.step codeUnitCompare)
                  [CustomerManager.AddCustomer (lit "  Bina ") [] []
                     (Some (lit "c2"));
                   CustomerManager.SaveEdit (sampleCustomer "c1" "Asha")
                     (lit " Asha Ben") [] [] true;
                   CustomerManager.DeleteCustomer (lit "c3") true true true]
                  (managerStart, customersWorld)).2)).
Proof.
  assert (Hn : namesTrimmed (AppState.customers (app customersWorld)))
    by (repeat constructor; vm_compute; (reflexivity || discriminate)).
  split; [exact Hn|].
  exact (proj1 (manager_keeps_names_trimmed codeUnitCompare _ managerStart
                  customersWorld Hn)).
Defined.

Lemma codeUnitCompare_reversing : reversingComparator codeUnitCompare.
Proof.
  intros a. induction a as [|x a IH]; intros [|y b]; simpl; try lia.
  destruct (N.ltb_spec x y) as [Hxy|Hxy].
  - intros _. destruct (N.ltb_spec y x); [lia|]. lia.
  - destruct (N.ltb_spec y x) as [Hyx|Hyx]; [lia|]. apply IH.
Qed.

Lemma update_without_rename_keeps_order_witness :
  reversingComparator codeUnitCompare
  /\ sortedByName codeUnitCompare (AppState.customers (app customersWorld))
  /\ is_Some (Store.customers (db customersWorld) !! lit "c1")
  /\ Forall
       (fun c =>
          Customer.id c = lit "c1" ->
          Customer.name
            (Customer.merge c
               (Customer.mkPatch (Some (lit "Asha")) (Some (lit "98250"))
                  (Some []) None))
          = Customer.name c)
       (AppState.customers (app customersWorld))
  /\ AppState.customers
       (app (after (handleUpdateCustomer codeUnitCompare true (lit "c1")
                      (Customer.mkPatch (Some (lit "Asha"))
                         (Some (lit "98250")) (Some []) None))
               customersWorld))
     = [Customer.mk (lit "c1") (lit "Asha") (Some (lit "98250")) (Some [])
          None sampleUid;
        sampleCustomer "c3" "Chitra"].
Proof.
  assert (Hs : sortedByName codeUnitCompare
                 (AppState.customers (app customersWorld)))
    by (repeat constructor; vm_compute; discriminate).
  assert (Hi : is_Some (Store.customers (db customersWorld) !! lit "c1"))
    by (vm_compute; eauto).
  assert (Hn : Forall
                 (fun c =>
                    Customer.id c = lit "c1" ->
                    Customer.name
                      (Customer.merge c
                         (Customer.mkPatch (Some (lit "Asha"))
                            (Some (lit "98250")) (Some []) None))
                    = Customer.name c)
                 (AppState.customers (app customersWorld))).
  { repeat constructor; intros H; vm_compute in H |- *;
      (reflexivity || discriminate H). }
  split; [exact codeUnitCompare_reversing|]. split; [exact Hs|].
  split; [exact Hi|]. split; [exact Hn|].
  rewrite (update_without_rename_keeps_order codeUnitCompare customersWorld
             (lit "c1")
             (Customer.mkPatch (Some (lit "Asha")) (Some (lit "98250"))
                (Some []) None)
             codeUnitCompare_reversing Hs Hi Hn).
  vm_compute. reflexivity.
Defined.

Lemma search_shows_sorted_sublist_witness :
  asciiLower [] = []
  /\ sublist
       (CustomerManager.filteredCustomers asciiLower sampleCustomers (lit "ASH"))
       sampleCustomers.
Proof.
  split; [reflexivity|].
  destruct (search_shows_sorted_sublist asciiLower codeUnitCompare
              sampleCustomers (lit "ASH") eq_refl) as (_ & Hsub & _).
  exact Hsub.
Defined.


Lemma delete_product_removes_code_witness :
  Forall (fun p => Product.id p <> 1)
    (products (handleDeleteProduct true 1 None sampleShop))
  /\ productDocs (handleDeleteProduct true 1 None sampleShop) !! lit "p1" = None.
Proof.
  destruct (delete_product_removes_code true 1 None sampleShop)
    as [((Hok & _) & _)|(_ & _ & Hall & _ & _ & Hdocs)];
    [discriminate Hok|].
  split; [exact Hall|]. rewrite Hdocs. vm_compute. reflexivity.
Defined.

Lemma add_then_delete_product_witness :
  shopUser sampleShop = Some sampleUid
  /\ lit "p3" <> []
  /\ productDocs sampleShop !! lit "p3" = None
  /\ handleDeleteProduct true 3 (Some (lit "p3"))
       (handleAddProduct (Some (lit "p3")) (lit "Ghee") 400%Q sampleShop)
     = sampleShop.
Proof.
  assert (Hn : productDocs sampleShop !! lit "p3" = None)
    by (vm_compute; reflexivity).
  split; [reflexivity|]. split; [discriminate|]. split; [exact Hn|].
  exact (add_then_delete_product (lit "Ghee") 400%Q sampleShop sampleUid
           (lit "p3") eq_refl ltac:(discriminate) Hn).
Defined.

Lemma update_product_keeps_codes_witness :
  Product.id <$> products (handleUpdateProduct true 1 (lit "Ghee") 400%Q None
                             sampleShop)
  = [1; 2]
  /\ Product.docId <$> products (handleUpdateProduct true 1 (lit "Ghee") 400%Q
                                   None sampleShop)
     = [Some (lit "p1"); Some (lit "p2")].
Proof.
  destruct (update_product_keeps_codes true 1 (lit "Ghee") 400%Q None
              sampleShop) as (Hid & Hdoc & _).
  split; [rewrite Hid|rewrite Hdoc]; reflexivity.
Defined.

Lemma load_lists_the_users_customers_witness :
  ConsistentComparator codeUnitCompare
  /\ shopUser unloadedShop = Some sampleUid
  /\ Customer.name
       <$> (customersOf sampleUid (Store.customers (db (world unloadedShop)))).*2
     = [lit "Bina"; lit "Asha"; lit "Chitra"]
  /\ sortedByName codeUnitCompare
       (AppState.customers
          (app (world (loadData codeUnitCompare (Some [])
                         (Some (customersOf sampleUid
                                  (Store.customers (db (world unloadedShop)))))
                         unloadedShop))))
  /\ Customer.name
       <$> AppState.customers
             (app (world (loadData codeUnitCompare (Some [])
                            (Some (customersOf sampleUid
                                     (Store.customers
                                        (db (world unloadedShop)))))
                            unloadedShop)))
     = [lit "Asha"; lit "Bina"; lit "Chitra"].
Proof.
  split; [exact codeUnitCompare_consistent|]. split; [reflexivity|].
  split; [vm_compute; reflexivity|].
  destruct (load_lists_the_users_customers codeUnitCompare sampleUid []
              unloadedShop codeUnitCompare_consistent eq_refl)
    as (Hs & _).
  split; [exact Hs|]. vm_compute. reflexivity.
Defined.

Lemma failed_load_keeps_the_lists_witness :
  shopUser sampleShop <> None
  /\ loadData codeUnitCompare None None sampleShop = sampleShop.
Proof.
  assert (Hu : shopUser sampleShop <> None) by discriminate.
  split; [exact Hu|].
  destruct (failed_load_keeps_the_lists codeUnitCompare None None sampleShop)
    as (_ & Hin & _).
  exact (proj1 (Hin Hu) eq_refl).
Defined.

Lemma logo_stays_acceptable_witness :
  (forall f, Logo.logoFile (Logo.mkState None None) = Some f ->
             Logo.acceptable f)
  /\ forall f,
       Logo.logoFile
         (fold_left (fun st file => Logo.handleLogoChange file st)
            [Some sampleLogo; Some largeLogo; None; Some textFile]
            (Logo.mkState None None)) = Some f ->
       Logo.acceptable f.
Proof.
  assert (H0 : forall f, Logo.logoFile (Logo.mkState None None) = Some f ->
                         Logo.acceptable f)
    by (intros f Hf; discriminate Hf).
  split; [exact H0|].
  exact (proj1 (logo_stays_acceptable
                  [Some sampleLogo; Some largeLogo; None; Some textFile]
                  (Logo.mkState None None) H0)).
Defined.

Lemma reopened_form_shows_saved_values_witness :
  (forall i, is_Some (FirmSetup.formData filledForm
                      !! FirmSetup.textInputName i))
  /\ forall i,
       FirmSetup.formData
         (FirmSetup.initialState
            (Some (FirmSetup.firmDetailsToSave sampleUid [] 1700000000000
                     filledForm)))
       !! FirmSetup.textInputName i
       = FirmSetup.formData filledForm !! FirmSetup.textInputName i.
Proof.
  assert (Hf : forall i, is_Some (FirmSetup.formData filledForm
                                  !! FirmSetup.textInputName i))
    by (intros i; destruct i; vm_compute; eauto).
  split; [exact Hf|].
  exact (proj1 (reopened_form_shows_saved_values sampleUid [] 1700000000000
                  filledForm Hf)).
Defined.

Lemma submit_writes_no_empty_optional_field_witness :
  noEmptyOptional
    (FirmSetup.fields
       (FirmSetup.firmDetailsToSave sampleUid [] 1700000000000 filledForm))
  /\ FirmSetup.logoUrl
       (FirmSetup.firmDetailsToSave sampleUid [] 1700000000000 filledForm)
     = None.
Proof.
  destruct (submit_writes_no_empty_optional_field sampleUid [] 1700000000000
              filledForm) as (Hn & _).
  split; [exact Hn|reflexivity].
Defined.


Lemma stored_invoice_prints_without_store_call_witness :
  AppState.view (app historyWorld) <> ViewForm
  /\ Js.truthy (InvoiceData.id storedInvoice) = true
  /\ result (_ ← handleViewInvoice storedInvoice; printCurrent false createFails)
       historyWorld = Returned PrintDone
  /\ db (after (_ ← handleViewInvoice storedInvoice;
                printCurrent false createFails) historyWorld)
     = db historyWorld.
Proof.
  assert (Hv : AppState.view (app historyWorld) <> ViewForm) by discriminate.
  split; [exact Hv|]. split; [reflexivity|].
  destruct (stored_invoice_prints_without_store_call createFails storedInvoice
              historyWorld Hv eq_refl) as (Hr & Hdb & _).
  split; [exact Hr|exact Hdb].
Defined.
